(** * gw-broadcaster: the relay / admission server

    A shallow embedding of [server/index.ts] (the broadcast server): the
    origin allow-list, session tokens, connection quotas, the state-file
    poller and the connection registry, followed by the properties the
    specification states about them.

    Conventions.
    - JavaScript [Map]s keyed by strings are [gmap string _]; the [clients]
      map, whose iteration order is observable (broadcast order), is an
      association list in insertion order.
    - Times ([Date.now()]) and counters are [Z]; one handler invocation reads
      one clock value [now].
    - What the Node runtime supplies ([URL], [JSON], [String.prototype.trim],
      the sockets of the [ws] package) is an interface: class [Platform] and
      record [Sockets].
    - Handlers run in the monad [M]: state, an effect log, and exceptions. *)

From Stdlib Require Import ZArith List Bool Ascii String Lia.
From stdpp Require Import gmap strings list fin_maps.

#[local] Set Warnings "-register-all".
Local Open Scope string_scope.
Local Open Scope Z_scope.

(* ====================================================================== *)
(** ** JavaScript values                                                   *)
(* ====================================================================== *)

(** A JavaScript [number].  Finite values are restricted to the integers
    (timestamps, counts and millisecond durations are integral). *)
Inductive number :=
| Finite (z : Z)
| Infinity
| NegInfinity
| NaN.

Definition Number_isFinite (n : number) : bool :=
  match n with Finite _ => true | _ => false end.

(** [a === b] on numbers. *)
Definition number_strict_eq (a b : number) : bool :=
  match a, b with
  | Finite x, Finite y => Z.eqb x y
  | Infinity, Infinity => true
  | NegInfinity, NegInfinity => true
  | _, _ => false
  end.

(** What [JSON.parse] produces. *)
Inductive JValue :=
| JNull
| JBool (b : bool)
| JNumber (n : number)
| JString (s : string)
| JArray (items : list JValue)
| JObject (fields : list (string * JValue)).

(** Truthiness of a string: [!s] is [negb (truthy s)]. *)
Definition truthy (s : string) : bool :=
  match s with EmptyString => false | _ => true end.

(** Truthiness of [string | undefined] and [string | null]. *)
Definition truthy_opt (o : option string) : bool :=
  match o with Some s => truthy s | None => false end.

(** Property read [value.key] on a parsed value; [None] is [undefined].
    In an object literal with a repeated key the last binding wins.  The keys
    read by the validator are neither array indices nor [length], so an array
    has none of them. *)
Fixpoint assoc_last (k : string) (fields : list (string * JValue)) : option JValue :=
  match fields with
  | [] => None
  | (k', v) :: rest =>
      match assoc_last k rest with
      | Some w => Some w
      | None => if String.eqb k' k then Some v else None
      end
  end.

Definition get_prop (v : JValue) (k : string) : option JValue :=
  match v with
  | JObject fields => assoc_last k fields
  | _ => None
  end.

(* ====================================================================== *)
(** ** The runtime interface                                               *)
(* ====================================================================== *)

Module URL.
(** The parts of a WHATWG [URL] object the server reads. *)
Record t := mk {
  protocol : string;
  hostname : string;
  pathname : string;
  searchParams : list (string * string);
}.
End URL.

(** [url.searchParams.get(name)]: the first value bound to [name]. *)
Fixpoint searchParams_get (params : list (string * string)) (name : string) : option string :=
  match params with
  | [] => None
  | (k, v) :: rest => if String.eqb k name then Some v else searchParams_get rest name
  end.

Class Platform := {
  (** [new URL(input)]; [None] when the constructor throws. *)
  URL_new : string -> option URL.t;
  (** [new URL(input, base)]; [None] when the constructor throws. *)
  URL_new_base : string -> string -> option URL.t;
  (** [s.trim()] *)
  String_trim : string -> string;
  (** [s.toLowerCase()] *)
  String_toLowerCase : string -> string;
  (** [JSON.parse(text)]; [None] when it throws. *)
  JSON_parse : string -> option JValue;
  (** [JSON.stringify(value)] *)
  JSON_stringify : JValue -> string;
}.

(* ====================================================================== *)
(** ** Configuration and requests                                          *)
(* ====================================================================== *)

Module ServerConfig.
Record t := mk {
  port : Z;
  host : option string;
  allowedOrigins : list string;
  allowSameHostDifferentPort : option bool;
  stateFilePath : string;
  pollIntervalMs : Z;
  maxConnectionsPerIp : Z;
  maxTotalConnections : Z;
  trustProxy : bool;
  idleTimeoutMs : Z;
  sessionTokenTtlMs : option Z;
}.
End ServerConfig.

(** A header as [req.headers[name]] gives it. *)
Inductive HeaderValue :=
| HUndefined
| HString (s : string)
| HArray (l : list string).

(** [typeof h === 'string' ? h : undefined] *)
Definition header_string (h : HeaderValue) : option string :=
  match h with HString s => Some s | _ => None end.

Module IncomingMessage.
Record t := mk {
  method : option string;
  url : option string;
  origin : HeaderValue;               (* headers.origin *)
  host : HeaderValue;                 (* headers.host *)
  cf_connecting_ip : HeaderValue;     (* headers['cf-connecting-ip'] *)
  x_real_ip : HeaderValue;            (* headers['x-real-ip'] *)
  x_forwarded_for : HeaderValue;      (* headers['x-forwarded-for'] *)
  remoteAddress : option string;      (* socket.remoteAddress *)
}.
End IncomingMessage.

(** [s.split(',')[0]]: the text before the first comma. *)
Fixpoint before_comma (s : string) : string :=
  match s with
  | EmptyString => EmptyString
  | String c rest => if Ascii.eqb c ","%char then EmptyString else String c (before_comma rest)
  end.

(** [`${h ?? dflt}`] for a header: an array is joined with commas. *)
Definition header_or (h : HeaderValue) (dflt : string) : string :=
  match h with
  | HUndefined => dflt
  | HString s => s
  | HArray l => String.concat "," l
  end.

(* ====================================================================== *)
(** ** Origin and host allow-lists, client address                         *)
(* ====================================================================== *)

Section Admission.
Context `{Platform} (config : ServerConfig.t).

(** The loop of [isOriginAllowed]: entries that do not parse are skipped. *)
Fixpoint sameSchemeHost (originUrl : URL.t) (allowed : list string) : bool :=
  match allowed with
  | [] => false
  | allowedOrigin :: rest =>
      match URL_new allowedOrigin with
      | Some allowedUrl =>
          if String.eqb (URL.protocol allowedUrl) (URL.protocol originUrl)
             && String.eqb (URL.hostname allowedUrl) (URL.hostname originUrl)
          then true
          else sameSchemeHost originUrl rest
      | None => sameSchemeHost originUrl rest
      end
  end.

Definition isOriginAllowed (originHeader : option string) : bool :=
  match ServerConfig.allowedOrigins config with
  | [] => true
  | _ :: _ =>
      match originHeader with
      | None => false
      | Some origin =>
          if negb (truthy origin) then false
          else if existsb (String.eqb origin) (ServerConfig.allowedOrigins config) then true
          else
            match ServerConfig.allowSameHostDifferentPort config with
            | Some true =>
                match URL_new origin with
                | None => false
                | Some originUrl => sameSchemeHost originUrl (ServerConfig.allowedOrigins config)
                end
            | _ => false
            end
      end
  end.

Definition extractHostname (value : string) : option string :=
  match URL_new ("http://" ++ value) with
  | Some parsed => Some (String_toLowerCase (URL.hostname parsed))
  | None => None
  end.

Fixpoint sameHost (requestHost : string) (allowed : list string) : bool :=
  match allowed with
  | [] => false
  | allowedOrigin :: rest =>
      match URL_new allowedOrigin with
      | Some u =>
          if String.eqb (String_toLowerCase (URL.hostname u)) requestHost then true
          else sameHost requestHost rest
      | None => sameHost requestHost rest
      end
  end.

Definition isHostAllowed (hostHeader : option string) : bool :=
  match ServerConfig.allowedOrigins config with
  | [] => true
  | _ :: _ =>
      if negb (truthy_opt hostHeader) then false
      else
        match extractHostname (default "" hostHeader) with
        | None => false
        | Some requestHost =>
            if negb (truthy requestHost) then false
            else sameHost requestHost (ServerConfig.allowedOrigins config)
        end
  end.

Definition isSessionRequestAllowed (req : IncomingMessage.t) (originHeader : option string) : bool :=
  if isOriginAllowed originHeader then true
  else if negb (truthy_opt originHeader) then
    isHostAllowed (header_string (IncomingMessage.host req))
  else false.

Definition getClientIp (req : IncomingMessage.t) : string :=
  let remote := default "unknown" (IncomingMessage.remoteAddress req) in
  let viaForwarded :=
    match header_string (IncomingMessage.x_forwarded_for req) with
    | Some forwarded => String_trim (before_comma forwarded)
    | None => remote
    end in
  let viaRealIp :=
    match header_string (IncomingMessage.x_real_ip req) with
    | Some xRealIp =>
        if negb (String.eqb (String_trim xRealIp) "") then String_trim xRealIp
        else viaForwarded
    | None => viaForwarded
    end in
  if ServerConfig.trustProxy config then
    match header_string (IncomingMessage.cf_connecting_ip req) with
    | Some cfConnectingIp =>
        if negb (String.eqb (String_trim cfConnectingIp) "") then String_trim cfConnectingIp
        else viaRealIp
    | None => viaRealIp
    end
  else remote.

End Admission.

(* ====================================================================== *)
(** ** Server state                                                        *)
(* ====================================================================== *)

(** A [WebSocket] object, by identity. *)
Definition WebSocket := nat.

Module ClientConnection.
Record t := mk {
  ws : WebSocket;
  ip : string;
  connectedAt : Z;
  lastPongAt : Z;
}.
End ClientConnection.

Module SessionTokenState.
Record t := mk {
  ip : string;
  origin : string;
  expiresAt : Z;
}.
End SessionTokenState.

(** [Map<WebSocket, ClientConnection>] in insertion order. *)
Definition ClientMap := list (WebSocket * ClientConnection.t).

Fixpoint Map_get (k : WebSocket) (m : ClientMap) : option ClientConnection.t :=
  match m with
  | [] => None
  | (k', v) :: rest => if Nat.eqb k' k then Some v else Map_get k rest
  end.

(** [m.set(k, v)]: an existing key keeps its position, a new key goes last. *)
Fixpoint Map_set (k : WebSocket) (v : ClientConnection.t) (m : ClientMap) : ClientMap :=
  match m with
  | [] => [(k, v)]
  | (k', v') :: rest =>
      if Nat.eqb k' k then (k', v) :: rest else (k', v') :: Map_set k v rest
  end.

Fixpoint Map_delete (k : WebSocket) (m : ClientMap) : ClientMap :=
  match m with
  | [] => []
  | (k', v') :: rest =>
      if Nat.eqb k' k then Map_delete k rest else (k', v') :: Map_delete k rest
  end.

Definition Map_size (m : ClientMap) : Z := Z.of_nat (length m).

Record ServerState := mkState {
  clients : ClientMap;
  ipConnectionCounts : gmap string Z;
  sessionTokens : gmap string SessionTokenState.t;
  lastState : string;
  lastTimestamp : number;
}.

Definition with_clients (f : ClientMap -> ClientMap) (s : ServerState) : ServerState :=
  mkState (f (clients s)) (ipConnectionCounts s) (sessionTokens s) (lastState s) (lastTimestamp s).

Definition with_ipConnectionCounts (f : gmap string Z -> gmap string Z) (s : ServerState) : ServerState :=
  mkState (clients s) (f (ipConnectionCounts s)) (sessionTokens s) (lastState s) (lastTimestamp s).

Definition with_sessionTokens
    (f : gmap string SessionTokenState.t -> gmap string SessionTokenState.t)
    (s : ServerState) : ServerState :=
  mkState (clients s) (ipConnectionCounts s) (f (sessionTokens s)) (lastState s) (lastTimestamp s).

Definition with_lastState (v : string) (s : ServerState) : ServerState :=
  mkState (clients s) (ipConnectionCounts s) (sessionTokens s) v (lastTimestamp s).

Definition with_lastTimestamp (v : number) (s : ServerState) : ServerState :=
  mkState (clients s) (ipConnectionCounts s) (sessionTokens s) (lastState s) v.

(* ====================================================================== *)
(** ** Effects and the handler monad                                       *)
(* ====================================================================== *)

Inductive ReadyState := CONNECTING | OPEN | CLOSING | CLOSED.

(** The sockets as a handler finds them: [ws.readyState], and whether
    [ws.send(data)] / [ws.ping()] throw. *)
Record Sockets := mkSockets {
  readyState : WebSocket -> ReadyState;
  send_throws : WebSocket -> string -> bool;
  ping_throws : WebSocket -> bool;
}.

Inductive Level := LLog | LWarn | LError.

(** An interpolated value of a template literal. *)
Inductive Interp :=
| IStr (s : string)
| INum (z : Z).

Inductive Effect :=
| Console (level : Level) (text : string) (args : list Interp)
| WsSend (ws : WebSocket) (data : string)
| WsPing (ws : WebSocket)
| WsTerminate (ws : WebSocket)
| WsOn (ws : WebSocket) (event : string)
| RejectUpgrade (status : Z) (message : string)
| AbortHandshake.

Inductive Completion (A : Type) :=
| Normal (a : A)
| Throw.
Arguments Normal {A} a.
Arguments Throw {A}.

Definition M (A : Type) : Type := ServerState -> Completion A * ServerState * list Effect.

Definition ret {A} (a : A) : M A := fun s => (Normal a, s, []).

Definition bind {A B} (m : M A) (k : A -> M B) : M B :=
  fun s =>
    match m s with
    | (Normal a, s1, e1) =>
        match k a s1 with
        | (c, s2, e2) => (c, s2, (e1 ++ e2)%list)
        end
    | (Throw, s1, e1) => (Throw, s1, e1)
    end.

Definition throw {A} : M A := fun s => (Throw, s, []).

(** [try { body } catch { handler }] *)
Definition try_catch {A} (body : M A) (handler : M A) : M A :=
  fun s =>
    match body s with
    | (Normal a, s1, e1) => (Normal a, s1, e1)
    | (Throw, s1, e1) =>
        match handler s1 with
        | (c, s2, e2) => (c, s2, (e1 ++ e2)%list)
        end
    end.

Definition get : M ServerState := fun s => (Normal s, s, []).
Definition modify (f : ServerState -> ServerState) : M unit := fun s => (Normal tt, f s, []).
Definition emit (e : Effect) : M unit := fun s => (Normal tt, s, [e]).

(** A library call that either returns or throws. *)
Definition or_throw {A} (o : option A) : M A :=
  match o with Some a => ret a | None => throw end.

Declare Scope handler_scope.
Delimit Scope handler_scope with handler.
Notation "x <- m ;; k" := (bind m (fun x => k))
  (at level 100, m at next level, right associativity) : handler_scope.
Notation "m ;; k" := (bind m (fun _ => k))
  (at level 100, right associativity) : handler_scope.
Local Open Scope handler_scope.

(** [for (const x of xs) body(x)] *)
Fixpoint for_of {A} (xs : list A) (body : A -> M unit) : M unit :=
  match xs with
  | [] => ret tt
  | x :: rest => body x ;; for_of rest body
  end.

Definition state_of {A} (r : Completion A * ServerState * list Effect) : ServerState := snd (fst r).
Definition effects_of {A} (r : Completion A * ServerState * list Effect) : list Effect := snd r.
Definition completion_of {A} (r : Completion A * ServerState * list Effect) : Completion A := fst (fst r).

Definition ws_send (env : Sockets) (ws : WebSocket) (data : string) : M unit :=
  if send_throws env ws data then throw else emit (WsSend ws data).

Definition ws_ping (env : Sockets) (ws : WebSocket) : M unit :=
  if ping_throws env ws then throw else emit (WsPing ws).

Definition ReadyState_eqb (a b : ReadyState) : bool :=
  match a, b with
  | CONNECTING, CONNECTING | OPEN, OPEN | CLOSING, CLOSING | CLOSED, CLOSED => true
  | _, _ => false
  end.

(* ====================================================================== *)
(** ** Payload validation and token encoding                               *)
(* ====================================================================== *)

Definition isObject (value : JValue) : bool :=
  match value with
  | JObject _ | JArray _ => true
  | _ => false
  end.

Definition isValidBroadcastPayload (value : JValue) : bool :=
  if negb (isObject value) then false
  else if negb (match get_prop value "type" with
                | Some (JString t) => String.eqb t "state"
                | _ => false
                end) then false
  else if negb (match get_prop value "timestamp" with
                | Some (JNumber n) => Number_isFinite n
                | _ => false
                end) then false
  else if negb (match get_prop value "instances" with
                | Some (JArray _) => true
                | _ => false
                end) then false
  else
    match get_prop value "mapDimensions" with
    | None => true
    | Some mapDimensions =>
        if negb (isObject mapDimensions) then false
        else
          match get_prop mapDimensions "width", get_prop mapDimensions "height" with
          | Some (JNumber _), Some (JNumber _) => true
          | _, _ => false
          end
    end.

(** [parsed.timestamp] of a payload ([NaN] stands for a non-number). *)
Definition payload_timestamp (value : JValue) : number :=
  match get_prop value "timestamp" with
  | Some (JNumber n) => n
  | _ => NaN
  end.

Definition hexDigit (n : nat) : ascii :=
  nth n ["0"; "1"; "2"; "3"; "4"; "5"; "6"; "7"; "8"; "9"; "a"; "b"; "c"; "d"; "e"; "f"]%char "f"%char.

(** [buffer.toString('hex')] *)
Fixpoint Buffer_toString_hex (bytes : list Byte.byte) : string :=
  match bytes with
  | [] => EmptyString
  | b :: rest =>
      String (hexDigit (Nat.div (Byte.to_nat b) 16))
        (String (hexDigit (Nat.modulo (Byte.to_nat b) 16)) (Buffer_toString_hex rest))
  end.

(* ====================================================================== *)
(** ** HTTP responses                                                      *)
(* ====================================================================== *)

Module ServerResponse.
Record t := mk {
  statusCode : Z;
  headers : list (string * string);
  body : option string;          (* what [res.end] wrote; [None] before it *)
}.
End ServerResponse.

Fixpoint header_set (name value : string) (hs : list (string * string)) : list (string * string) :=
  match hs with
  | [] => [(name, value)]
  | (n, v) :: rest =>
      if String.eqb n name then (n, value) :: rest else (n, v) :: header_set name value rest
  end.

Definition setHeader (name value : string) (res : ServerResponse.t) : ServerResponse.t :=
  ServerResponse.mk (ServerResponse.statusCode res)
    (header_set name value (ServerResponse.headers res)) (ServerResponse.body res).

Definition setStatus (code : Z) (res : ServerResponse.t) : ServerResponse.t :=
  ServerResponse.mk code (ServerResponse.headers res) (ServerResponse.body res).

Definition res_end (data : string) (res : ServerResponse.t) : ServerResponse.t :=
  ServerResponse.mk (ServerResponse.statusCode res) (ServerResponse.headers res) (Some data).

Definition freshResponse : ServerResponse.t := ServerResponse.mk 200 [] None.

(** The payload types of the HTTP endpoint and of the welcome frame. *)
Definition ErrorPayload (error : string) : JValue :=
  JObject [("error", JString error)].

Definition SessionTokenPayload (token : string) (expiresAt : Z) : JValue :=
  JObject [("token", JString token); ("expiresAt", JNumber (Finite expiresAt))].

Definition WelcomePayload (updateIntervalMs : Z) : JValue :=
  JObject [("type", JString "welcome");
           ("message", JString "Connected to Guild War Broadcast");
           ("mapDimensions",
             JObject [("width", JNumber (Finite 4800)); ("height", JNumber (Finite 3000))]);
           ("updateIntervalMs", JNumber (Finite updateIntervalMs))].

(** The outcome of one stage of the upgrade handshake: go on, or reject with
    the status line [HTTP/1.1 status message]. *)
Inductive Verdict :=
| Proceed
| Reject (status : Z) (message : string).

(** What [fs] shows of the state file on one poll. *)
Record StateFile := mkStateFile {
  existsSync : bool;
  readFileSync : option string;    (* [None] when the read throws *)
}.

(* ====================================================================== *)
(** ** The handlers                                                        *)
(* ====================================================================== *)

Section Server.
Context `{Platform} (config : ServerConfig.t).

Definition sessionTokenTtlMs : Z :=
  Z.max 5000 (default 30000 (ServerConfig.sessionTokenTtlMs config)).

(** The module-level initial values; [now] is the clock at start-up. *)
Definition initialState (now : Z) : ServerState :=
  mkState [] ∅ ∅
    (JSON_stringify
       (JObject [("type", JString "state");
                 ("timestamp", JNumber (Finite now));
                 ("mapDimensions",
                   JObject [("width", JNumber (Finite 4800)); ("height", JNumber (Finite 3000))]);
                 ("instances", JArray [])]))
    (Finite 0).

Definition setCorsHeaders (res : ServerResponse.t) (originHeader : option string) : ServerResponse.t :=
  if negb (truthy_opt originHeader) || negb (isOriginAllowed config originHeader) then res
  else
    setHeader "Access-Control-Allow-Headers" "Content-Type"
      (setHeader "Access-Control-Allow-Methods" "GET, OPTIONS"
         (setHeader "Vary" "Origin"
            (setHeader "Access-Control-Allow-Origin" (default "" originHeader) res))).

Definition sendJson (res : ServerResponse.t) (statusCode : Z) (payload : JValue) : ServerResponse.t :=
  res_end (JSON_stringify payload)
    (setHeader "Cache-Control" "no-store"
       (setHeader "Content-Type" "application/json"
          (setStatus statusCode res))).

Definition cleanExpiredSessionTokens (now : Z) : M unit :=
  modify (with_sessionTokens
            (filter (fun kv : string * SessionTokenState.t =>
                       ¬ (SessionTokenState.expiresAt kv.2 <= now)%Z))).

(** *** Broadcast and ping *)

Definition broadcastToClients (env : Sockets) (json : string) : M unit :=
  s <- get ;;
  for_of (clients s) (fun entry =>
    let '(ws, client) := entry in
    if ReadyState_eqb (readyState env ws) OPEN then
      try_catch (ws_send env ws json)
        (emit (Console LError "Failed to send to" [IStr (ClientConnection.ip client)]))
    else ret tt).

Definition pingClients (env : Sockets) (now : Z) : M unit :=
  s <- get ;;
  for_of (clients s) (fun entry =>
    let '(ws, client) := entry in
    if (now - ClientConnection.lastPongAt client >? ServerConfig.idleTimeoutMs config)%Z then
      emit (Console LLog "Disconnecting idle client" [IStr (ClientConnection.ip client)]) ;;
      emit (WsTerminate ws)
    else if ReadyState_eqb (readyState env ws) OPEN then
      try_catch (ws_ping env ws) (ret tt)
    else ret tt).

(** *** File watcher *)

Definition pollStateFile (env : Sockets) (file : StateFile) : M unit :=
  try_catch
    (if negb (existsSync file) then ret tt
     else
       content <- or_throw (readFileSync file) ;;
       parsed <- or_throw (JSON_parse content) ;;
       if negb (isValidBroadcastPayload parsed) then
         emit (Console LWarn "Ignoring invalid broadcast payload shape from state file" [])
       else
         s <- get ;;
         if negb (number_strict_eq (payload_timestamp parsed) (lastTimestamp s)) then
           modify (with_lastTimestamp (payload_timestamp parsed)) ;;
           modify (with_lastState content) ;;
           broadcastToClients env content
         else ret tt)
    (ret tt).

(** *** The HTTP endpoint *)

(** The issuing block of the [/session-token] branch: bind a fresh token to
    the client address and the [Origin] header, store it, sweep. *)
Definition issueSessionToken (req : IncomingMessage.t) (originHeader : option string)
    (entropy : list Byte.byte) (now : Z) : M (string * Z) :=
  let ip := getClientIp config req in
  let token := Buffer_toString_hex entropy in
  let expiresAt := now + sessionTokenTtlMs in
  modify (with_sessionTokens
            (insert token (SessionTokenState.mk ip (default "" originHeader) expiresAt))) ;;
  cleanExpiredSessionTokens now ;;
  ret (token, expiresAt).

Definition onRequest (req : IncomingMessage.t) (entropy : list Byte.byte) (now : Z)
  : M ServerResponse.t :=
  let method := default "GET" (IncomingMessage.method req) in
  let originHeader := header_string (IncomingMessage.origin req) in
  let res := setCorsHeaders freshResponse originHeader in
  if String.eqb method "OPTIONS" then
    ret (ServerResponse.mk 204 (ServerResponse.headers res) (Some ""))
  else
    requestUrl <- or_throw (URL_new_base (default "/" (IncomingMessage.url req))
                              ("http://" ++ header_or (IncomingMessage.host req) "localhost")) ;;
    if String.eqb method "GET" && String.eqb (URL.pathname requestUrl) "/session-token" then
      if negb (isSessionRequestAllowed config req originHeader) then
        ret (sendJson res 403 (ErrorPayload "Origin not allowed"))
      else
        issued <- issueSessionToken req originHeader entropy now ;;
        ret (sendJson res 200 (SessionTokenPayload (fst issued) (snd issued)))
    else
      ret (sendJson res 404 (ErrorPayload "Not Found")).

(** *** The connection registry *)

Definition onClose (ws : WebSocket) (ip : string) : M unit :=
  modify (with_clients (Map_delete ws)) ;;
  s <- get ;;
  let newCount := default 1 (ipConnectionCounts s !! ip) - 1 in
  (if (newCount <=? 0)%Z then modify (with_ipConnectionCounts (delete ip))
   else modify (with_ipConnectionCounts (insert ip newCount))) ;;
  s <- get ;;
  emit (Console LLog "Client disconnected" [IStr ip; INum (Map_size (clients s))]).

Definition onPong (ws : WebSocket) (now : Z) : M unit :=
  s <- get ;;
  match Map_get ws (clients s) with
  | Some client =>
      modify (with_clients
                (Map_set ws (ClientConnection.mk (ClientConnection.ws client)
                               (ClientConnection.ip client)
                               (ClientConnection.connectedAt client) now)))
  | None => ret tt
  end.

Definition onConnection (env : Sockets) (ws : WebSocket) (req : IncomingMessage.t) (now : Z)
  : M unit :=
  let ip := getClientIp config req in
  modify (with_clients (Map_set ws (ClientConnection.mk ws ip now now))) ;;
  modify (with_ipConnectionCounts
            (fun counts => <[ip := default 0 (counts !! ip) + 1]> counts)) ;;
  s <- get ;;
  emit (Console LLog "Client connected" [IStr ip; INum (Map_size (clients s))]) ;;
  ws_send env ws (JSON_stringify (WelcomePayload (ServerConfig.pollIntervalMs config))) ;;
  s <- get ;;
  ws_send env ws (lastState s) ;;
  emit (WsOn ws "pong") ;;
  emit (WsOn ws "close") ;;
  emit (WsOn ws "message") ;;
  emit (WsOn ws "error").

(** *** The upgrade handshake, stage by stage *)

Definition rejectUpgrade (status : Z) (message : string) : M unit :=
  emit (RejectUpgrade status message).

Definition checkOrigin (originHeader : option string) (hostHeader requestPath ip : string)
  : M Verdict :=
  if negb (isOriginAllowed config originHeader) then
    emit (Console LWarn "Rejected websocket origin"
            [IStr (default "none" originHeader); IStr hostHeader; IStr requestPath; IStr ip]) ;;
    ret (Reject 403 "Origin not allowed")
  else ret Proceed.

Definition checkCapacity (hostHeader requestPath ip : string) : M Verdict :=
  s <- get ;;
  if (Map_size (clients s) >=? ServerConfig.maxTotalConnections config)%Z then
    emit (Console LWarn "Rejected websocket (capacity)"
            [IStr hostHeader; IStr requestPath; IStr ip;
             INum (Map_size (clients s)); INum (ServerConfig.maxTotalConnections config)]) ;;
    ret (Reject 503 "Server at capacity")
  else
    let currentCount := default 0 (ipConnectionCounts s !! ip) in
    if (currentCount >=? ServerConfig.maxConnectionsPerIp config)%Z then
      emit (Console LWarn "Rejected websocket (ip limit)"
              [IStr hostHeader; IStr requestPath; IStr ip;
               INum currentCount; INum (ServerConfig.maxConnectionsPerIp config)]) ;;
      ret (Reject 429 "Too many connections")
    else ret Proceed.

Definition checkSessionToken (sessionToken originHeader : option string)
    (hostHeader requestPath ip : string) (now : Z) : M Verdict :=
  if negb (truthy_opt sessionToken) then
    emit (Console LWarn "Rejected websocket (missing token)"
            [IStr hostHeader; IStr requestPath; IStr ip]) ;;
    ret (Reject 401 "Missing session token")
  else
    let token := default "" sessionToken in
    s <- get ;;
    match sessionTokens s !! token with
    | None =>
        emit (Console LWarn "Rejected websocket (invalid token)"
                [IStr hostHeader; IStr requestPath; IStr ip]) ;;
        ret (Reject 401 "Invalid session token")
    | Some session =>
        if (SessionTokenState.expiresAt session <=? now)%Z then
          modify (with_sessionTokens (delete token)) ;;
          emit (Console LWarn "Rejected websocket (expired token)"
                  [IStr hostHeader; IStr requestPath; IStr ip]) ;;
          ret (Reject 401 "Session token expired")
        else if negb (String.eqb (SessionTokenState.ip session) ip) then
          modify (with_sessionTokens (delete token)) ;;
          emit (Console LWarn "Rejected websocket (ip mismatch)"
                  [IStr hostHeader; IStr requestPath;
                   IStr (SessionTokenState.ip session); IStr ip]) ;;
          ret (Reject 401 "Session token mismatch")
        else if truthy (SessionTokenState.origin session)
                && truthy_opt originHeader
                && negb (String.eqb (SessionTokenState.origin session) (default "" originHeader))
        then
          modify (with_sessionTokens (delete token)) ;;
          emit (Console LWarn "Rejected websocket (origin mismatch)"
                  [IStr hostHeader; IStr requestPath;
                   IStr (SessionTokenState.origin session); IStr (default "" originHeader)]) ;;
          ret (Reject 401 "Session token origin mismatch")
        else ret Proceed
    end.

(** Stages in sequence: the first rejection ends the handshake. *)
Definition and_then (check next : M Verdict) : M Verdict :=
  verdict <- check ;;
  match verdict with
  | Proceed => next
  | Reject _ _ => ret verdict
  end.

(** The checks of the [upgrade] listener, in the order of the source. *)
Definition checkUpgrade (req : IncomingMessage.t) (now : Z) : M Verdict :=
  let originHeader := header_string (IncomingMessage.origin req) in
  let hostHeader := default "unknown" (header_string (IncomingMessage.host req)) in
  let requestPath := default "/" (IncomingMessage.url req) in
  let ip := getClientIp config req in
  and_then (checkOrigin originHeader hostHeader requestPath ip)
    (and_then (checkCapacity hostHeader requestPath ip)
       (match URL_new_base (default "/" (IncomingMessage.url req))
                ("http://" ++ header_or (IncomingMessage.host req) "localhost") with
        | None =>
            emit (Console LWarn "Rejected websocket (bad request URL)"
                    [IStr hostHeader; IStr requestPath; IStr ip]) ;;
            ret (Reject 400 "Bad request")
        | Some requestUrl =>
            let sessionToken := searchParams_get (URL.searchParams requestUrl) "sessionToken" in
            checkSessionToken sessionToken originHeader hostHeader requestPath ip now
        end)).

(** [wss.handleUpgrade(req, socket, head, ws => wss.emit('connection', ws, req))]:
    the [ws] package completes the handshake with a new socket object
    ([handshake = Some ws]) and the callback emits [connection], or it aborts
    the handshake itself. *)
Definition wss_handleUpgrade (env : Sockets) (req : IncomingMessage.t)
    (handshake : option WebSocket) (now : Z) : M unit :=
  match handshake with
  | Some ws => onConnection env ws req now
  | None => emit AbortHandshake
  end.

Definition onUpgrade (env : Sockets) (req : IncomingMessage.t)
    (handshake : option WebSocket) (now : Z) : M unit :=
  verdict <- checkUpgrade req now ;;
  match verdict with
  | Reject status message => rejectUpgrade status message
  | Proceed => wss_handleUpgrade env req handshake now
  end.

(** *** The event loop *)

(** One run-to-completion unit of the server. *)
Inductive Event :=
| EHttpRequest (req : IncomingMessage.t) (entropy : list Byte.byte) (now : Z)
| EUpgrade (env : Sockets) (req : IncomingMessage.t) (handshake : option WebSocket) (now : Z)
| EClose (ws : WebSocket) (ip : string)
| EPong (ws : WebSocket) (now : Z)
| EPoll (env : Sockets) (file : StateFile)
| EPing (env : Sockets) (now : Z)
| ESweep (now : Z).

Definition handle (e : Event) : M unit :=
  match e with
  | EHttpRequest req entropy now => onRequest req entropy now ;; ret tt
  | EUpgrade env req handshake now => onUpgrade env req handshake now
  | EClose ws ip => onClose ws ip
  | EPong ws now => onPong ws now
  | EPoll env file => pollStateFile env file
  | EPing env now => pingClients env now
  | ESweep now => cleanExpiredSessionTokens now
  end.

Definition step (s : ServerState) (e : Event) : ServerState := state_of (handle e s).

Definition run (s : ServerState) (trace : list Event) : ServerState := fold_left step trace s.

(** What the runtime guarantees of an event: [randomBytes(24)] has 24 bytes;
    a completed handshake yields a socket object not yet in [clients]; the
    [close] listener of a socket runs for a registered socket, with the [ip]
    its closure captured at registration. *)
Definition enabled (s : ServerState) (e : Event) : bool :=
  match e with
  | EHttpRequest _ entropy _ => Nat.eqb (length entropy) 24
  | EUpgrade _ _ (Some ws) _ =>
      match Map_get ws (clients s) with None => true | Some _ => false end
  | EClose ws ip =>
      match Map_get ws (clients s) with
      | Some client => String.eqb (ClientConnection.ip client) ip
      | None => false
      end
  | _ => true
  end.

Fixpoint valid_trace (s : ServerState) (trace : list Event) : bool :=
  match trace with
  | [] => true
  | e :: rest => enabled s e && valid_trace (step s e) rest
  end.

(** An upgrade that ends in a registered connection. *)
Definition joined (s : ServerState) (e : Event) : bool :=
  match e with
  | EUpgrade _ req (Some _) now =>
      match completion_of (checkUpgrade req now s) with
      | Normal Proceed => true
      | _ => false
      end
  | _ => false
  end.

Definition closed (e : Event) : bool :=
  match e with EClose _ _ => true | _ => false end.

Fixpoint joins (s : ServerState) (trace : list Event) : Z :=
  match trace with
  | [] => 0
  | e :: rest => (if joined s e then 1 else 0) + joins (step s e) rest
  end.

Definition closes (trace : list Event) : Z :=
  Z.of_nat (length (List.filter closed trace)).

End Server.

(* ====================================================================== *)
(** ** A reference platform, for running the handlers on examples          *)
(* ====================================================================== *)

Module Ref.

Definition dq : string := String "034"%char EmptyString.

(** [s] up to the first character satisfying [stop], and what follows from
    that character on. *)
Fixpoint span_until (stop : ascii -> bool) (s : string) : string * string :=
  match s with
  | EmptyString => (EmptyString, EmptyString)
  | String c rest =>
      if stop c then (EmptyString, s)
      else let '(a, b) := span_until stop rest in (String c a, b)
  end.

Definition tail (s : string) : string :=
  match s with EmptyString => EmptyString | String _ rest => rest end.

Fixpoint split_on (fuel : nat) (sep : ascii) (s : string) : list string :=
  match fuel with
  | O => [s]
  | S fuel' =>
      let '(a, b) := span_until (Ascii.eqb sep) s in
      match b with
      | EmptyString => [a]
      | String _ rest => a :: split_on fuel' sep rest
      end
  end.

Definition parse_query (q : string) : list (string * string) :=
  match q with
  | EmptyString => []
  | _ =>
      List.map (fun kv => let '(k, v) := span_until (Ascii.eqb "="%char) kv in (k, tail v))
        (split_on (String.length q) "&"%char q)
  end.

(** [scheme://host[:port][/path][?query]] *)
Definition parse_url (input : string) : option URL.t :=
  let '(scheme, rest) := span_until (Ascii.eqb ":"%char) input in
  match scheme, rest with
  | String _ _, String _ (String "/" (String "/" after)) =>
      let '(authority, pathAndQuery) :=
        span_until (fun c => Ascii.eqb c "/"%char || Ascii.eqb c "?"%char) after in
      let '(hostname, _) := span_until (Ascii.eqb ":"%char) authority in
      let '(path, query) := span_until (Ascii.eqb "?"%char) pathAndQuery in
      match hostname with
      | EmptyString => None
      | _ =>
          Some (URL.mk (scheme ++ ":") hostname
                  (match path with EmptyString => "/" | _ => path end)
                  (parse_query (tail query)))
      end
  | _, _ => None
  end.

Definition parse_url_base (input base : string) : option URL.t :=
  match input with
  | String "/" _ =>
      match parse_url base with
      | Some b => parse_url (URL.protocol b ++ "//" ++ URL.hostname b ++ input)
      | None => None
      end
  | _ => parse_url input
  end.

Definition is_space (c : ascii) : bool :=
  Ascii.eqb c " "%char || Ascii.eqb c "009"%char || Ascii.eqb c "010"%char
  || Ascii.eqb c "013"%char.

Fixpoint trim_left (s : string) : string :=
  match s with
  | String c rest => if is_space c then trim_left rest else s
  | EmptyString => EmptyString
  end.

Fixpoint trim_right (s : string) : string :=
  match s with
  | EmptyString => EmptyString
  | String c rest =>
      match trim_right rest with
      | EmptyString => if is_space c then EmptyString else String c EmptyString
      | r => String c r
      end
  end.

Definition trim (s : string) : string := trim_right (trim_left s).

Definition lower (c : ascii) : ascii :=
  let n := nat_of_ascii c in
  if Nat.leb 65 n && Nat.leb n 90 then ascii_of_nat (n + 32) else c.

Fixpoint toLowerCase (s : string) : string :=
  match s with
  | EmptyString => EmptyString
  | String c rest => String (lower c) (toLowerCase rest)
  end.

Fixpoint digits (fuel : nat) (n : N) (acc : string) : string :=
  match fuel with
  | O => acc
  | S fuel' =>
      let acc' := String (ascii_of_N (48 + N.modulo n 10)) acc in
      if N.eqb (N.div n 10) 0 then acc' else digits fuel' (N.div n 10) acc'
  end.

Definition show_Z (z : Z) : string :=
  let n := Z.abs_N z in
  let d := digits (S (N.to_nat (N.log2 n))) n EmptyString in
  if (z <? 0)%Z then "-" ++ d else d.

Fixpoint stringify (v : JValue) : string :=
  match v with
  | JNull => "null"
  | JBool true => "true"
  | JBool false => "false"
  | JNumber (Finite z) => show_Z z
  | JNumber _ => "null"
  | JString s => dq ++ s ++ dq
  | JArray items => "[" ++ String.concat "," (List.map stringify items) ++ "]"
  | JObject fields =>
      "{" ++ String.concat ","
               (List.map (fun kv => dq ++ fst kv ++ dq ++ ":" ++ stringify (snd kv)) fields)
          ++ "}"
  end.

(** A parser that reads back the documents of [corpus] from their
    serialisation and rejects every other text. *)
Definition parse_known (corpus : list JValue) (text : string) : option JValue :=
  List.find (fun v => String.eqb (stringify v) text) corpus.

Definition platform (corpus : list JValue) : Platform :=
  {| URL_new := parse_url;
     URL_new_base := parse_url_base;
     String_trim := trim;
     String_toLowerCase := toLowerCase;
     JSON_parse := parse_known corpus;
     JSON_stringify := stringify |}.

(** Sockets that are all open and never throw. *)
Definition healthy : Sockets := mkSockets (fun _ => OPEN) (fun _ _ => false) (fun _ => false).

Definition bytes24 : list Byte.byte := List.repeat Byte.x2a 24.

Definition request (url : string) (origin host : HeaderValue) (remote : string)
  : IncomingMessage.t :=
  IncomingMessage.mk (Some "GET") (Some url) origin host HUndefined HUndefined HUndefined
    (Some remote).

Definition config (allowed : list string) (perIp total : Z) (ttl : option Z) : ServerConfig.t :=
  ServerConfig.mk 8081 None allowed None "state.json" 500 perIp total false 60000 ttl.

End Ref.

(* ====================================================================== *)
(** ** The specification's reading, for comparison with the code           *)
(* ====================================================================== *)

Section Spec.
Context `{Platform} (config : ServerConfig.t).

(** [origin] and an allow-list entry agree on scheme and host name; an entry
    that is not a URL agrees with nothing. *)
Definition matches_scheme_host (originUrl : URL.t) (allowedOrigin : string) : bool :=
  match URL_new allowedOrigin with
  | Some allowedUrl =>
      String.eqb (URL.protocol allowedUrl) (URL.protocol originUrl)
      && String.eqb (URL.hostname allowedUrl) (URL.hostname originUrl)
  | None => false
  end.

(** The allow-list rule as the specification words it: open when the list
    is empty, else a verbatim member, else (in the same-host mode only) an
    origin whose scheme and host name are those of some entry, else refused. *)
Definition isOriginAllowed_spec (origin : string) : bool :=
  match ServerConfig.allowedOrigins config with
  | [] => true
  | allowed =>
      if existsb (String.eqb origin) allowed then true
      else
        match ServerConfig.allowSameHostDifferentPort config with
        | Some true =>
            match URL_new origin with
            | Some originUrl => existsb (matches_scheme_host originUrl) allowed
            | None => false
            end
        | _ => false
        end
  end.

End Spec.

(** The reasons of the specification's [validate], in its order. *)
Inductive Rejection :=
| missing
| invalid
| expired
| ip_mismatch
| origin_mismatch.

Inductive Validation :=
| Accepted
| Rejected (reason : Rejection).

(** [validate(tokenValue, ip, origin)] as the specification words it, with
    the store it leaves.  A request origin is present when the header has a
    non-empty value. *)
Definition validate_spec (tokens : gmap string SessionTokenState.t)
    (tokenValue : option string) (ip : string) (origin : option string) (now : Z)
  : Validation * gmap string SessionTokenState.t :=
  match tokenValue with
  | None => (Rejected missing, tokens)
  | Some EmptyString => (Rejected missing, tokens)
  | Some value =>
      match tokens !! value with
      | None => (Rejected invalid, tokens)
      | Some bound =>
          if (SessionTokenState.expiresAt bound <=? now)%Z then
            (Rejected expired, delete value tokens)
          else if negb (String.eqb (SessionTokenState.ip bound) ip) then
            (Rejected ip_mismatch, delete value tokens)
          else
            match SessionTokenState.origin bound, origin with
            | String _ _, Some (String _ _ as requestOrigin) =>
                if String.eqb (SessionTokenState.origin bound) requestOrigin
                then (Accepted, tokens)
                else (Rejected origin_mismatch, delete value tokens)
            | _, _ => (Accepted, tokens)
            end
      end
  end.

(** The status line the handshake answers for each outcome. *)
Definition verdict_of (v : Validation) : Verdict :=
  match v with
  | Accepted => Proceed
  | Rejected missing => Reject 401 "Missing session token"
  | Rejected invalid => Reject 401 "Invalid session token"
  | Rejected expired => Reject 401 "Session token expired"
  | Rejected ip_mismatch => Reject 401 "Session token mismatch"
  | Rejected origin_mismatch => Reject 401 "Session token origin mismatch"
  end.

(** The frames [broadcastToClients] puts on the wire or, for a socket whose
    [send] throws, the error it logs; sockets that are not open are passed
    over. *)
Definition broadcast_effects (env : Sockets) (json : string) (registry : ClientMap)
  : list Effect :=
  flat_map (fun entry : WebSocket * ClientConnection.t =>
              if ReadyState_eqb (readyState env (fst entry)) OPEN then
                if send_throws env (fst entry) json
                then [Console LError "Failed to send to" [IStr (ClientConnection.ip (snd entry))]]
                else [WsSend (fst entry) json]
              else [])
    registry.

(** The number of registered connections of one address. *)
Definition connections_of (ip : string) (registry : ClientMap) : Z :=
  Z.of_nat (length (List.filter
                      (fun entry : WebSocket * ClientConnection.t =>
                         String.eqb (ClientConnection.ip (snd entry)) ip)
                      registry)).

(* ====================================================================== *)
(** ** Auxiliary definitions for the statements                            *)
(* ====================================================================== *)

Section Stages.
Context `{Platform} (config : ServerConfig.t).

(** The part of [checkUpgrade] that follows admission: the request URL and
    the token. *)
Definition afterAdmission (req : IncomingMessage.t) (now : Z) : M Verdict :=
  match URL_new_base (default "/" (IncomingMessage.url req))
          ("http://" ++ header_or (IncomingMessage.host req) "localhost") with
  | None =>
      emit (Console LWarn "Rejected websocket (bad request URL)"
              [IStr (default "unknown" (header_string (IncomingMessage.host req)));
               IStr (default "/" (IncomingMessage.url req));
               IStr (getClientIp config req)]) ;;
      ret (Reject 400 "Bad request")
  | Some requestUrl =>
      checkSessionToken (searchParams_get (URL.searchParams requestUrl) "sessionToken")
        (header_string (IncomingMessage.origin req))
        (default "unknown" (header_string (IncomingMessage.host req)))
        (default "/" (IncomingMessage.url req))
        (getClientIp config req) now
  end.

End Stages.

(** The registry invariant: socket objects are registered once, and the
    per-address counter map holds exactly the non-zero connection counts. *)
Definition registry_consistent (s : ServerState) : Prop :=
  NoDup (List.map fst (clients s))
  /\ forall ip : string,
       ipConnectionCounts s !! ip
       = if connections_of ip (clients s) =? 0 then None
         else Some (connections_of ip (clients s)).

(* ====================================================================== *)
(** ** Scenario data                                                       *)
(* ====================================================================== *)

Module Scenario.

(** The two state files of the deduplication scenario: same timestamp,
    different content. *)
Definition quiet : JValue :=
  JObject [("type", JString "state"); ("timestamp", JNumber (Finite 100));
           ("instances", JArray [])].

Definition busy : JValue :=
  JObject [("type", JString "state"); ("timestamp", JNumber (Finite 100));
           ("instances", JArray [JObject [("id", JNumber (Finite 1))]])].

Definition P : Platform := Ref.platform [quiet; busy].

Definition file_of (doc : JValue) : StateFile := mkStateFile true (Some (Ref.stringify doc)).

Definition viewer : string := "https://viewer.example.com".
Definition evil : string := "https://evil.example.com".
Definition viewerHost : string := "viewer.example.com".
Definition alice : string := "203.0.113.7".
Definition mallory : string := "198.51.100.9".

(** One allowed origin, one connection per address, ten in all, and a
    configured token lifetime below the floor. *)
Definition strict : ServerConfig.t := Ref.config [viewer] 1 10 (Some 2000).

(** One allowed origin and room for a single connection. *)
Definition single : ServerConfig.t := Ref.config [viewer] 5 1 None.

(** An allow-list that holds the empty string. *)
Definition emptyEntry : ServerConfig.t := Ref.config [""] 1 10 None.

(** Same-host mode, with an entry that is not a URL. *)
Definition sameHost : ServerConfig.t :=
  ServerConfig.mk 8081 None ["not a url"; viewer] (Some true) "state.json" 500 1 10 false
    60000 None.

Definition start : ServerState := initialState (H := P) 0.

Definition token : string := Buffer_toString_hex Ref.bytes24.

Definition tokenRequest : IncomingMessage.t :=
  Ref.request "/session-token" (HString viewer) (HString viewerHost) alice.

Definition upgradeRequest (origin : HeaderValue) (remote : string) : IncomingMessage.t :=
  Ref.request ("/ws?sessionToken=" ++ token) origin (HString viewerHost) remote.

(** The state right after [alice] was issued [token] at time 0. *)
Definition issued : ServerState :=
  state_of (issueSessionToken (H := P) strict tokenRequest (Some viewer) Ref.bytes24 0 start).

(** [issued], with [alice] connected on socket 1 since time 1000. *)
Definition connected : ServerState :=
  state_of (onUpgrade (H := P) strict Ref.healthy (upgradeRequest (HString viewer) alice)
              (Some 1%nat) 1000 issued).

(** A store that still holds a token expired since time 10. *)
Definition stale : ServerState :=
  mkState [] ∅ {["0ld" := SessionTokenState.mk mallory "" 10]} "" (Finite 0).

(** Sockets whose [send] always throws, and sockets that fail on everything
    but the welcome frame. *)
Definition broken : Sockets := mkSockets (fun _ => OPEN) (fun _ _ => true) (fun _ => false).

Definition half_broken : Sockets :=
  mkSockets (fun _ => OPEN)
    (fun _ data =>
       negb (String.eqb data
               (Ref.stringify (WelcomePayload (ServerConfig.pollIntervalMs strict)))))
    (fun _ => false).

(** A session: token request, upgrade, a poll, a second upgrade over the
    per-address limit, close. *)
Definition session : list Event :=
  [EHttpRequest tokenRequest Ref.bytes24 0;
   EUpgrade Ref.healthy (upgradeRequest (HString viewer) alice) (Some 1%nat) 1000;
   EPoll Ref.healthy (file_of quiet);
   EUpgrade Ref.healthy (upgradeRequest (HString viewer) alice) (Some 2%nat) 2000;
   EPong 1%nat 2500;
   EClose 1%nat alice;
   ESweep 6000].

End Scenario.

(* ====================================================================== *)
(** ** The viewer's side of the channel ([hooks/useWebSocket.ts])          *)
(* ====================================================================== *)

Module Client.

(** [typeof value[key] === 'number'] and [typeof value[key] === 'string'] *)
Definition has_number (value : JValue) (key : string) : bool :=
  match get_prop value key with Some (JNumber _) => true | _ => false end.

Definition has_string (value : JValue) (key : string) : bool :=
  match get_prop value key with Some (JString _) => true | _ => false end.

(** [value.type === tag] *)
Definition has_type (value : JValue) (tag : string) : bool :=
  match get_prop value "type" with Some (JString t) => String.eqb t tag | _ => false end.

Definition isWelcomePayload (value : JValue) : bool :=
  if negb (isObject value) then false
  else if negb (has_type value "welcome") then false
  else if negb (has_string value "message") then false
  else if negb (has_number value "updateIntervalMs") then false
  else
    match get_prop value "mapDimensions" with
    | None => false
    | Some mapDimensions =>
        if negb (isObject mapDimensions) then false
        else if negb (has_number mapDimensions "width") then false
        else if negb (has_number mapDimensions "height") then false
        else true
    end.

Definition isBroadcastPayload (value : JValue) : bool :=
  if negb (isObject value) then false
  else if negb (has_type value "state") then false
  else if negb (has_number value "timestamp") then false
  else if negb (match get_prop value "instances" with
                | Some (JArray _) => true
                | _ => false
                end) then false
  else
    match get_prop value "bracket" with
    | None => true
    | Some JNull => true
    | Some bracket => isObject bracket
    end.

Definition isSessionTokenPayload (value : JValue) : bool :=
  if negb (isObject value) then false
  else if negb (has_string value "token") then false
  else if negb (has_number value "expiresAt") then false
  else true.

Record WebSocketState := mkState {
  isConnected : bool;
  lastState : option JValue;
  welcome : option JValue;
  error : option string;
}.

(** [held?.[key] === n] for a number [n]: [false] when nothing is held or
    the property is not a number. *)
Definition held_number_is (held : option JValue) (key : string) (n : number) : bool :=
  match held with
  | Some value =>
      match get_prop value key with
      | Some (JNumber m) => number_strict_eq m n
      | _ => false
      end
  | None => false
  end.

(** [message[key]] of a validated message ([NaN] stands for a non-number). *)
Definition number_of (message : JValue) (key : string) : number :=
  match get_prop message key with Some (JNumber n) => n | _ => NaN end.

(** [ws.onmessage]: the state after the updater passed to [setState] has
    run, and what was written to the console. *)
Definition onmessage `{Platform} (data : string) (prev : WebSocketState)
  : WebSocketState * list Effect :=
  match JSON_parse data with
  | None => (prev, [Console LError "Failed to parse WebSocket message:" []])
  | Some parsed =>
      if isWelcomePayload parsed then
        if held_number_is (welcome prev) "updateIntervalMs" (number_of parsed "updateIntervalMs")
        then (prev, [])
        else (mkState (isConnected prev) (lastState prev) (Some parsed) (error prev), [])
      else if isBroadcastPayload parsed then
        if held_number_is (lastState prev) "timestamp" (number_of parsed "timestamp")
        then (prev, [])
        else (mkState (isConnected prev) (Some parsed) (welcome prev) (error prev), [])
      else (prev, [Console LWarn "Ignoring invalid WebSocket payload shape" []])
  end.

(** The state [useState] starts from. *)
Definition initial : WebSocketState := mkState false None None None.

End Client.

(* ====================================================================== *)
(** ** Further auxiliary definitions                                       *)
(* ====================================================================== *)

(** What [pingClients] does to each registered socket: terminate it when it
    has been silent for more than [idleTimeoutMs], else ping it when it is
    open (a ping that throws leaves no trace). *)
Definition ping_effects (config : ServerConfig.t) (env : Sockets) (now : Z)
    (registry : ClientMap) : list Effect :=
  flat_map (fun entry : WebSocket * ClientConnection.t =>
              if now - ClientConnection.lastPongAt (snd entry)
                 >? ServerConfig.idleTimeoutMs config
              then [Console LLog "Disconnecting idle client"
                      [IStr (ClientConnection.ip (snd entry))];
                    WsTerminate (fst entry)]
              else if ReadyState_eqb (readyState env (fst entry)) OPEN then
                     if ping_throws env (fst entry) then [] else [WsPing (fst entry)]
                   else [])
    registry.

(** [res.getHeader(name)]: the value set for [name], if any. *)
Fixpoint header_get (name : string) (hs : list (string * string)) : option string :=
  match hs with
  | [] => None
  | (n, v) :: rest => if String.eqb n name then Some v else header_get name rest
  end.

(** [s] has a comma. *)
Fixpoint has_comma (s : string) : bool :=
  match s with
  | EmptyString => false
  | String c rest => Ascii.eqb c ","%char || has_comma rest
  end.

(** A header that [getClientIp] passes over: absent, not a string, or blank. *)
Definition blank_header `{Platform} (h : HeaderValue) : bool :=
  match header_string h with
  | Some v => String.eqb (String_trim v) ""
  | None => true
  end.

(** The value of a hexadecimal digit, and the inverse of
    [Buffer_toString_hex]. *)
Definition hex_value (c : ascii) : option nat :=
  List.find (fun n => Ascii.eqb (hexDigit n) c) (seq 0 16).

Fixpoint hex_decode (s : string) : option (list Byte.byte) :=
  match s with
  | EmptyString => Some []
  | String hi (String lo rest) =>
      match hex_value hi, hex_value lo, hex_decode rest with
      | Some h, Some l, Some bytes =>
          match Byte.of_nat (16 * h + l) with
          | Some b => Some (b :: bytes)
          | None => None
          end
      | _, _, _ => None
      end
  | String _ EmptyString => None
  end.

(** Every character of [s] is one of [0-9a-f]. *)
Fixpoint all_hex (s : string) : bool :=
  match s with
  | EmptyString => true
  | String c rest =>
      match hex_value c with Some _ => all_hex rest | None => false end
  end.

(** The held snapshot is the start-up default, never yet replaced, or a
    text that reads back as a valid payload stamped [lastTimestamp]. *)
Definition snapshot_wellformed `{Platform} (start : Z) (s : ServerState) : Prop :=
  (lastState s = lastState (initialState start) /\ lastTimestamp s = Finite 0)
  \/ exists parsed,
       JSON_parse (lastState s) = Some parsed
       /\ isValidBroadcastPayload parsed = true
       /\ payload_timestamp parsed = lastTimestamp s.

Module Cases.

(** A state file whose snapshot carries a [bracket] that is a number. *)
Definition oddBracket : JValue :=
  JObject [("type", JString "state"); ("timestamp", JNumber (Finite 7));
           ("instances", JArray []); ("bracket", JNumber (Finite 3))].

(** A platform that reads back the welcome frame and the state files. *)
Definition P : Platform :=
  Ref.platform [WelcomePayload 500; Scenario.quiet; Scenario.busy; oddBracket].

(** A configuration behind a trusted proxy. *)
Definition proxied : ServerConfig.t :=
  ServerConfig.mk 8081 None [Scenario.viewer] None "state.json" 500 1 10 true 60000 None.

(** A request relayed by the proxy: no [cf-connecting-ip], a blank
    [x-real-ip], and a forwarding chain. *)
Definition relayed : IncomingMessage.t :=
  IncomingMessage.mk (Some "GET") (Some "/ws") HUndefined (HString Scenario.viewerHost)
    HUndefined (HString "   ") (HString (" 203.0.113.7 " ++ String ","%char " 10.0.0.1"))
    (Some "127.0.0.1").

(** [alice] connected on socket 1 and [mallory] on socket 2, both since
    time 1000; [alice] answered a ping at 50000. *)
Definition pair : ServerState :=
  mkState
    [(1%nat, ClientConnection.mk 1%nat Scenario.alice 1000 50000);
     (2%nat, ClientConnection.mk 2%nat Scenario.mallory 1000 1000)]
    {[Scenario.alice := 1; Scenario.mallory := 1]} ∅ "" (Finite 0).

(** Sockets where socket 1 throws on [send] and on [ping]. *)
Definition flaky : Sockets :=
  mkSockets (fun _ => OPEN) (fun ws _ => Nat.eqb ws 1) (fun ws => Nat.eqb ws 1).

(** A token request from a foreign origin that names the allowed host. *)
Definition foreign : IncomingMessage.t :=
  Ref.request "/session-token" (HString Scenario.evil) (HString Scenario.viewerHost)
    Scenario.mallory.

End Cases.

(* ====================================================================== *)
(** ** Properties: client address and origin allow-list                    *)
(* ====================================================================== *)

Section AdmissionProperties.
Context `{Platform} (config : ServerConfig.t).

(** C10. Without [trustProxy] the client address is the peer address of the
    transport, or ["unknown"] when there is none, and no request header
    enters it: requests with the same peer address get the same address,
    whatever their [cf-connecting-ip], [x-real-ip] and [x-forwarded-for]. *)
Theorem getClientIp_without_proxy (req : IncomingMessage.t) :
  ServerConfig.trustProxy config = false ->
  getClientIp config req = default "unknown" (IncomingMessage.remoteAddress req)
  /\ forall cf xr xff : HeaderValue,
       getClientIp config
         (IncomingMessage.mk (IncomingMessage.method req) (IncomingMessage.url req)
            (IncomingMessage.origin req) (IncomingMessage.host req) cf xr xff
            (IncomingMessage.remoteAddress req))
       = getClientIp config req.
Proof.
  intros Hproxy. unfold getClientIp. rewrite Hproxy. split; [reflexivity|].
  intros cf xr xff. reflexivity.
Qed.

Lemma sameSchemeHost_existsb (originUrl : URL.t) (allowed : list string) :
  sameSchemeHost originUrl allowed = existsb (matches_scheme_host originUrl) allowed.
Proof.
  induction allowed as [|a rest IH]; [reflexivity|].
  cbn [sameSchemeHost existsb]. unfold matches_scheme_host at 1.
  destruct (URL_new a) as [u|]; [|exact IH].
  destruct (String.eqb (URL.protocol u) (URL.protocol originUrl)
            && String.eqb (URL.hostname u) (URL.hostname originUrl)); [reflexivity|exact IH].
Qed.

(** C4, as amended. For every non-empty origin string [isOriginAllowed]
    follows the rule of the specification: allowed when the list is empty;
    else when the origin is a verbatim member; else, in the
    [allowSameHostDifferentPort] mode only, when its scheme and host name
    are those of some entry that parses (entries that do not parse are
    skipped); refused otherwise.  An absent or empty origin is allowed
    exactly when the list is empty.  The function is total. *)
Theorem isOriginAllowed_rule (origin : string) :
  origin <> "" ->
  isOriginAllowed config (Some origin) = isOriginAllowed_spec config origin
  /\ isOriginAllowed config None
     = match ServerConfig.allowedOrigins config with [] => true | _ => false end
  /\ isOriginAllowed config (Some "")
     = match ServerConfig.allowedOrigins config with [] => true | _ => false end.
Proof.
  intros Hne. unfold isOriginAllowed, isOriginAllowed_spec.
  destruct (ServerConfig.allowedOrigins config) as [|a rest] eqn:Hall.
  - repeat split.
  - repeat split.
    destruct origin as [|c o]; [congruence|]. cbn [truthy negb].
    destruct (existsb (String.eqb (String c o)) (a :: rest)); [reflexivity|].
    destruct (ServerConfig.allowSameHostDifferentPort config) as [[|]|]; try reflexivity.
    destruct (URL_new (String c o)) as [u|]; [|reflexivity].
    apply sameSchemeHost_existsb.
Qed.

End AdmissionProperties.


(* ====================================================================== *)
(** ** The [clients] map                                                   *)
(* ====================================================================== *)

Section ClientMapFacts.

Lemma Map_get_None_notin (k : WebSocket) (m : ClientMap) :
  Map_get k m = None -> ~ In k (List.map fst m).
Proof.
  induction m as [|[k' v'] rest IH]; cbn [Map_get List.map fst In]; [tauto|].
  destruct (Nat.eqb_spec k' k) as [->|Hne]; [discriminate|].
  intros Hrest [Heq|Hin]; [congruence | exact (IH Hrest Hin)].
Qed.

Lemma Map_set_fresh (k : WebSocket) (v : ClientConnection.t) (m : ClientMap) :
  Map_get k m = None -> Map_set k v m = (m ++ [(k, v)])%list.
Proof.
  induction m as [|[k' v'] rest IH]; cbn [Map_get Map_set app]; [reflexivity|].
  destruct (Nat.eqb k' k); [discriminate|]. intros Hrest. rewrite IH by exact Hrest. reflexivity.
Qed.

Lemma Map_set_length_ge (k : WebSocket) (v : ClientConnection.t) (m : ClientMap) :
  (length m <= length (Map_set k v m))%nat.
Proof.
  induction m as [|[k' v'] rest IH]; cbn [Map_set length]; [lia|].
  destruct (Nat.eqb k' k); cbn [length]; lia.
Qed.

Lemma connections_of_cons (ip : string) (entry : WebSocket * ClientConnection.t)
    (m : ClientMap) :
  connections_of ip (entry :: m)
  = (if String.eqb (ClientConnection.ip (snd entry)) ip then 1 else 0) + connections_of ip m.
Proof.
  unfold connections_of. cbn [List.filter].
  destruct (String.eqb (ClientConnection.ip (snd entry)) ip); cbn [length]; lia.
Qed.

Lemma connections_of_app (ip : string) (m1 m2 : ClientMap) :
  connections_of ip (m1 ++ m2)%list = connections_of ip m1 + connections_of ip m2.
Proof.
  unfold connections_of. rewrite List.filter_app, List.length_app. lia.
Qed.

Lemma connections_of_nonneg (ip : string) (m : ClientMap) : 0 <= connections_of ip m.
Proof. unfold connections_of. lia. Qed.

Lemma Map_set_present (k : WebSocket) (v c : ClientConnection.t) (m : ClientMap) :
  Map_get k m = Some c ->
  ClientConnection.ip v = ClientConnection.ip c ->
  length (Map_set k v m) = length m
  /\ List.map fst (Map_set k v m) = List.map fst m
  /\ forall ip, connections_of ip (Map_set k v m) = connections_of ip m.
Proof.
  intros Hget Hip. induction m as [|[k' v'] rest IH]; [discriminate|].
  cbn [Map_get Map_set] in *. destruct (Nat.eqb k' k).
  - injection Hget as ->. repeat split. intros ip.
    rewrite !connections_of_cons. cbn [snd]. rewrite Hip. reflexivity.
  - destruct (IH Hget) as (Hlen & Hkeys & Hcount). cbn [length List.map fst].
    repeat split; [congruence | congruence |].
    intros ip. rewrite !connections_of_cons, Hcount. reflexivity.
Qed.

Lemma Map_delete_absent (k : WebSocket) (m : ClientMap) :
  ~ In k (List.map fst m) -> Map_delete k m = m.
Proof.
  induction m as [|[k' v'] rest IH]; cbn [Map_delete List.map fst In]; [reflexivity|].
  intros Hnot. destruct (Nat.eqb_spec k' k) as [->|Hne]; [tauto|].
  rewrite IH by tauto. reflexivity.
Qed.

Lemma Map_delete_keys (k : WebSocket) (m : ClientMap) (x : WebSocket) :
  In x (List.map fst (Map_delete k m)) -> In x (List.map fst m).
Proof.
  induction m as [|[k' v'] rest IH]; cbn [Map_delete List.map fst In]; [tauto|].
  destruct (Nat.eqb k' k); cbn [List.map fst In]; tauto.
Qed.

Lemma Map_delete_present (k : WebSocket) (c : ClientConnection.t) (m : ClientMap) :
  NoDup (List.map fst m) ->
  Map_get k m = Some c ->
  Map_size (Map_delete k m) = Map_size m - 1
  /\ NoDup (List.map fst (Map_delete k m))
  /\ forall ip,
       connections_of ip (Map_delete k m)
       = connections_of ip m - (if String.eqb (ClientConnection.ip c) ip then 1 else 0).
Proof.
  unfold Map_size. intros Hnd Hget. induction m as [|[k' v'] rest IH]; [discriminate|].
  cbn [Map_get Map_delete List.map fst] in *.
  apply NoDup_cons in Hnd as [Hnotin Hnd']. rewrite list_elem_of_In in Hnotin.
  destruct (Nat.eqb_spec k' k) as [->|Hne].
  - injection Hget as ->. rewrite Map_delete_absent by exact Hnotin.
    repeat split; [cbn [length]; lia | exact Hnd' |].
    intros ip. rewrite connections_of_cons. cbn [snd]. lia.
  - destruct (IH Hnd' Hget) as (Hlen & Hnd'' & Hcount). cbn [length List.map fst].
    repeat split; [lia | |].
    + apply NoDup_cons. split; [|exact Hnd'']. rewrite list_elem_of_In.
      intros Hin. apply Hnotin. eapply Map_delete_keys, Hin.
    + intros ip. rewrite !connections_of_cons, Hcount. lia.
Qed.

Lemma connections_of_member (k : WebSocket) (c : ClientConnection.t) (m : ClientMap) :
  Map_get k m = Some c -> 1 <= connections_of (ClientConnection.ip c) m.
Proof.
  induction m as [|[k' v'] rest IH]; [discriminate|]. cbn [Map_get].
  rewrite connections_of_cons. cbn [snd]. destruct (Nat.eqb k' k).
  - intros [= ->]. rewrite String.eqb_refl. pose proof (connections_of_nonneg (ClientConnection.ip c) rest). lia.
  - intros Hget. specialize (IH Hget).
    destruct (String.eqb (ClientConnection.ip v') (ClientConnection.ip c)); lia.
Qed.

End ClientMapFacts.

(* ====================================================================== *)
(** ** Properties: session tokens                                          *)
(* ====================================================================== *)

Section TokenProperties.
Context `{Platform} (config : ServerConfig.t).

Lemma with_sessionTokens_same (s : ServerState) :
  with_sessionTokens (fun _ => sessionTokens s) s = s.
Proof. destruct s; reflexivity. Qed.

Lemma Buffer_toString_hex_truthy (entropy : list Byte.byte) :
  length entropy = 24%nat -> truthy (Buffer_toString_hex entropy) = true.
Proof. destruct entropy; [discriminate | reflexivity]. Qed.

Lemma sessionTokenTtlMs_floor : 5000 <= sessionTokenTtlMs config.
Proof. unfold sessionTokenTtlMs. lia. Qed.

(** The token stage computes the specification's [validate]. *)
Lemma checkSessionToken_validate (s : ServerState) (sessionToken originHeader : option string)
    (hostHeader requestPath ip : string) (now : Z) :
  let r := checkSessionToken sessionToken originHeader hostHeader requestPath ip now s in
  let v := validate_spec (sessionTokens s) sessionToken ip originHeader now in
  completion_of r = Normal (verdict_of (fst v))
  /\ state_of r = with_sessionTokens (fun _ => snd v) s.
Proof.
  unfold checkSessionToken, validate_spec.
  destruct sessionToken as [[|c tok]|]; cbn [truthy_opt truthy negb from_option id];
    try (split; [reflexivity | symmetry; apply with_sessionTokens_same]).
  unfold bind, get.
  destruct (sessionTokens s !! String c tok) as [bound|] eqn:Hlook;
    [| split; [reflexivity | symmetry; apply with_sessionTokens_same]].
  destruct (SessionTokenState.expiresAt bound <=? now)%Z; [split; reflexivity|].
  destruct (String.eqb (SessionTokenState.ip bound) ip); cbn [negb];
    [| split; reflexivity].
  destruct (SessionTokenState.origin bound) as [|bc bo] eqn:Hbo; cbn [truthy andb];
    [split; [reflexivity | symmetry; apply with_sessionTokens_same]|].
  destruct originHeader as [[|oc oo]|]; cbn [truthy_opt truthy andb from_option id];
    try (split; [reflexivity | symmetry; apply with_sessionTokens_same]).
  destruct (String.eqb (String bc bo) (String oc oo)); cbn [negb];
    [split; [reflexivity | symmetry; apply with_sessionTokens_same] | split; reflexivity].
Qed.


Lemma checkSessionToken_accepts (s : ServerState) (tok : string) (bound : SessionTokenState.t)
    (originHeader : option string) (hostHeader requestPath ip : string) (now : Z) :
  tok <> "" ->
  sessionTokens s !! tok = Some bound ->
  now < SessionTokenState.expiresAt bound ->
  SessionTokenState.ip bound = ip ->
  SessionTokenState.origin bound = "" \/ truthy_opt originHeader = false
    \/ originHeader = Some (SessionTokenState.origin bound) ->
  checkSessionToken (Some tok) originHeader hostHeader requestPath ip now s
  = (Normal Proceed, s, []).
Proof.
  intros Hne Hlook Hlive Hip Horigin. unfold checkSessionToken.
  destruct tok as [|c tok]; [congruence|]. cbn [truthy_opt truthy negb from_option id].
  unfold bind, get. rewrite Hlook.
  destruct (Z.leb_spec (SessionTokenState.expiresAt bound) now) as [Hle|_]; [lia|].
  rewrite Hip, String.eqb_refl. cbn [negb].
  destruct Horigin as [Hb | [Ho | Ho]].
  - rewrite Hb. reflexivity.
  - rewrite Ho, andb_false_r. reflexivity.
  - rewrite Ho. cbn [from_option id]. rewrite String.eqb_refl, andb_false_r. reflexivity.
Qed.

Lemma checkSessionToken_expired (s : ServerState) (tok : string) (bound : SessionTokenState.t)
    (originHeader : option string) (hostHeader requestPath ip : string) (now : Z) :
  tok <> "" ->
  sessionTokens s !! tok = Some bound ->
  SessionTokenState.expiresAt bound <= now ->
  checkSessionToken (Some tok) originHeader hostHeader requestPath ip now s
  = (Normal (Reject 401 "Session token expired"),
     with_sessionTokens (delete tok) s,
     [Console LWarn "Rejected websocket (expired token)"
        [IStr hostHeader; IStr requestPath; IStr ip]]).
Proof.
  intros Hne Hlook Hdead. unfold checkSessionToken.
  destruct tok as [|c tok]; [congruence|]. cbn [truthy_opt truthy negb from_option id].
  unfold bind, get. rewrite Hlook.
  destruct (Z.leb_spec (SessionTokenState.expiresAt bound) now) as [_|Hlt]; [|lia].
  reflexivity.
Qed.

Lemma checkSessionToken_unknown (s : ServerState) (tok : string)
    (originHeader : option string) (hostHeader requestPath ip : string) (now : Z) :
  tok <> "" ->
  sessionTokens s !! tok = None ->
  checkSessionToken (Some tok) originHeader hostHeader requestPath ip now s
  = (Normal (Reject 401 "Invalid session token"), s,
     [Console LWarn "Rejected websocket (invalid token)"
        [IStr hostHeader; IStr requestPath; IStr ip]]).
Proof.
  intros Hne Hlook. unfold checkSessionToken.
  destruct tok as [|c tok]; [congruence|]. cbn [truthy_opt truthy negb from_option id].
  unfold bind, get. rewrite Hlook. reflexivity.
Qed.

Lemma checkSessionToken_ip_mismatch (s : ServerState) (tok : string) (bound : SessionTokenState.t)
    (originHeader : option string) (hostHeader requestPath ip : string) (now : Z) :
  tok <> "" ->
  sessionTokens s !! tok = Some bound ->
  now < SessionTokenState.expiresAt bound ->
  SessionTokenState.ip bound <> ip ->
  checkSessionToken (Some tok) originHeader hostHeader requestPath ip now s
  = (Normal (Reject 401 "Session token mismatch"),
     with_sessionTokens (delete tok) s,
     [Console LWarn "Rejected websocket (ip mismatch)"
        [IStr hostHeader; IStr requestPath; IStr (SessionTokenState.ip bound); IStr ip]]).
Proof.
  intros Hne Hlook Hlive Hip. unfold checkSessionToken.
  destruct tok as [|c tok]; [congruence|]. cbn [truthy_opt truthy negb from_option id].
  unfold bind, get. rewrite Hlook.
  destruct (Z.leb_spec (SessionTokenState.expiresAt bound) now) as [Hle|_]; [lia|].
  apply String.eqb_neq in Hip. rewrite Hip. reflexivity.
Qed.

Lemma checkSessionToken_origin_mismatch (s : ServerState) (tok : string)
    (bound : SessionTokenState.t) (origin hostHeader requestPath ip : string) (now : Z) :
  tok <> "" ->
  sessionTokens s !! tok = Some bound ->
  now < SessionTokenState.expiresAt bound ->
  SessionTokenState.ip bound = ip ->
  SessionTokenState.origin bound <> "" ->
  origin <> "" ->
  SessionTokenState.origin bound <> origin ->
  checkSessionToken (Some tok) (Some origin) hostHeader requestPath ip now s
  = (Normal (Reject 401 "Session token origin mismatch"),
     with_sessionTokens (delete tok) s,
     [Console LWarn "Rejected websocket (origin mismatch)"
        [IStr hostHeader; IStr requestPath; IStr (SessionTokenState.origin bound);
         IStr origin]]).
Proof.
  intros Hne Hlook Hlive Hip Hb Ho Hdiff. unfold checkSessionToken.
  destruct tok as [|c tok]; [congruence|]. cbn [truthy_opt truthy negb from_option id].
  unfold bind, get. rewrite Hlook.
  destruct (Z.leb_spec (SessionTokenState.expiresAt bound) now) as [Hle|_]; [lia|].
  rewrite Hip, String.eqb_refl. cbn [negb].
  apply String.eqb_neq in Hdiff. rewrite Hdiff.
  destruct (SessionTokenState.origin bound) as [|bc bo]; [congruence|].
  destruct origin as [|oc oo]; [congruence|]. reflexivity.
Qed.

Lemma checkSessionToken_missing (s : ServerState) (sessionToken originHeader : option string)
    (hostHeader requestPath ip : string) (now : Z) :
  truthy_opt sessionToken = false ->
  checkSessionToken sessionToken originHeader hostHeader requestPath ip now s
  = (Normal (Reject 401 "Missing session token"), s,
     [Console LWarn "Rejected websocket (missing token)"
        [IStr hostHeader; IStr requestPath; IStr ip]]).
Proof. intros Hm. unfold checkSessionToken. rewrite Hm. reflexivity. Qed.

Lemma lookup_after_delete (s : ServerState) (tok : string) :
  sessionTokens (with_sessionTokens (delete tok) s) !! tok = None.
Proof. destruct s; cbn [with_sessionTokens sessionTokens]. apply lookup_delete_eq. Qed.

(** C2. The token stage of the handshake tests, in this order: a missing
    (absent or empty) token value; a value the store does not hold
    (invalid); an entry with [expiresAt <= now] (expired, entry removed); a
    bound address other than the request's (mismatch, entry removed); a
    non-empty bound origin and a non-empty request origin that differ
    (origin mismatch, entry removed).  Otherwise it proceeds and leaves the
    store as it is; in particular an entry whose bound origin is empty
    passes with any request origin.  After an address mismatch the same
    value, whatever the address, origin and time of the next attempt, is
    invalid. *)
Theorem checkSessionToken_order (s : ServerState) (sessionToken originHeader : option string)
    (hostHeader requestPath ip : string) (now : Z) :
  let r := checkSessionToken sessionToken originHeader hostHeader requestPath ip now s in
  (truthy_opt sessionToken = false ->
     completion_of r = Normal (Reject 401 "Missing session token") /\ state_of r = s)
  /\ (forall tok, sessionToken = Some tok -> tok <> "" ->
        (sessionTokens s !! tok = None ->
           completion_of r = Normal (Reject 401 "Invalid session token") /\ state_of r = s)
        /\ (forall bound, sessionTokens s !! tok = Some bound ->
              (SessionTokenState.expiresAt bound <= now ->
                 completion_of r = Normal (Reject 401 "Session token expired")
                 /\ state_of r = with_sessionTokens (delete tok) s)
              /\ (now < SessionTokenState.expiresAt bound ->
                    SessionTokenState.ip bound <> ip ->
                    completion_of r = Normal (Reject 401 "Session token mismatch")
                    /\ state_of r = with_sessionTokens (delete tok) s
                    /\ forall (originHeader' : option string)
                          (hostHeader' requestPath' ip' : string) (now' : Z),
                         completion_of
                           (checkSessionToken (Some tok) originHeader' hostHeader'
                              requestPath' ip' now' (state_of r))
                         = Normal (Reject 401 "Invalid session token"))
              /\ (now < SessionTokenState.expiresAt bound ->
                    SessionTokenState.ip bound = ip ->
                    forall origin, originHeader = Some origin ->
                    SessionTokenState.origin bound <> "" -> origin <> "" ->
                    SessionTokenState.origin bound <> origin ->
                    completion_of r = Normal (Reject 401 "Session token origin mismatch")
                    /\ state_of r = with_sessionTokens (delete tok) s)
              /\ (now < SessionTokenState.expiresAt bound ->
                    SessionTokenState.ip bound = ip ->
                    SessionTokenState.origin bound = "" \/ truthy_opt originHeader = false
                      \/ originHeader = Some (SessionTokenState.origin bound) ->
                    completion_of r = Normal Proceed /\ state_of r = s))).
Proof.
  intros r. subst r. split.
  - intros Hm. rewrite checkSessionToken_missing by exact Hm. split; reflexivity.
  - intros tok -> Hne. split.
    + intros Hlook. rewrite checkSessionToken_unknown by assumption. split; reflexivity.
    + intros bound Hlook. split; [|split; [|split]].
      * intros Hdead.
        rewrite (checkSessionToken_expired _ _ bound) by assumption. split; reflexivity.
      * intros Hlive Hip.
        rewrite (checkSessionToken_ip_mismatch _ _ bound) by assumption.
        split; [reflexivity | split; [reflexivity|]].
        intros o' h' p' ip' now'. unfold state_of. cbn [fst snd].
        rewrite checkSessionToken_unknown; [reflexivity | exact Hne | apply lookup_after_delete].
      * intros Hlive Hip origin -> Hb Ho Hdiff.
        rewrite (checkSessionToken_origin_mismatch _ _ bound) by assumption.
        split; reflexivity.
      * intros Hlive Hip Horigin.
        rewrite (checkSessionToken_accepts _ _ bound) by assumption. split; reflexivity.
Qed.


(** What issuance does to the state: insert, then sweep at the same clock. *)
Lemma issueSessionToken_run (s : ServerState) (req : IncomingMessage.t)
    (originHeader : option string) (entropy : list Byte.byte) (now : Z) :
  issueSessionToken config req originHeader entropy now s
  = (Normal (Buffer_toString_hex entropy, now + sessionTokenTtlMs config),
     with_sessionTokens
       (fun tokens =>
          filter (fun kv : string * SessionTokenState.t =>
                    ~ (SessionTokenState.expiresAt kv.2 <= now))
            (<[Buffer_toString_hex entropy :=
                 SessionTokenState.mk (getClientIp config req) (default "" originHeader)
                   (now + sessionTokenTtlMs config)]> tokens))
       s,
     []).
Proof. destruct s. reflexivity. Qed.

Lemma issueSessionToken_lookup_new (s : ServerState) (req : IncomingMessage.t)
    (originHeader : option string) (entropy : list Byte.byte) (now : Z) :
  sessionTokens (state_of (issueSessionToken config req originHeader entropy now s))
    !! Buffer_toString_hex entropy
  = Some (SessionTokenState.mk (getClientIp config req) (default "" originHeader)
            (now + sessionTokenTtlMs config)).
Proof.
  rewrite issueSessionToken_run. unfold state_of. cbn [fst snd].
  destruct s; cbn [with_sessionTokens sessionTokens].
  apply map_lookup_filter_Some. split; [apply lookup_insert_eq|].
  cbn [snd SessionTokenState.expiresAt]. pose proof sessionTokenTtlMs_floor. lia.
Qed.

Lemma issueSessionToken_lookup_other (s : ServerState) (req : IncomingMessage.t)
    (originHeader : option string) (entropy : list Byte.byte) (now : Z) (k : string) :
  k <> Buffer_toString_hex entropy ->
  sessionTokens (state_of (issueSessionToken config req originHeader entropy now s)) !! k
  = match sessionTokens s !! k with
    | Some bound => if SessionTokenState.expiresAt bound <=? now then None else Some bound
    | None => None
    end.
Proof.
  intros Hk. rewrite issueSessionToken_run. unfold state_of. cbn [fst snd].
  destruct s as [cl cnt tokens ls lt]; cbn [with_sessionTokens sessionTokens].
  rewrite map_lookup_filter, lookup_insert_ne by congruence.
  destruct (tokens !! k) as [bound|]; [|reflexivity]. cbn.
  destruct (Z.leb_spec (SessionTokenState.expiresAt bound) now) as [Hle|Hlt].
  - rewrite option_guard_False; [reflexivity | cbn; lia].
  - rewrite option_guard_True; [reflexivity | cbn; lia].
Qed.

Lemma sweep_keeps_live (s : ServerState) (tok : string) (bound : SessionTokenState.t)
    (t : Z) :
  sessionTokens s !! tok = Some bound ->
  t < SessionTokenState.expiresAt bound ->
  sessionTokens (state_of (cleanExpiredSessionTokens t s)) !! tok = Some bound.
Proof.
  intros Hheld Hlive. unfold cleanExpiredSessionTokens, modify, state_of.
  destruct s as [cl cnt tokens ls lt]. cbn [fst snd with_sessionTokens sessionTokens] in *.
  apply map_lookup_filter_Some. split; [exact Hheld | cbn; lia].
Qed.

(** C1. A token issued at [now] for the address of [req] and the origin
    [originHeader] is stored with [expiresAt = now + sessionTokenTtlMs].
    While the store holds that entry, the token stage with the same address
    and origin proceeds at every time before [expiresAt], leaving the store
    as it is, and from [expiresAt] on it answers [Session token expired]
    and removes the entry.  An entry past its [expiresAt] never validates,
    for any address and origin, and the attempt leaves the store as an
    attempt on a store without the entry does.  A sweep before [expiresAt]
    keeps the entry. *)
Theorem issued_token_validates_until_expiry (s : ServerState) (req : IncomingMessage.t)
    (originHeader : option string) (entropy : list Byte.byte) (now : Z) :
  length entropy = 24%nat ->
  let r := issueSessionToken config req originHeader entropy now s in
  let token := Buffer_toString_hex entropy in
  let expiresAt := now + sessionTokenTtlMs config in
  let ip := getClientIp config req in
  let issued := SessionTokenState.mk ip (default "" originHeader) expiresAt in
  completion_of r = Normal (token, expiresAt)
  /\ sessionTokens (state_of r) !! token = Some issued
  /\ (forall (s' : ServerState) (hostHeader requestPath : string) (t : Z),
        sessionTokens s' !! token = Some issued ->
        (t < expiresAt ->
           checkSessionToken (Some token) originHeader hostHeader requestPath ip t s'
           = (Normal Proceed, s', []))
        /\ (expiresAt <= t ->
              let v := checkSessionToken (Some token) originHeader hostHeader requestPath ip t s' in
              completion_of v = Normal (Reject 401 "Session token expired")
              /\ state_of v = with_sessionTokens (delete token) s'))
  /\ (forall (s' : ServerState) (tok : string) (bound : SessionTokenState.t)
         (origin' : option string) (hostHeader requestPath ip' : string) (t : Z),
        tok <> "" ->
        sessionTokens s' !! tok = Some bound ->
        SessionTokenState.expiresAt bound <= t ->
        let v := checkSessionToken (Some tok) origin' hostHeader requestPath ip' t s' in
        let absent :=
          checkSessionToken (Some tok) origin' hostHeader requestPath ip' t
            (with_sessionTokens (delete tok) s') in
        completion_of v = Normal (Reject 401 "Session token expired")
        /\ completion_of absent = Normal (Reject 401 "Invalid session token")
        /\ state_of v = state_of absent
        /\ sessionTokens (state_of v) !! tok = None)
  /\ (forall (s' : ServerState) (t : Z),
        sessionTokens s' !! token = Some issued ->
        t < expiresAt ->
        sessionTokens (state_of (cleanExpiredSessionTokens t s')) !! token = Some issued).
Proof.
  intros Hlen r token expiresAt ip issued.
  assert (Htok : token <> "").
  { intros Heq. apply Buffer_toString_hex_truthy in Hlen. fold token in Hlen.
    rewrite Heq in Hlen. discriminate. }
  split; [| split; [| split; [| split]]].
  - subst r. rewrite issueSessionToken_run. reflexivity.
  - apply issueSessionToken_lookup_new.
  - intros s' hostHeader requestPath t Hheld. split.
    + intros Hlive. apply (checkSessionToken_accepts _ _ issued); try assumption; try reflexivity.
      subst issued. cbn [SessionTokenState.origin].
      destruct originHeader as [o|]; [right; right; reflexivity | left; reflexivity].
    + intros Hdead v. subst v.
      rewrite (checkSessionToken_expired _ _ issued) by assumption. split; reflexivity.
  - intros s' tok bound origin' hostHeader requestPath ip' t Hne Hheld Hdead v absent.
    subst v absent.
    rewrite (checkSessionToken_expired _ _ bound) by assumption.
    rewrite checkSessionToken_unknown by (try assumption; apply lookup_after_delete).
    unfold completion_of, state_of. cbn [fst snd].
    repeat split. apply lookup_after_delete.
  - intros s' t Hheld Hlive. apply sweep_keeps_live; [exact Hheld | exact Hlive].
Qed.

(** C7, as amended. Issuance always completes, with the token and
    [expiresAt = now + max(5000, sessionTokenTtlMs)] (30000 when the option
    is not configured); it logs nothing and changes only the token store,
    where it inserts the new entry and removes the entries already expired
    at [now]: any other entry is kept exactly when its [expiresAt] is after
    [now].  With [sessionTokenTtlMs = 2000] a token issued at 0 validates at
    4000 and is expired at 5001. *)
Theorem issueSessionToken_effect (s : ServerState) (req : IncomingMessage.t)
    (originHeader : option string) (entropy : list Byte.byte) (now : Z) :
  let r := issueSessionToken config req originHeader entropy now s in
  let token := Buffer_toString_hex entropy in
  let expiresAt := now + Z.max 5000 (default 30000 (ServerConfig.sessionTokenTtlMs config)) in
  let issued := SessionTokenState.mk (getClientIp config req) (default "" originHeader) expiresAt in
  completion_of r = Normal (token, expiresAt)
  /\ effects_of r = []
  /\ clients (state_of r) = clients s
  /\ ipConnectionCounts (state_of r) = ipConnectionCounts s
  /\ lastState (state_of r) = lastState s
  /\ lastTimestamp (state_of r) = lastTimestamp s
  /\ sessionTokens (state_of r) !! token = Some issued
  /\ (forall k, k <> token ->
        sessionTokens (state_of r) !! k
        = match sessionTokens s !! k with
          | Some bound => if SessionTokenState.expiresAt bound <=? now then None else Some bound
          | None => None
          end)
  /\ (ServerConfig.sessionTokenTtlMs config = Some 2000 -> now = 0 ->
      length entropy = 24%nat ->
      forall hostHeader requestPath : string,
        completion_of
          (checkSessionToken (Some token) originHeader hostHeader requestPath
             (getClientIp config req) 4000 (state_of r))
        = Normal Proceed
        /\ completion_of
             (checkSessionToken (Some token) originHeader hostHeader requestPath
                (getClientIp config req) 5001 (state_of r))
           = Normal (Reject 401 "Session token expired")).
Proof.
  intros r token expiresAt issued.
  repeat match goal with |- _ /\ _ => split end.
  - subst r. rewrite issueSessionToken_run. reflexivity.
  - subst r. rewrite issueSessionToken_run. reflexivity.
  - subst r. rewrite issueSessionToken_run. destruct s; reflexivity.
  - subst r. rewrite issueSessionToken_run. destruct s; reflexivity.
  - subst r. rewrite issueSessionToken_run. destruct s; reflexivity.
  - subst r. rewrite issueSessionToken_run. destruct s; reflexivity.
  - apply issueSessionToken_lookup_new.
  - intros k Hk. apply issueSessionToken_lookup_other. exact Hk.
  - intros Httl Hnow Hlen hostHeader requestPath.
    assert (Htok : token <> "").
    { intros Heq. apply Buffer_toString_hex_truthy in Hlen. fold token in Hlen.
      rewrite Heq in Hlen. discriminate. }
    pose proof (issueSessionToken_lookup_new s req originHeader entropy now) as Hheld.
    fold r token in Hheld.
    assert (Hexp : now + sessionTokenTtlMs config = 5000).
    { unfold sessionTokenTtlMs. rewrite Httl, Hnow. reflexivity. }
    rewrite Hexp in Hheld. split.
    + rewrite (checkSessionToken_accepts _ _ _ _ _ _ _ _ Htok Hheld);
        [reflexivity | cbn; lia | reflexivity |].
      cbn [SessionTokenState.origin].
      destruct originHeader as [o|]; [right; right; reflexivity | left; reflexivity].
    + rewrite (checkSessionToken_expired _ _ _ _ _ _ _ _ Htok Hheld); [reflexivity | cbn; lia].
Qed.

End TokenProperties.

(* ====================================================================== *)
(** ** Properties: the upgrade handshake                                   *)
(* ====================================================================== *)

Section UpgradeProperties.
Context `{Platform} (config : ServerConfig.t).

Lemma and_then_run (check next : M Verdict) (s : ServerState) :
  and_then check next s
  = match check s with
    | (Normal Proceed, s1, e1) =>
        match next s1 with (c, s2, e2) => (c, s2, (e1 ++ e2)%list) end
    | (Normal (Reject status message), s1, e1) =>
        (Normal (Reject status message), s1, (e1 ++ [])%list)
    | (Throw, s1, e1) => (Throw, s1, e1)
    end.
Proof.
  unfold and_then, bind. destruct (check s) as [[[[|status message]|] s1] e1]; reflexivity.
Qed.

Lemma checkOrigin_refused (originHeader : option string) (hostHeader requestPath ip : string)
    (s : ServerState) :
  isOriginAllowed config originHeader = false ->
  checkOrigin config originHeader hostHeader requestPath ip s
  = (Normal (Reject 403 "Origin not allowed"), s,
     [Console LWarn "Rejected websocket origin"
        [IStr (default "none" originHeader); IStr hostHeader; IStr requestPath; IStr ip]]).
Proof. intros Hno. unfold checkOrigin. rewrite Hno. reflexivity. Qed.

Lemma checkOrigin_allowed (originHeader : option string) (hostHeader requestPath ip : string)
    (s : ServerState) :
  isOriginAllowed config originHeader = true ->
  checkOrigin config originHeader hostHeader requestPath ip s = (Normal Proceed, s, []).
Proof. intros Hyes. unfold checkOrigin. rewrite Hyes. reflexivity. Qed.

Lemma checkCapacity_global (hostHeader requestPath ip : string) (s : ServerState) :
  ServerConfig.maxTotalConnections config <= Map_size (clients s) ->
  checkCapacity config hostHeader requestPath ip s
  = (Normal (Reject 503 "Server at capacity"), s,
     [Console LWarn "Rejected websocket (capacity)"
        [IStr hostHeader; IStr requestPath; IStr ip;
         INum (Map_size (clients s)); INum (ServerConfig.maxTotalConnections config)]]).
Proof.
  intros Hfull. unfold checkCapacity, bind, get.
  destruct (Z.geb_spec (Map_size (clients s)) (ServerConfig.maxTotalConnections config));
    [reflexivity | lia].
Qed.

Lemma checkCapacity_per_ip (hostHeader requestPath ip : string) (s : ServerState) :
  Map_size (clients s) < ServerConfig.maxTotalConnections config ->
  ServerConfig.maxConnectionsPerIp config <= default 0 (ipConnectionCounts s !! ip) ->
  checkCapacity config hostHeader requestPath ip s
  = (Normal (Reject 429 "Too many connections"), s,
     [Console LWarn "Rejected websocket (ip limit)"
        [IStr hostHeader; IStr requestPath; IStr ip;
         INum (default 0 (ipConnectionCounts s !! ip));
         INum (ServerConfig.maxConnectionsPerIp config)]]).
Proof.
  intros Hroom Hip. unfold checkCapacity, bind, get.
  destruct (Z.geb_spec (Map_size (clients s)) (ServerConfig.maxTotalConnections config));
    [lia|].
  destruct (Z.geb_spec (default 0 (ipConnectionCounts s !! ip))
              (ServerConfig.maxConnectionsPerIp config)); [reflexivity | lia].
Qed.

Lemma checkCapacity_room (hostHeader requestPath ip : string) (s : ServerState) :
  Map_size (clients s) < ServerConfig.maxTotalConnections config ->
  default 0 (ipConnectionCounts s !! ip) < ServerConfig.maxConnectionsPerIp config ->
  checkCapacity config hostHeader requestPath ip s = (Normal Proceed, s, []).
Proof.
  intros Hroom Hip. unfold checkCapacity, bind, get.
  destruct (Z.geb_spec (Map_size (clients s)) (ServerConfig.maxTotalConnections config));
    [lia|].
  destruct (Z.geb_spec (default 0 (ipConnectionCounts s !! ip))
              (ServerConfig.maxConnectionsPerIp config)); [lia | reflexivity].
Qed.

Lemma checkUpgrade_origin_refused (req : IncomingMessage.t) (now : Z) (s : ServerState) :
  isOriginAllowed config (header_string (IncomingMessage.origin req)) = false ->
  checkUpgrade config req now s
  = (Normal (Reject 403 "Origin not allowed"), s,
     [Console LWarn "Rejected websocket origin"
        [IStr (default "none" (header_string (IncomingMessage.origin req)));
         IStr (default "unknown" (header_string (IncomingMessage.host req)));
         IStr (default "/" (IncomingMessage.url req));
         IStr (getClientIp config req)]]).
Proof.
  intros Hno. unfold checkUpgrade. rewrite and_then_run, checkOrigin_refused by exact Hno.
  reflexivity.
Qed.

Lemma checkUpgrade_at_capacity (req : IncomingMessage.t) (now : Z) (s : ServerState) :
  isOriginAllowed config (header_string (IncomingMessage.origin req)) = true ->
  ServerConfig.maxTotalConnections config <= Map_size (clients s) ->
  checkUpgrade config req now s
  = (Normal (Reject 503 "Server at capacity"), s,
     [Console LWarn "Rejected websocket (capacity)"
        [IStr (default "unknown" (header_string (IncomingMessage.host req)));
         IStr (default "/" (IncomingMessage.url req));
         IStr (getClientIp config req);
         INum (Map_size (clients s)); INum (ServerConfig.maxTotalConnections config)]]).
Proof.
  intros Hyes Hfull. unfold checkUpgrade.
  rewrite and_then_run, checkOrigin_allowed by exact Hyes.
  rewrite and_then_run, checkCapacity_global by exact Hfull. reflexivity.
Qed.

Lemma checkUpgrade_ip_limit (req : IncomingMessage.t) (now : Z) (s : ServerState) :
  isOriginAllowed config (header_string (IncomingMessage.origin req)) = true ->
  Map_size (clients s) < ServerConfig.maxTotalConnections config ->
  ServerConfig.maxConnectionsPerIp config
    <= default 0 (ipConnectionCounts s !! getClientIp config req) ->
  checkUpgrade config req now s
  = (Normal (Reject 429 "Too many connections"), s,
     [Console LWarn "Rejected websocket (ip limit)"
        [IStr (default "unknown" (header_string (IncomingMessage.host req)));
         IStr (default "/" (IncomingMessage.url req));
         IStr (getClientIp config req);
         INum (default 0 (ipConnectionCounts s !! getClientIp config req));
         INum (ServerConfig.maxConnectionsPerIp config)]]).
Proof.
  intros Hyes Hroom Hip. unfold checkUpgrade.
  rewrite and_then_run, checkOrigin_allowed by exact Hyes.
  rewrite and_then_run, checkCapacity_per_ip by assumption. reflexivity.
Qed.

Lemma checkUpgrade_within_quotas (req : IncomingMessage.t) (now : Z) (s : ServerState) :
  isOriginAllowed config (header_string (IncomingMessage.origin req)) = true ->
  Map_size (clients s) < ServerConfig.maxTotalConnections config ->
  default 0 (ipConnectionCounts s !! getClientIp config req)
    < ServerConfig.maxConnectionsPerIp config ->
  checkUpgrade config req now s = afterAdmission config req now s.
Proof.
  intros Hyes Hroom Hip. unfold checkUpgrade.
  rewrite and_then_run, checkOrigin_allowed by exact Hyes.
  rewrite and_then_run, checkCapacity_room by assumption.
  fold (afterAdmission config req now).
  destruct (afterAdmission config req now s) as [[c s2] e2]. reflexivity.
Qed.

End UpgradeProperties.

(* ====================================================================== *)
(** ** Frame lemmas: what each handler leaves alone                        *)
(* ====================================================================== *)

Section Frames.
Context `{Platform} (config : ServerConfig.t).

Lemma validate_spec_accepted (tokens : gmap string SessionTokenState.t)
    (tokenValue : option string) (ip : string) (origin : option string) (now : Z) :
  verdict_of (fst (validate_spec tokens tokenValue ip origin now)) = Proceed ->
  snd (validate_spec tokens tokenValue ip origin now) = tokens.
Proof.
  unfold validate_spec.
  destruct tokenValue as [[|c tok]|]; try discriminate.
  destruct (tokens !! String c tok) as [bound|]; try discriminate.
  destruct (SessionTokenState.expiresAt bound <=? now); try discriminate.
  destruct (negb (String.eqb (SessionTokenState.ip bound) ip)); try discriminate.
  destruct (SessionTokenState.origin bound) as [|bc bo]; [reflexivity|].
  destruct origin as [[|oc oo]|]; try reflexivity.
  destruct (String.eqb (String bc bo) (String oc oo)); [reflexivity | discriminate].
Qed.

(** The handshake checks touch nothing but the token store, and nothing at
    all when they let the request through. *)
Lemma checkUpgrade_frame (req : IncomingMessage.t) (now : Z) (s : ServerState) :
  exists tokens',
    state_of (checkUpgrade config req now s) = with_sessionTokens (fun _ => tokens') s
    /\ (completion_of (checkUpgrade config req now s) = Normal Proceed ->
        tokens' = sessionTokens s).
Proof.
  destruct (isOriginAllowed config (header_string (IncomingMessage.origin req))) eqn:Ho.
  2:{ rewrite checkUpgrade_origin_refused by exact Ho. exists (sessionTokens s).
      split; [symmetry; apply with_sessionTokens_same | reflexivity]. }
  destruct (Z_le_gt_dec (ServerConfig.maxTotalConnections config) (Map_size (clients s)))
    as [Hfull|Hroom].
  { rewrite checkUpgrade_at_capacity by assumption. exists (sessionTokens s).
    split; [symmetry; apply with_sessionTokens_same | reflexivity]. }
  destruct (Z_le_gt_dec (ServerConfig.maxConnectionsPerIp config)
              (default 0 (ipConnectionCounts s !! getClientIp config req))) as [Hip|Hip].
  { rewrite checkUpgrade_ip_limit by (try assumption; lia). exists (sessionTokens s).
    split; [symmetry; apply with_sessionTokens_same | reflexivity]. }
  rewrite checkUpgrade_within_quotas by (try assumption; lia).
  unfold afterAdmission.
  destruct (URL_new_base _ _) as [requestUrl|].
  - match goal with
    | |- context [checkSessionToken ?t ?o ?h ?p ?i ?n s] =>
        destruct (checkSessionToken_validate s t o h p i n) as [Hc Hs];
        exists (snd (validate_spec (sessionTokens s) t i o n))
    end.
    split; [exact Hs|].
    intros Hp. rewrite Hc in Hp. injection Hp as Hp.
    apply validate_spec_accepted. exact Hp.
  - exists (sessionTokens s). split; [symmetry; apply with_sessionTokens_same | reflexivity].
Qed.

Lemma checkUpgrade_clients (req : IncomingMessage.t) (now : Z) (s : ServerState) :
  clients (state_of (checkUpgrade config req now s)) = clients s
  /\ ipConnectionCounts (state_of (checkUpgrade config req now s)) = ipConnectionCounts s.
Proof.
  destruct (checkUpgrade_frame req now s) as (tokens' & -> & _). destruct s; split; reflexivity.
Qed.

Lemma checkUpgrade_proceed (req : IncomingMessage.t) (now : Z) (s : ServerState) :
  completion_of (checkUpgrade config req now s) = Normal Proceed ->
  state_of (checkUpgrade config req now s) = s.
Proof.
  intros Hp. destruct (checkUpgrade_frame req now s) as (tokens' & -> & Hsame).
  rewrite (Hsame Hp). apply with_sessionTokens_same.
Qed.

(** Registration happens before the two sends, so it stands whether or not
    they throw. *)
Lemma onConnection_registry (env : Sockets) (ws : WebSocket) (req : IncomingMessage.t)
    (now : Z) (s : ServerState) :
  let s' := state_of (onConnection config env ws req now s) in
  clients s'
  = Map_set ws (ClientConnection.mk ws (getClientIp config req) now now) (clients s)
  /\ ipConnectionCounts s'
     = <[getClientIp config req :=
           default 0 (ipConnectionCounts s !! getClientIp config req) + 1]>
         (ipConnectionCounts s).
Proof.
  cbv beta zeta delta [onConnection bind modify get ws_send state_of].
  destruct s as [cl cnt tok ls lt].
  destruct (send_throws env ws (JSON_stringify _));
    cbv beta iota delta [throw emit fst snd with_clients with_ipConnectionCounts clients
      ipConnectionCounts sessionTokens lastState lastTimestamp];
    [split; reflexivity|].
  destruct (send_throws env ws ls);
    cbv beta iota delta [throw emit fst snd with_clients with_ipConnectionCounts clients
      ipConnectionCounts sessionTokens lastState lastTimestamp];
    split; reflexivity.
Qed.

Lemma for_of_state {A} (xs : list A) (body : A -> M unit) (s : ServerState) :
  (forall x s0, state_of (body x s0) = s0) ->
  state_of (for_of xs body s) = s.
Proof.
  intros Hbody. induction xs as [|x rest IH]; [reflexivity|].
  cbn [for_of]. unfold bind. specialize (Hbody x s). unfold state_of in *.
  destruct (body x s) as [[[[]|] s1] e1]; cbn [fst snd] in *; subst s1; [|reflexivity].
  destruct (for_of rest body s) as [[c s2] e2]. exact IH.
Qed.

Lemma broadcastToClients_state (env : Sockets) (json : string) (s : ServerState) :
  state_of (broadcastToClients env json s) = s.
Proof.
  unfold broadcastToClients, bind, get.
  pose proof (for_of_state (clients s)
    (fun entry : WebSocket * ClientConnection.t =>
       let '(ws, client) := entry in
       if ReadyState_eqb (readyState env ws) OPEN
       then try_catch (ws_send env ws json)
              (emit (Console LError "Failed to send to" [IStr (ClientConnection.ip client)]))
       else ret tt) s) as Hfor.
  unfold state_of in *.
  destruct (for_of _ _ s) as [[c s2] e2]. cbn [fst snd] in *. apply Hfor.
  intros [ws client] s0. unfold try_catch, ws_send, emit.
  destruct (ReadyState_eqb _ _); [|reflexivity].
  destruct (send_throws env ws json); reflexivity.
Qed.

Lemma pingClients_state (env : Sockets) (now : Z) (s : ServerState) :
  state_of (pingClients config env now s) = s.
Proof.
  unfold pingClients, bind, get.
  pose proof (for_of_state (clients s)
    (fun entry : WebSocket * ClientConnection.t =>
       let '(ws, client) := entry in
       if now - ClientConnection.lastPongAt client >? ServerConfig.idleTimeoutMs config
       then (emit (Console LLog "Disconnecting idle client" [IStr (ClientConnection.ip client)]) ;;
             emit (WsTerminate ws))%handler
       else if ReadyState_eqb (readyState env ws) OPEN
            then try_catch (ws_ping env ws) (ret tt)
            else ret tt) s) as Hfor.
  unfold state_of in *.
  destruct (for_of _ _ s) as [[c s2] e2]. cbn [fst snd] in *. apply Hfor.
  intros [ws client] s0. unfold try_catch, ws_ping, emit, bind.
  destruct (_ >? _); [reflexivity|].
  destruct (ReadyState_eqb _ _); [|reflexivity].
  destruct (ping_throws env ws); reflexivity.
Qed.

End Frames.

(* ====================================================================== *)
(** ** The poller and the broadcast                                        *)
(* ====================================================================== *)

Section PollProperties.
Context `{Platform} (config : ServerConfig.t).

Lemma try_send_run (env : Sockets) (ws : WebSocket) (json ip : string) (s : ServerState) :
  try_catch (ws_send env ws json) (emit (Console LError "Failed to send to" [IStr ip])) s
  = (Normal tt, s,
     if send_throws env ws json then [Console LError "Failed to send to" [IStr ip]]
     else [WsSend ws json]).
Proof. unfold try_catch, ws_send. destruct (send_throws env ws json); reflexivity. Qed.

Lemma for_of_broadcast (env : Sockets) (json : string) (registry : ClientMap)
    (s : ServerState) :
  for_of registry
    (fun entry : WebSocket * ClientConnection.t =>
       let '(ws, client) := entry in
       if ReadyState_eqb (readyState env ws) OPEN
       then try_catch (ws_send env ws json)
              (emit (Console LError "Failed to send to" [IStr (ClientConnection.ip client)]))
       else ret tt) s
  = (Normal tt, s, broadcast_effects env json registry).
Proof.
  induction registry as [|[ws client] rest IH]; [reflexivity|].
  cbn [for_of]. unfold bind. cbv beta iota.
  unfold broadcast_effects. cbn [flat_map fst snd]. fold (broadcast_effects env json rest).
  destruct (ReadyState_eqb (readyState env ws) OPEN).
  - rewrite try_send_run, IH. reflexivity.
  - unfold ret at 1. rewrite IH. reflexivity.
Qed.

Lemma broadcastToClients_run (env : Sockets) (json : string) (s : ServerState) :
  broadcastToClients env json s = (Normal tt, s, broadcast_effects env json (clients s)).
Proof. unfold broadcastToClients, bind, get. rewrite for_of_broadcast. reflexivity. Qed.

Lemma number_strict_eq_finite (a b : number) :
  Number_isFinite a = true -> (number_strict_eq a b = true <-> a = b).
Proof.
  destruct a as [x| | |]; try discriminate. intros _.
  destruct b as [y| | |]; cbn [number_strict_eq]; try (split; [discriminate | discriminate]).
  rewrite Z.eqb_eq. split; [intros ->; reflexivity | intros [= ->]; reflexivity].
Qed.

Lemma valid_payload_timestamp_finite (parsed : JValue) :
  isValidBroadcastPayload parsed = true ->
  Number_isFinite (payload_timestamp parsed) = true.
Proof.
  unfold isValidBroadcastPayload, payload_timestamp.
  destruct (negb (isObject parsed)); [discriminate|].
  destruct (negb match get_prop parsed "type" with
                 | Some (JString t) => String.eqb t "state" | _ => false end);
    [discriminate|].
  destruct (get_prop parsed "timestamp") as [[| |n| | |]|]; cbn [negb]; try discriminate.
  destruct (Number_isFinite n); [reflexivity | discriminate].
Qed.

Lemma pollStateFile_unchanged (env : Sockets) (file : StateFile) (content : string)
    (parsed : JValue) (s : ServerState) :
  existsSync file = true ->
  readFileSync file = Some content ->
  JSON_parse content = Some parsed ->
  isValidBroadcastPayload parsed = true ->
  payload_timestamp parsed = lastTimestamp s ->
  pollStateFile env file s = (Normal tt, s, []).
Proof.
  intros Hex Hread Hparse Hvalid Hsame.
  unfold pollStateFile, try_catch, bind, or_throw, get.
  rewrite Hex, Hread. cbn [negb ret]. rewrite Hparse. cbn [ret]. rewrite Hvalid. cbn [negb].
  apply (number_strict_eq_finite _ (lastTimestamp s)
           (valid_payload_timestamp_finite _ Hvalid)) in Hsame.
  rewrite Hsame. reflexivity.
Qed.

Lemma pollStateFile_changed (env : Sockets) (file : StateFile) (content : string)
    (parsed : JValue) (s : ServerState) :
  existsSync file = true ->
  readFileSync file = Some content ->
  JSON_parse content = Some parsed ->
  isValidBroadcastPayload parsed = true ->
  payload_timestamp parsed <> lastTimestamp s ->
  pollStateFile env file s
  = (Normal tt,
     with_lastState content (with_lastTimestamp (payload_timestamp parsed) s),
     broadcast_effects env content (clients s)).
Proof.
  intros Hex Hread Hparse Hvalid Hdiff.
  unfold pollStateFile, try_catch, bind, or_throw, get, modify.
  rewrite Hex, Hread. cbn [negb ret]. rewrite Hparse. cbn [ret]. rewrite Hvalid. cbn [negb].
  destruct (number_strict_eq (payload_timestamp parsed) (lastTimestamp s)) eqn:Heq.
  { apply (number_strict_eq_finite _ (lastTimestamp s)
             (valid_payload_timestamp_finite _ Hvalid)) in Heq. contradiction. }
  cbn [negb]. rewrite broadcastToClients_run. destruct s; reflexivity.
Qed.

Lemma broadcast_effects_all_open (env : Sockets) (json : string) (registry : ClientMap) :
  (forall ws, readyState env ws = OPEN /\ send_throws env ws json = false) ->
  broadcast_effects env json registry
  = List.map (fun entry => WsSend (fst entry) json) registry.
Proof.
  intros Hhealthy. unfold broadcast_effects.
  induction registry as [|[ws client] rest IH]; [reflexivity|].
  cbn [flat_map List.map fst]. destruct (Hhealthy ws) as [-> ->]. cbn [ReadyState_eqb app].
  f_equal. exact IH.
Qed.

(** C5. When the state file reads, parses and has the payload shape: a
    payload whose timestamp is the last broadcast one changes nothing,
    logs nothing and sends nothing, whatever its content; any other
    timestamp becomes the last broadcast timestamp, the text read becomes
    the held snapshot, and that text is sent, in registration order, to
    every registered connection whose socket is open (a send that throws is
    logged in its place). *)
Theorem pollStateFile_dedup_by_timestamp (env : Sockets) (file : StateFile)
    (content : string) (parsed : JValue) (s : ServerState) :
  existsSync file = true ->
  readFileSync file = Some content ->
  JSON_parse content = Some parsed ->
  isValidBroadcastPayload parsed = true ->
  (payload_timestamp parsed = lastTimestamp s ->
     pollStateFile env file s = (Normal tt, s, []))
  /\ (payload_timestamp parsed <> lastTimestamp s ->
      let r := pollStateFile env file s in
      completion_of r = Normal tt
      /\ lastTimestamp (state_of r) = payload_timestamp parsed
      /\ lastState (state_of r) = content
      /\ clients (state_of r) = clients s
      /\ ipConnectionCounts (state_of r) = ipConnectionCounts s
      /\ sessionTokens (state_of r) = sessionTokens s
      /\ effects_of r = broadcast_effects env content (clients s)
      /\ ((forall ws, readyState env ws = OPEN /\ send_throws env ws content = false) ->
          effects_of r = List.map (fun entry => WsSend (fst entry) content) (clients s))).
Proof.
  intros Hex Hread Hparse Hvalid. split.
  - intros Hsame. eapply pollStateFile_unchanged; eassumption.
  - intros Hdiff r. subst r.
    rewrite (pollStateFile_changed env file content parsed s) by assumption.
    unfold completion_of, state_of, effects_of. cbn [fst snd].
    destruct s as [cl cnt tok ls lt].
    cbn [with_lastState with_lastTimestamp clients ipConnectionCounts sessionTokens
           lastState lastTimestamp].
    repeat split.
    intros Hhealthy. apply broadcast_effects_all_open. exact Hhealthy.
Qed.

Lemma pollStateFile_registry (env : Sockets) (file : StateFile) (s : ServerState) :
  clients (state_of (pollStateFile env file s)) = clients s
  /\ ipConnectionCounts (state_of (pollStateFile env file s)) = ipConnectionCounts s.
Proof.
  unfold pollStateFile, try_catch, bind, or_throw, get, modify.
  destruct (existsSync file); cbn [negb]; [|split; reflexivity].
  destruct (readFileSync file) as [content|]; [|split; reflexivity].
  cbn [ret]. destruct (JSON_parse content) as [parsed|]; [|split; reflexivity].
  cbn [ret]. destruct (isValidBroadcastPayload parsed); cbn [negb]; [|split; reflexivity].
  destruct (number_strict_eq _ _); cbn [negb]; [split; reflexivity|].
  rewrite broadcastToClients_run. destruct s; split; reflexivity.
Qed.

End PollProperties.

(* ====================================================================== *)
(** ** The event loop and the registry invariant                           *)
(* ====================================================================== *)

Section RegistryProperties.
Context `{Platform} (config : ServerConfig.t).

Lemma registry_consistent_frame (s s' : ServerState) :
  clients s' = clients s ->
  ipConnectionCounts s' = ipConnectionCounts s ->
  registry_consistent s -> registry_consistent s'.
Proof. unfold registry_consistent. intros -> ->. tauto. Qed.

Lemma bind_ret_l {A B} (a : A) (k : A -> M B) (s : ServerState) :
  bind (ret a) k s = k a s.
Proof. unfold bind, ret. destruct (k a s) as [[c s2] e2]. reflexivity. Qed.

Lemma onRequest_registry (req : IncomingMessage.t) (entropy : list Byte.byte) (now : Z)
    (s : ServerState) :
  clients (state_of (onRequest config req entropy now s)) = clients s
  /\ ipConnectionCounts (state_of (onRequest config req entropy now s))
     = ipConnectionCounts s.
Proof.
  unfold onRequest. destruct (String.eqb _ "OPTIONS"); [split; reflexivity|].
  unfold or_throw. destruct (URL_new_base _ _) as [requestUrl|];
    [rewrite bind_ret_l | split; reflexivity].
  destruct (_ && _); [|split; reflexivity].
  destruct (negb _); [split; reflexivity|].
  unfold bind. rewrite issueSessionToken_run. destruct s; split; reflexivity.
Qed.

(** The [/session-token] branch: an allowed [GET] answers 200 with the token
    and its expiry, and its effect on the state is that of the issuing
    block. *)
Lemma onRequest_session_token (req : IncomingMessage.t) (entropy : list Byte.byte) (now : Z)
    (s : ServerState) (requestUrl : URL.t) :
  default "GET" (IncomingMessage.method req) = "GET" ->
  URL_new_base (default "/" (IncomingMessage.url req))
    ("http://" ++ header_or (IncomingMessage.host req) "localhost") = Some requestUrl ->
  URL.pathname requestUrl = "/session-token" ->
  isSessionRequestAllowed config req (header_string (IncomingMessage.origin req)) = true ->
  onRequest config req entropy now s
  = (Normal (sendJson
               (setCorsHeaders config freshResponse
                  (header_string (IncomingMessage.origin req)))
               200
               (SessionTokenPayload (Buffer_toString_hex entropy)
                  (now + sessionTokenTtlMs config))),
     state_of (issueSessionToken config req (header_string (IncomingMessage.origin req))
                 entropy now s),
     []).
Proof.
  intros Hmethod Hurl Hpath Hallowed. unfold onRequest.
  rewrite Hmethod, Hurl. cbn [String.eqb Ascii.eqb Bool.eqb or_throw].
  rewrite bind_ret_l, Hpath, Hallowed. cbn [String.eqb Ascii.eqb Bool.eqb andb negb].
  unfold bind. rewrite issueSessionToken_run. reflexivity.
Qed.

Lemma onClose_run (ws : WebSocket) (ip : string) (s : ServerState) :
  state_of (onClose ws ip s)
  = with_ipConnectionCounts
      (fun counts =>
         if default 1 (counts !! ip) - 1 <=? 0 then delete ip counts
         else <[ip := default 1 (counts !! ip) - 1]> counts)
      (with_clients (Map_delete ws) s).
Proof.
  unfold onClose, bind, modify, get, emit, state_of. destruct s as [cl cnt tok ls lt].
  cbv beta iota delta [with_clients with_ipConnectionCounts clients ipConnectionCounts
    sessionTokens lastState lastTimestamp fst snd].
  destruct (default 1 (cnt !! ip) - 1 <=? 0); reflexivity.
Qed.

Lemma onPong_run (ws : WebSocket) (now : Z) (s : ServerState) :
  state_of (onPong ws now s)
  = match Map_get ws (clients s) with
    | Some client =>
        with_clients
          (Map_set ws (ClientConnection.mk (ClientConnection.ws client)
                         (ClientConnection.ip client)
                         (ClientConnection.connectedAt client) now)) s
    | None => s
    end.
Proof.
  unfold onPong, bind, get. destruct (Map_get ws (clients s)); reflexivity.
Qed.

Lemma onUpgrade_state (env : Sockets) (req : IncomingMessage.t) (handshake : option WebSocket)
    (now : Z) (s : ServerState) :
  state_of (onUpgrade config env req handshake now s)
  = match completion_of (checkUpgrade config req now s), handshake with
    | Normal Proceed, Some ws => state_of (onConnection config env ws req now s)
    | _, _ => state_of (checkUpgrade config req now s)
    end.
Proof.
  pose proof (checkUpgrade_proceed config req now s) as Hsame.
  unfold onUpgrade, bind, state_of, completion_of in *.
  destruct (checkUpgrade config req now s) as [[[[|status message]|] s1] e1];
    cbn [fst snd] in *; try reflexivity.
  rewrite (Hsame eq_refl). destruct handshake as [ws|]; cbn [wss_handleUpgrade].
  - destruct (onConnection config env ws req now s) as [[c s2] e2]. reflexivity.
  - reflexivity.
Qed.

Lemma joined_spec (s : ServerState) (e : Event) :
  joined config s e = true ->
  exists env req ws now,
    e = EUpgrade env req (Some ws) now
    /\ completion_of (checkUpgrade config req now s) = Normal Proceed.
Proof.
  destruct e as [| env req [ws|] now | | | | |]; cbn [joined]; try discriminate.
  destruct (completion_of (checkUpgrade config req now s)) as [[|]|] eqn:Hc; try discriminate.
  intros _. exists env, req, ws, now. split; [reflexivity | exact Hc].
Qed.

(** A join appends a connection and bumps the counter of its address. *)
Lemma join_consistent (s s' : ServerState) (ws : WebSocket) (client : ClientConnection.t) :
  registry_consistent s ->
  Map_get ws (clients s) = None ->
  clients s' = Map_set ws client (clients s) ->
  ipConnectionCounts s'
  = <[ClientConnection.ip client :=
        default 0 (ipConnectionCounts s !! ClientConnection.ip client) + 1]>
      (ipConnectionCounts s) ->
  registry_consistent s' /\ Map_size (clients s') = Map_size (clients s) + 1.
Proof.
  intros [Hnd Hcount] Hfresh Hcl Hcnt. rewrite Map_set_fresh in Hcl by exact Hfresh.
  split; [split|].
  - rewrite Hcl, List.map_app. apply NoDup_app. split; [exact Hnd|]. split.
    + intros x Hx Hx'. cbn in Hx'. apply list_elem_of_In in Hx, Hx'.
      destruct Hx' as [<-|[]]. exact (Map_get_None_notin _ _ Hfresh Hx).
    + cbn. apply NoDup_singleton.
  - intros ip. rewrite Hcnt, Hcl, connections_of_app.
    assert (Hone : connections_of ip [(ws, client)]
                   = if String.eqb (ClientConnection.ip client) ip then 1 else 0).
    { rewrite connections_of_cons. cbn [snd]. unfold connections_of. cbn. lia. }
    rewrite Hone. clear Hone.
    pose proof (connections_of_nonneg ip (clients s)) as Hn.
    destruct (String.eqb_spec (ClientConnection.ip client) ip) as [->|Hne].
    + rewrite lookup_insert_eq, (Hcount ip).
      destruct (Z.eqb_spec (connections_of ip (clients s) + 1) 0); [lia|].
      destruct (Z.eqb_spec (connections_of ip (clients s)) 0) as [->|Hnz]; reflexivity.
    + rewrite lookup_insert_ne by exact Hne. rewrite (Hcount ip), Z.add_0_r. reflexivity.
  - rewrite Hcl. unfold Map_size. rewrite List.length_app. cbn [length]. lia.
Qed.

(** A close removes the connection and takes one off the counter of its
    address, dropping the key at zero. *)
Lemma close_consistent (s : ServerState) (ws : WebSocket) (client : ClientConnection.t) :
  registry_consistent s ->
  Map_get ws (clients s) = Some client ->
  registry_consistent (state_of (onClose ws (ClientConnection.ip client) s))
  /\ Map_size (clients (state_of (onClose ws (ClientConnection.ip client) s)))
     = Map_size (clients s) - 1.
Proof.
  intros [Hnd Hcount] Hget. rewrite onClose_run.
  destruct (Map_delete_present ws client (clients s) Hnd Hget) as (Hsize & Hnd' & Hconn).
  pose proof (connections_of_member ws client (clients s) Hget) as Hone.
  destruct s as [cl cnt tok ls lt].
  cbn [with_clients with_ipConnectionCounts clients ipConnectionCounts] in *.
  split; [split|];
    cbv beta iota delta [with_clients with_ipConnectionCounts clients ipConnectionCounts];
    [exact Hnd' | | exact Hsize].
  intros ip. rewrite Hconn.
  pose proof (Hcount (ClientConnection.ip client)) as Hmine.
  destruct (Z.eqb_spec (connections_of (ClientConnection.ip client) cl) 0) as [Hz|_]; [lia|].
  rewrite Hmine. cbn [from_option id].
  destruct (String.eqb_spec (ClientConnection.ip client) ip) as [<-|Hne].
  - destruct (Z.leb_spec (connections_of (ClientConnection.ip client) cl - 1) 0).
    + rewrite lookup_delete_eq.
      destruct (Z.eqb_spec (connections_of (ClientConnection.ip client) cl - 1) 0);
        [reflexivity | lia].
    + rewrite lookup_insert_eq.
      destruct (Z.eqb_spec (connections_of (ClientConnection.ip client) cl - 1) 0);
        [lia | reflexivity].
  - rewrite Z.sub_0_r.
    destruct (Z.leb_spec (connections_of (ClientConnection.ip client) cl - 1) 0).
    + rewrite lookup_delete_ne by exact Hne. apply Hcount.
    + rewrite lookup_insert_ne by exact Hne. apply Hcount.
Qed.

Lemma step_consistent (s : ServerState) (e : Event) :
  registry_consistent s ->
  enabled s e = true ->
  registry_consistent (step config s e)
  /\ Map_size (clients (step config s e))
     = Map_size (clients s) + (if joined config s e then 1 else 0)
       - (if closed e then 1 else 0).
Proof.
  intros Hinv Hen. unfold step.
  destruct e as [req entropy now | env req handshake now | ws ip | ws now
                 | env file | env now | now]; cbn [handle joined closed].
  - assert (Hst : state_of ((onRequest config req entropy now ;; ret tt)%handler s)
                  = state_of (onRequest config req entropy now s)).
    { unfold bind, state_of.
      destruct (onRequest config req entropy now s) as [[[r|] s1] e1]; reflexivity. }
    rewrite Hst. destruct (onRequest_registry req entropy now s) as [Hcl Hcnt].
    split; [eapply registry_consistent_frame; eassumption | rewrite Hcl; lia].
  - rewrite onUpgrade_state.
    destruct (checkUpgrade_clients config req now s) as [Hcl Hcnt].
    assert (Hrej : registry_consistent (state_of (checkUpgrade config req now s))
                   /\ Map_size (clients (state_of (checkUpgrade config req now s)))
                      = Map_size (clients s) + 0 - 0).
    { split; [eapply registry_consistent_frame; eassumption | rewrite Hcl; lia]. }
    destruct handshake as [ws|].
    + destruct (completion_of (checkUpgrade config req now s)) as [[|status message]|];
        try exact Hrej.
      cbn [enabled] in Hen.
      destruct (Map_get ws (clients s)) eqn:Hfresh; [discriminate|].
      destruct (onConnection_registry config env ws req now s) as [Hcl' Hcnt'].
      destruct (join_consistent s _ ws _ Hinv Hfresh Hcl' Hcnt') as [Hinv' Hsize].
      split; [exact Hinv' | lia].
    + destruct (completion_of (checkUpgrade config req now s)) as [[|status message]|];
        exact Hrej.
  - cbn [enabled] in Hen. destruct (Map_get ws (clients s)) as [client|] eqn:Hget;
      [|discriminate].
    apply String.eqb_eq in Hen. subst ip.
    destruct (close_consistent s ws client Hinv Hget) as [Hinv' Hsize].
    split; [exact Hinv' | lia].
  - rewrite onPong_run. destruct (Map_get ws (clients s)) as [client|] eqn:Hget.
    + destruct (Map_set_present ws
                  (ClientConnection.mk (ClientConnection.ws client)
                     (ClientConnection.ip client) (ClientConnection.connectedAt client) now)
                  client (clients s) Hget eq_refl) as (Hlen & Hkeys & Hconn).
      destruct Hinv as [Hnd Hcount]. destruct s as [cl cnt tok ls lt].
      cbn [with_clients clients ipConnectionCounts] in *.
      split; [split|];
        cbv beta iota delta [with_clients clients ipConnectionCounts].
      * rewrite Hkeys. exact Hnd.
      * intros ip. rewrite Hconn. apply Hcount.
      * unfold Map_size. rewrite Hlen. lia.
    + split; [exact Hinv | lia].
  - destruct (pollStateFile_registry env file s) as [Hcl Hcnt].
    split; [eapply registry_consistent_frame; eassumption | rewrite Hcl; lia].
  - rewrite pingClients_state. split; [exact Hinv | lia].
  - unfold cleanExpiredSessionTokens, modify, state_of. cbn [fst snd].
    split; [|destruct s; cbn; lia].
    eapply registry_consistent_frame; [| |exact Hinv]; destruct s; reflexivity.
Qed.

Lemma run_consistent (trace : list Event) (s : ServerState) :
  registry_consistent s ->
  valid_trace config s trace = true ->
  registry_consistent (run config s trace)
  /\ Map_size (clients (run config s trace))
     = Map_size (clients s) + joins config s trace - closes trace.
Proof.
  revert s. induction trace as [|e rest IH]; intros s Hinv Hvalid.
  - cbn [run fold_left joins]. unfold closes. cbn. split; [exact Hinv | lia].
  - cbn [valid_trace] in Hvalid. apply andb_true_iff in Hvalid as [Hen Hrest].
    destruct (step_consistent s e Hinv Hen) as [Hinv' Hsize].
    destruct (IH _ Hinv' Hrest) as [Hinv'' Hsize'].
    unfold run in *. cbn [fold_left joins]. split; [exact Hinv''|].
    rewrite Hsize', Hsize. unfold closes. cbn [List.filter].
    destruct (closed e); cbn [length]; lia.
Qed.

Lemma initialState_consistent (now : Z) : registry_consistent (initialState now).
Proof.
  split; [apply NoDup_nil_2 | intros ip; apply lookup_empty].
Qed.

(** C6. From start-up, after every sequence of events the runtime can
    deliver (registrations through completed handshakes, closes of
    registered sockets, and any other handler in between): the counter of
    each address is the number of registered connections of that address,
    with no key at all when that number is zero, and the size of the
    registry is the number of joins minus the number of closes. *)
Theorem registry_counts_connections (start : Z) (trace : list Event) :
  valid_trace config (initialState start) trace = true ->
  let s := run config (initialState start) trace in
  (forall ip : string,
     ipConnectionCounts s !! ip
     = if connections_of ip (clients s) =? 0 then None
       else Some (connections_of ip (clients s)))
  /\ Map_size (clients s) = joins config (initialState start) trace - closes trace.
Proof.
  intros Hvalid s.
  destruct (run_consistent trace (initialState start) (initialState_consistent start) Hvalid)
    as [[_ Hcount] Hsize].
  split; [exact Hcount|]. subst s. rewrite Hsize.
  change (Map_size (clients (initialState start))) with 0. lia.
Qed.

End RegistryProperties.

(* ====================================================================== *)
(** ** Properties: admission                                               *)
(* ====================================================================== *)

Section AdmissionOrder.
Context `{Platform} (config : ServerConfig.t).

Lemma onUpgrade_rejected (env : Sockets) (req : IncomingMessage.t)
    (handshake : option WebSocket) (now : Z) (s s1 : ServerState)
    (status : Z) (message : string) (log : list Effect) :
  checkUpgrade config req now s = (Normal (Reject status message), s1, log) ->
  onUpgrade config env req handshake now s
  = (Normal tt, s1, (log ++ [RejectUpgrade status message])%list).
Proof. intros Hc. unfold onUpgrade, bind. rewrite Hc. reflexivity. Qed.

Lemma step_size_no_close (s : ServerState) (e : Event) :
  closed e = false ->
  Map_size (clients s) <= Map_size (clients (step config s e)).
Proof.
  intros Hopen. unfold step.
  destruct e as [req entropy now | env req handshake now | ws ip | ws now
                 | env file | env now | now]; cbn [handle closed] in *;
    try discriminate.
  - assert (Hst : state_of ((onRequest config req entropy now ;; ret tt)%handler s)
                  = state_of (onRequest config req entropy now s)).
    { unfold bind, state_of.
      destruct (onRequest config req entropy now s) as [[[r|] s1] e1]; reflexivity. }
    rewrite Hst. destruct (onRequest_registry config req entropy now s) as [-> _]. lia.
  - rewrite onUpgrade_state.
    destruct (checkUpgrade_clients config req now s) as [Hcl _].
    destruct (completion_of (checkUpgrade config req now s)) as [[|status message]|],
      handshake as [ws|]; try (rewrite Hcl; lia).
    destruct (onConnection_registry config env ws req now s) as [-> _].
    unfold Map_size.
    pose proof (Map_set_length_ge ws
                  (ClientConnection.mk ws (getClientIp config req) now now) (clients s)).
    lia.
  - rewrite onPong_run. destruct (Map_get ws (clients s)) as [client|]; [|lia].
    destruct s as [cl cnt tok ls lt]. cbv beta iota delta [with_clients clients].
    unfold Map_size.
    pose proof (Map_set_length_ge ws
                  (ClientConnection.mk (ClientConnection.ws client)
                     (ClientConnection.ip client) (ClientConnection.connectedAt client) now)
                  cl).
    lia.
  - destruct (pollStateFile_registry env file s) as [-> _]. lia.
  - rewrite pingClients_state. lia.
  - unfold cleanExpiredSessionTokens, modify, state_of. destruct s; cbn. lia.
Qed.

Lemma run_size_no_close (trace : list Event) (s : ServerState) :
  forallb (fun e => negb (closed e)) trace = true ->
  Map_size (clients s) <= Map_size (clients (run config s trace)).
Proof.
  revert s. induction trace as [|e rest IH]; intros s Hopen; [cbn; lia|].
  cbn [forallb] in Hopen. apply andb_true_iff in Hopen as [He Hrest].
  apply negb_true_iff in He.
  pose proof (step_size_no_close s e He). specialize (IH (step config s e) Hrest).
  unfold run in *. cbn [fold_left]. lia.
Qed.

(** C3, as amended. For every upgrade attempt that passes the origin check:
    with [clients.size >= maxTotalConnections] it is rejected with status
    503, whatever the address; otherwise, with the count of its address
    [>= maxConnectionsPerIp], it is rejected with status 429; otherwise the
    handshake goes on to the request URL and the token.  Once the registry
    is at global capacity, every such attempt is rejected with 503 for as
    long as no connection closes. *)
Theorem admission_global_before_per_ip (env : Sockets) (req : IncomingMessage.t)
    (handshake : option WebSocket) (now : Z) (s : ServerState) :
  isOriginAllowed config (header_string (IncomingMessage.origin req)) = true ->
  let hostHeader := default "unknown" (header_string (IncomingMessage.host req)) in
  let requestPath := default "/" (IncomingMessage.url req) in
  let ip := getClientIp config req in
  (ServerConfig.maxTotalConnections config <= Map_size (clients s) ->
     onUpgrade config env req handshake now s
     = (Normal tt, s,
        [Console LWarn "Rejected websocket (capacity)"
           [IStr hostHeader; IStr requestPath; IStr ip;
            INum (Map_size (clients s)); INum (ServerConfig.maxTotalConnections config)];
         RejectUpgrade 503 "Server at capacity"]))
  /\ (Map_size (clients s) < ServerConfig.maxTotalConnections config ->
      ServerConfig.maxConnectionsPerIp config <= default 0 (ipConnectionCounts s !! ip) ->
      onUpgrade config env req handshake now s
      = (Normal tt, s,
         [Console LWarn "Rejected websocket (ip limit)"
            [IStr hostHeader; IStr requestPath; IStr ip;
             INum (default 0 (ipConnectionCounts s !! ip));
             INum (ServerConfig.maxConnectionsPerIp config)];
          RejectUpgrade 429 "Too many connections"]))
  /\ (Map_size (clients s) < ServerConfig.maxTotalConnections config ->
      default 0 (ipConnectionCounts s !! ip) < ServerConfig.maxConnectionsPerIp config ->
      checkUpgrade config req now s = afterAdmission config req now s)
  /\ (ServerConfig.maxTotalConnections config <= Map_size (clients s) ->
      forall trace : list Event,
        forallb (fun e => negb (closed e)) trace = true ->
        forall (env' : Sockets) (req' : IncomingMessage.t) (handshake' : option WebSocket)
               (now' : Z),
          isOriginAllowed config (header_string (IncomingMessage.origin req')) = true ->
          let s' := run config s trace in
          onUpgrade config env' req' handshake' now' s'
          = (Normal tt, s',
             [Console LWarn "Rejected websocket (capacity)"
                [IStr (default "unknown" (header_string (IncomingMessage.host req')));
                 IStr (default "/" (IncomingMessage.url req'));
                 IStr (getClientIp config req');
                 INum (Map_size (clients s'));
                 INum (ServerConfig.maxTotalConnections config)];
              RejectUpgrade 503 "Server at capacity"])).
Proof.
  intros Hallowed hostHeader requestPath ip. split; [|split; [|split]].
  - intros Hfull.
    rewrite (onUpgrade_rejected env req handshake now s s 503 "Server at capacity" _
               (checkUpgrade_at_capacity config req now s Hallowed Hfull)).
    reflexivity.
  - intros Hroom Hip.
    rewrite (onUpgrade_rejected env req handshake now s s 429 "Too many connections" _
               (checkUpgrade_ip_limit config req now s Hallowed Hroom Hip)).
    reflexivity.
  - intros Hroom Hip. apply checkUpgrade_within_quotas; assumption.
  - intros Hfull trace Hopen env' req' handshake' now' Hallowed' s'.
    assert (Hfull' : ServerConfig.maxTotalConnections config <= Map_size (clients s')).
    { pose proof (run_size_no_close trace s Hopen). subst s'. lia. }
    rewrite (onUpgrade_rejected env' req' handshake' now' s' s' 503 "Server at capacity" _
               (checkUpgrade_at_capacity config req' now' s' Hallowed' Hfull')).
    reflexivity.
Qed.

(** C9. With a non-empty allow-list, an upgrade request without an [Origin]
    header is rejected with status 403 before any other check and leaves
    the state as it is, whatever its [Host] header; the [Host] fallback
    exists at the token endpoint only, where such a request is allowed
    exactly when [isHostAllowed] accepts its [Host] header. *)
Theorem upgrade_requires_origin_header (env : Sockets) (req : IncomingMessage.t)
    (handshake : option WebSocket) (now : Z) (s : ServerState) :
  ServerConfig.allowedOrigins config <> [] ->
  header_string (IncomingMessage.origin req) = None ->
  onUpgrade config env req handshake now s
  = (Normal tt, s,
     [Console LWarn "Rejected websocket origin"
        [IStr "none";
         IStr (default "unknown" (header_string (IncomingMessage.host req)));
         IStr (default "/" (IncomingMessage.url req));
         IStr (getClientIp config req)];
      RejectUpgrade 403 "Origin not allowed"])
  /\ isSessionRequestAllowed config req (header_string (IncomingMessage.origin req))
     = isHostAllowed config (header_string (IncomingMessage.host req)).
Proof.
  intros Hlist Hnone.
  assert (Hno : isOriginAllowed config (header_string (IncomingMessage.origin req)) = false).
  { rewrite Hnone. unfold isOriginAllowed.
    destruct (ServerConfig.allowedOrigins config); [congruence | reflexivity]. }
  split.
  - rewrite (onUpgrade_rejected env req handshake now s s 403 "Origin not allowed" _
               (checkUpgrade_origin_refused config req now s Hno)).
    rewrite Hnone. reflexivity.
  - unfold isSessionRequestAllowed. rewrite Hno, Hnone. reflexivity.
Qed.

(** C8. What the [connection] listener does, send by send.  The socket is
    registered first.  If the welcome send throws, the listener ends there
    with the exception: the snapshot is not sent, nothing is logged for the
    failure and no listener ([close] included) is installed.  If the
    snapshot send throws, the same after the welcome frame.  When neither
    throws, one welcome frame is followed at once by the held snapshot. *)
Theorem onConnection_sends (env : Sockets) (ws : WebSocket) (req : IncomingMessage.t)
    (now : Z) (s : ServerState) :
  let ip := getClientIp config req in
  let welcome := JSON_stringify (WelcomePayload (ServerConfig.pollIntervalMs config)) in
  let registered :=
    with_ipConnectionCounts
      (fun counts => <[ip := default 0 (counts !! ip) + 1]> counts)
      (with_clients (Map_set ws (ClientConnection.mk ws ip now now)) s) in
  let connected :=
    Console LLog "Client connected" [IStr ip; INum (Map_size (clients registered))] in
  (send_throws env ws welcome = true ->
     onConnection config env ws req now s = (Throw, registered, [connected]))
  /\ (send_throws env ws welcome = false ->
      send_throws env ws (lastState s) = true ->
      onConnection config env ws req now s
      = (Throw, registered, [connected; WsSend ws welcome]))
  /\ (send_throws env ws welcome = false ->
      send_throws env ws (lastState s) = false ->
      onConnection config env ws req now s
      = (Normal tt, registered,
         [connected; WsSend ws welcome; WsSend ws (lastState s);
          WsOn ws "pong"; WsOn ws "close"; WsOn ws "message"; WsOn ws "error"])).
Proof.
  intros ip welcome registered connected. subst ip welcome registered connected.
  cbv beta zeta delta [onConnection bind modify get ws_send].
  destruct s as [cl cnt tok ls lt].
  cbv beta iota delta [with_clients with_ipConnectionCounts clients ipConnectionCounts
    sessionTokens lastState lastTimestamp].
  split; [|split].
  - intros ->. reflexivity.
  - intros -> Hsnap. cbv beta iota delta [emit]. rewrite Hsnap. reflexivity.
  - intros -> Hsnap. cbv beta iota delta [emit]. rewrite Hsnap. reflexivity.
Qed.

End AdmissionOrder.

(* ====================================================================== *)
(** ** The theorems at work on the scenarios                               *)
(* ====================================================================== *)

Example parse_url_example :
  Ref.parse_url "https://viewer.example.com:8443/ws?sessionToken=ab&x=1"
  = Some (URL.mk "https:" "viewer.example.com" "/ws" [("sessionToken", "ab"); ("x", "1")]).
Proof. reflexivity. Qed.

Example stringify_example :
  Ref.stringify (SessionTokenPayload "ab" 5000)
  = "{" ++ Ref.dq ++ "token" ++ Ref.dq ++ ":" ++ Ref.dq ++ "ab" ++ Ref.dq ++ ","
        ++ Ref.dq ++ "expiresAt" ++ Ref.dq ++ ":5000}".
Proof. reflexivity. Qed.

(** Scenario A: the allowed origin gets a token, another origin gets 403. *)
Example scenario_token_endpoint :
  option_map ServerResponse.statusCode
    (match completion_of (onRequest (H := Scenario.P) Scenario.strict Scenario.tokenRequest
                            Ref.bytes24 0 Scenario.start) with
     | Normal res => Some res | Throw => None end) = Some 200
  /\ option_map ServerResponse.statusCode
       (match completion_of
                (onRequest (H := Scenario.P) Scenario.strict
                   (Ref.request "/session-token" (HString Scenario.evil)
                      (HString Scenario.viewerHost) Scenario.mallory)
                   Ref.bytes24 0 Scenario.start) with
        | Normal res => Some res | Throw => None end) = Some 403.
Proof. split; reflexivity. Qed.

(** C1 on the scenario: issued at 0 with a 5000 ms lifetime, [alice]'s token
    passes at 4999 and is expired at 5000. *)
Lemma issued_token_validates_until_expiry_witness :
  length Ref.bytes24 = 24%nat
  /\ checkSessionToken (Some Scenario.token) (Some Scenario.viewer) Scenario.viewerHost "/ws"
       Scenario.alice 4999 Scenario.issued
     = (Normal Proceed, Scenario.issued, [])
  /\ completion_of
       (checkSessionToken (Some Scenario.token) (Some Scenario.viewer) Scenario.viewerHost
          "/ws" Scenario.alice 5000 Scenario.issued)
     = Normal (Reject 401 "Session token expired").
Proof.
  split; [reflexivity|].
  destruct (issued_token_validates_until_expiry (H := Scenario.P) Scenario.strict
              Scenario.start Scenario.tokenRequest (Some Scenario.viewer) Ref.bytes24 0
              eq_refl) as (_ & Hheld & Hvalid & _).
  destruct (Hvalid Scenario.issued Scenario.viewerHost "/ws" 4999 Hheld) as [Hlive _].
  destruct (Hvalid Scenario.issued Scenario.viewerHost "/ws" 5000 Hheld) as [_ Hdead].
  split.
  - apply Hlive. vm_compute. reflexivity.
  - apply Hdead. vm_compute. discriminate.
Defined.

(** C2 on the scenario: [mallory] presents [alice]'s token; the token is
    revoked, and [alice] herself is then turned away. *)
Lemma checkSessionToken_order_witness :
  let attempt :=
    checkSessionToken (Some Scenario.token) (Some Scenario.viewer) Scenario.viewerHost "/ws"
      Scenario.mallory 1000 Scenario.issued in
  completion_of attempt = Normal (Reject 401 "Session token mismatch")
  /\ completion_of
       (checkSessionToken (Some Scenario.token) (Some Scenario.viewer) Scenario.viewerHost
          "/ws" Scenario.alice 1001 (state_of attempt))
     = Normal (Reject 401 "Invalid session token").
Proof.
  intros attempt.
  destruct (checkSessionToken_order Scenario.issued (Some Scenario.token)
              (Some Scenario.viewer) Scenario.viewerHost "/ws" Scenario.mallory 1000)
    as [_ Hcases].
  destruct (Hcases Scenario.token eq_refl ltac:(discriminate)) as [_ Hbound].
  destruct (Hbound (SessionTokenState.mk Scenario.alice Scenario.viewer 5000) eq_refl)
    as (_ & Hmismatch & _).
  destruct (Hmismatch ltac:(vm_compute; reflexivity) ltac:(discriminate))
    as (Hverdict & _ & Hlater).
  split; [exact Hverdict | apply Hlater].
Defined.

(** C7 as the specification words it fails on a store with an expired
    entry: issuing a token sweeps the store, the entry expired since time 10
    is gone afterwards, so the store is not the old one plus the new token. *)
Lemma issuance_sweeps_expired_entries :
  sessionTokens Scenario.stale !! "0ld"
  = Some (SessionTokenState.mk Scenario.mallory "" 10)
  /\ sessionTokens
       (state_of (issueSessionToken (H := Scenario.P) Scenario.strict Scenario.tokenRequest
                    (Some Scenario.viewer) Ref.bytes24 100 Scenario.stale)) !! "0ld"
     = None
  /\ sessionTokens
       (state_of (issueSessionToken (H := Scenario.P) Scenario.strict Scenario.tokenRequest
                    (Some Scenario.viewer) Ref.bytes24 100 Scenario.stale))
     <> <[Scenario.token := SessionTokenState.mk Scenario.alice Scenario.viewer 5100]>
          (sessionTokens Scenario.stale).
Proof.
  split; [reflexivity|]. split; [reflexivity|].
  intros Heq. apply (f_equal (fun m => m !! "0ld")) in Heq.
  vm_compute in Heq. discriminate.
Qed.

(** C7 on scenario E: lifetime 2000 configured, 5000 in effect. *)
Lemma issueSessionToken_effect_witness :
  completion_of
    (issueSessionToken (H := Scenario.P) Scenario.strict Scenario.tokenRequest
       (Some Scenario.viewer) Ref.bytes24 0 Scenario.start)
  = Normal (Scenario.token, 5000)
  /\ completion_of
       (checkSessionToken (Some Scenario.token) (Some Scenario.viewer) Scenario.viewerHost
          "/ws" Scenario.alice 4000 Scenario.issued)
     = Normal Proceed
  /\ completion_of
       (checkSessionToken (Some Scenario.token) (Some Scenario.viewer) Scenario.viewerHost
          "/ws" Scenario.alice 5001 Scenario.issued)
     = Normal (Reject 401 "Session token expired").
Proof.
  destruct (issueSessionToken_effect (H := Scenario.P) Scenario.strict Scenario.start
              Scenario.tokenRequest (Some Scenario.viewer) Ref.bytes24 0)
    as (Hret & _ & _ & _ & _ & _ & _ & _ & Hscenario).
  split; [exact Hret|].
  exact (Hscenario eq_refl eq_refl eq_refl Scenario.viewerHost "/ws").
Defined.

(** C3 as the specification words it fails for a foreign origin: at global
    capacity such an attempt is answered 403, not 503, since the origin
    check comes before the quotas. *)
Lemma full_registry_foreign_origin_gets_403 :
  ServerConfig.maxTotalConnections Scenario.single <= Map_size (clients Scenario.connected)
  /\ onUpgrade (H := Scenario.P) Scenario.single Ref.healthy
       (Scenario.upgradeRequest (HString Scenario.evil) Scenario.mallory) (Some 2%nat) 2000
       Scenario.connected
     = (Normal tt, Scenario.connected,
        [Console LWarn "Rejected websocket origin"
           [IStr Scenario.evil; IStr Scenario.viewerHost;
            IStr ("/ws?sessionToken=" ++ Scenario.token); IStr Scenario.mallory];
         RejectUpgrade 403 "Origin not allowed"]).
Proof. split; [vm_compute; discriminate | reflexivity]. Qed.

(** C3 on scenario B: one connection per address; [alice]'s second attempt
    gets 429, and with room for a single connection in all it gets 503. *)
Lemma admission_global_before_per_ip_witness :
  isOriginAllowed (H := Scenario.P) Scenario.strict (Some Scenario.viewer) = true
  /\ effects_of
       (onUpgrade (H := Scenario.P) Scenario.strict Ref.healthy
          (Scenario.upgradeRequest (HString Scenario.viewer) Scenario.alice) (Some 2%nat) 2000
          Scenario.connected)
     = [Console LWarn "Rejected websocket (ip limit)"
          [IStr Scenario.viewerHost; IStr ("/ws?sessionToken=" ++ Scenario.token);
           IStr Scenario.alice; INum 1; INum 1];
        RejectUpgrade 429 "Too many connections"]
  /\ effects_of
       (onUpgrade (H := Scenario.P) Scenario.single Ref.healthy
          (Scenario.upgradeRequest (HString Scenario.viewer) Scenario.mallory) (Some 2%nat)
          2000 Scenario.connected)
     = [Console LWarn "Rejected websocket (capacity)"
          [IStr Scenario.viewerHost; IStr ("/ws?sessionToken=" ++ Scenario.token);
           IStr Scenario.mallory; INum 1; INum 1];
        RejectUpgrade 503 "Server at capacity"].
Proof.
  split; [reflexivity|]. split.
  - destruct (admission_global_before_per_ip (H := Scenario.P) Scenario.strict Ref.healthy
                (Scenario.upgradeRequest (HString Scenario.viewer) Scenario.alice)
                (Some 2%nat) 2000 Scenario.connected eq_refl) as (_ & Hip & _).
    rewrite Hip; [reflexivity | vm_compute; reflexivity | vm_compute; discriminate].
  - destruct (admission_global_before_per_ip (H := Scenario.P) Scenario.single Ref.healthy
                (Scenario.upgradeRequest (HString Scenario.viewer) Scenario.mallory)
                (Some 2%nat) 2000 Scenario.connected eq_refl) as (Hfull & _).
    rewrite Hfull; [reflexivity | vm_compute; discriminate].
Defined.

(** C4 as the specification words it fails for the empty origin when the
    allow-list holds the empty string: a verbatim member, yet refused. *)
Lemma isOriginAllowed_empty_origin_refused :
  existsb (String.eqb "") (ServerConfig.allowedOrigins Scenario.emptyEntry) = true
  /\ isOriginAllowed_spec (H := Scenario.P) Scenario.emptyEntry "" = true
  /\ isOriginAllowed (H := Scenario.P) Scenario.emptyEntry (Some "") = false.
Proof. repeat split. Qed.

(** C4 in the same-host mode: another port of an allowed host passes, the
    entry that is not a URL is skipped. *)
Lemma isOriginAllowed_rule_witness :
  "https://viewer.example.com:5173" <> ""
  /\ isOriginAllowed (H := Scenario.P) Scenario.sameHost
       (Some "https://viewer.example.com:5173") = true.
Proof.
  split; [discriminate|].
  destruct (isOriginAllowed_rule (H := Scenario.P) Scenario.sameHost
              "https://viewer.example.com:5173" ltac:(discriminate)) as [Heq _].
  rewrite Heq. reflexivity.
Defined.

(** C5 on scenario C: the first file is broadcast; the second, with the same
    timestamp and other content, is not. *)
Lemma pollStateFile_dedup_by_timestamp_witness :
  let first := pollStateFile (H := Scenario.P) Ref.healthy (Scenario.file_of Scenario.quiet)
                 Scenario.connected in
  Ref.stringify Scenario.quiet <> Ref.stringify Scenario.busy
  /\ effects_of first = [WsSend 1%nat (Ref.stringify Scenario.quiet)]
  /\ lastState (state_of first) = Ref.stringify Scenario.quiet
  /\ pollStateFile (H := Scenario.P) Ref.healthy (Scenario.file_of Scenario.busy)
       (state_of first)
     = (Normal tt, state_of first, []).
Proof.
  cbv zeta. split; [vm_compute; discriminate|].
  destruct (pollStateFile_dedup_by_timestamp (H := Scenario.P) Ref.healthy
              (Scenario.file_of Scenario.quiet) (Ref.stringify Scenario.quiet) Scenario.quiet
              Scenario.connected eq_refl eq_refl
              ltac:(vm_compute; reflexivity) ltac:(vm_compute; reflexivity)) as [_ Hnew].
  destruct (Hnew ltac:(vm_compute; discriminate)) as (_ & _ & Hheld & _ & _ & _ & _ & Hsent).
  split; [|split; [exact Hheld|]].
  - rewrite Hsent; [vm_compute; reflexivity | intros ws; split; reflexivity].
  - destruct (pollStateFile_dedup_by_timestamp (H := Scenario.P) Ref.healthy
                (Scenario.file_of Scenario.busy) (Ref.stringify Scenario.busy) Scenario.busy
                (state_of (pollStateFile (H := Scenario.P) Ref.healthy
                             (Scenario.file_of Scenario.quiet) Scenario.connected))
                eq_refl eq_refl
                ltac:(vm_compute; reflexivity) ltac:(vm_compute; reflexivity)) as [Hsame _].
    apply Hsame. vm_compute. reflexivity.
Defined.

(** C6 on a session: one join, one close, an empty registry and counter
    map at the end. *)
Lemma registry_counts_connections_witness :
  valid_trace (H := Scenario.P) Scenario.strict (initialState (H := Scenario.P) 0)
    Scenario.session = true
  /\ ipConnectionCounts
       (run (H := Scenario.P) Scenario.strict (initialState (H := Scenario.P) 0)
          (firstn 5 Scenario.session)) !! Scenario.alice = Some 1
  /\ ipConnectionCounts
       (run (H := Scenario.P) Scenario.strict (initialState (H := Scenario.P) 0)
          Scenario.session) !! Scenario.alice = None
  /\ Map_size
       (clients (run (H := Scenario.P) Scenario.strict (initialState (H := Scenario.P) 0)
                   Scenario.session)) = 1 - 1.
Proof.
  split; [reflexivity|].
  destruct (registry_counts_connections (H := Scenario.P) Scenario.strict 0
              (firstn 5 Scenario.session) eq_refl) as [Hmid _].
  destruct (registry_counts_connections (H := Scenario.P) Scenario.strict 0
              Scenario.session eq_refl) as [Hend Hsize].
  split; [rewrite Hmid; reflexivity|].
  split; [rewrite Hend; reflexivity | exact Hsize].
Defined.

(** C8 at the failing inputs: a socket whose [send] throws on the welcome
    frame, and one that throws on the snapshot.  The listener ends with the
    exception; the only log entry is the connection notice. *)
Lemma onConnection_sends_witness :
  onConnection (H := Scenario.P) Scenario.strict Scenario.broken 1%nat
    (Scenario.upgradeRequest (HString Scenario.viewer) Scenario.alice) 1000 Scenario.issued
  = (Throw, Scenario.connected,
     [Console LLog "Client connected" [IStr Scenario.alice; INum 1]])
  /\ onConnection (H := Scenario.P) Scenario.strict Scenario.half_broken 1%nat
       (Scenario.upgradeRequest (HString Scenario.viewer) Scenario.alice) 1000 Scenario.issued
     = (Throw, Scenario.connected,
        [Console LLog "Client connected" [IStr Scenario.alice; INum 1];
         WsSend 1%nat (Ref.stringify (WelcomePayload 500))]).
Proof.
  destruct (onConnection_sends (H := Scenario.P) Scenario.strict Scenario.broken 1%nat
              (Scenario.upgradeRequest (HString Scenario.viewer) Scenario.alice) 1000
              Scenario.issued) as (Hwelcome & _).
  destruct (onConnection_sends (H := Scenario.P) Scenario.strict Scenario.half_broken 1%nat
              (Scenario.upgradeRequest (HString Scenario.viewer) Scenario.alice) 1000
              Scenario.issued) as (_ & Hsnapshot & _).
  split.
  - rewrite (Hwelcome eq_refl). reflexivity.
  - rewrite (Hsnapshot eq_refl eq_refl). reflexivity.
Defined.

(** The broadcast path, for comparison, catches the same failure and logs it. *)
Example broadcast_logs_send_failure :
  broadcastToClients Scenario.broken "tick" Scenario.connected
  = (Normal tt, Scenario.connected,
     [Console LError "Failed to send to" [IStr Scenario.alice]]).
Proof. reflexivity. Qed.

(** C9 on the scenario: a request without [Origin] whose [Host] is the
    allowed host may fetch a token, and is refused the upgrade. *)
Lemma upgrade_requires_origin_header_witness :
  ServerConfig.allowedOrigins Scenario.strict <> []
  /\ isSessionRequestAllowed (H := Scenario.P) Scenario.strict
       (Scenario.upgradeRequest HUndefined Scenario.alice) None = true
  /\ effects_of
       (onUpgrade (H := Scenario.P) Scenario.strict Ref.healthy
          (Scenario.upgradeRequest HUndefined Scenario.alice) (Some 1%nat) 1000
          Scenario.issued)
     = [Console LWarn "Rejected websocket origin"
          [IStr "none"; IStr Scenario.viewerHost;
           IStr ("/ws?sessionToken=" ++ Scenario.token); IStr Scenario.alice];
        RejectUpgrade 403 "Origin not allowed"].
Proof.
  split; [discriminate|].
  destruct (upgrade_requires_origin_header (H := Scenario.P) Scenario.strict Ref.healthy
              (Scenario.upgradeRequest HUndefined Scenario.alice) (Some 1%nat) 1000
              Scenario.issued ltac:(discriminate) eq_refl) as [Hrefused Hfallback].
  split; [|rewrite Hrefused; reflexivity].
  etransitivity; [exact Hfallback | vm_compute; reflexivity].
Defined.

(** C10 on the scenario: a direct peer with forged forwarding headers. *)
Lemma getClientIp_without_proxy_witness :
  ServerConfig.trustProxy Scenario.strict = false
  /\ getClientIp (H := Scenario.P) Scenario.strict
       (IncomingMessage.mk (Some "GET") (Some "/ws") HUndefined HUndefined
          (HString "10.0.0.1") (HString "10.0.0.2") (HString "10.0.0.3, 10.0.0.4")
          (Some Scenario.mallory))
     = Scenario.mallory.
Proof.
  split; [reflexivity|].
  destruct (getClientIp_without_proxy (H := Scenario.P) Scenario.strict
              (Ref.request "/ws" HUndefined HUndefined Scenario.mallory) eq_refl)
    as [Hpeer Hsame].
  etransitivity; [apply Hsame | exact Hpeer].
Defined.

(* ====================================================================== *)
(** ** Further properties: what a handshake needs and what it may change   *)
(* ====================================================================== *)

Section HandshakeSafety.
Context `{Platform} (config : ServerConfig.t).

Lemma validate_spec_accepted_inv (tokens : gmap string SessionTokenState.t)
    (tokenValue : option string) (ip : string) (origin : option string) (now : Z) :
  verdict_of (fst (validate_spec tokens tokenValue ip origin now)) = Proceed ->
  exists token bound,
    tokenValue = Some token /\ token <> ""
    /\ tokens !! token = Some bound
    /\ now < SessionTokenState.expiresAt bound
    /\ SessionTokenState.ip bound = ip
    /\ (SessionTokenState.origin bound = "" \/ truthy_opt origin = false
        \/ origin = Some (SessionTokenState.origin bound)).
Proof.
  unfold validate_spec.
  destruct tokenValue as [[|c tok]|]; try discriminate.
  destruct (tokens !! String c tok) as [bound|] eqn:Hlook; try discriminate.
  destruct (Z.leb_spec (SessionTokenState.expiresAt bound) now) as [|Hlive]; try discriminate.
  destruct (String.eqb_spec (SessionTokenState.ip bound) ip) as [Hip|]; try discriminate.
  cbn [negb]. intros Hv. exists (String c tok), bound.
  repeat (split; [first [reflexivity | discriminate | assumption]|]).
  destruct (SessionTokenState.origin bound) as [|bc bo]; [left; reflexivity|].
  destruct origin as [[|oc oo]|]; [right; left; reflexivity | | right; left; reflexivity].
  destruct (String.eqb_spec (String bc bo) (String oc oo)) as [->|]; [|discriminate].
  right; right; reflexivity.
Qed.

Lemma validate_spec_store (tokens : gmap string SessionTokenState.t)
    (tokenValue : option string) (ip : string) (origin : option string) (now : Z) :
  snd (validate_spec tokens tokenValue ip origin now) = tokens
  \/ exists token,
       tokenValue = Some token
       /\ snd (validate_spec tokens tokenValue ip origin now) = delete token tokens.
Proof.
  unfold validate_spec.
  destruct tokenValue as [[|c tok]|]; try (left; reflexivity).
  destruct (tokens !! String c tok) as [bound|]; [|left; reflexivity].
  destruct (_ <=? _); [right; eexists; split; reflexivity|].
  destruct (negb _); [right; eexists; split; reflexivity|].
  destruct (SessionTokenState.origin bound); [left; reflexivity|].
  destruct origin as [[|oc oo]|]; try (left; reflexivity).
  destruct (String.eqb _ _); [left; reflexivity | right; eexists; split; reflexivity].
Qed.

Lemma verdict_of_status (v : Validation) :
  verdict_of v = Proceed \/ exists message, verdict_of v = Reject 401 message.
Proof. destruct v as [|[]]; [left; reflexivity | right; eexists; reflexivity ..]. Qed.

Lemma checkUpgrade_proceed_inv (req : IncomingMessage.t) (now : Z) (s : ServerState) :
  completion_of (checkUpgrade config req now s) = Normal Proceed ->
  isOriginAllowed config (header_string (IncomingMessage.origin req)) = true
  /\ Map_size (clients s) < ServerConfig.maxTotalConnections config
  /\ default 0 (ipConnectionCounts s !! getClientIp config req)
     < ServerConfig.maxConnectionsPerIp config
  /\ exists requestUrl token bound,
       URL_new_base (default "/" (IncomingMessage.url req))
         ("http://" ++ header_or (IncomingMessage.host req) "localhost") = Some requestUrl
       /\ searchParams_get (URL.searchParams requestUrl) "sessionToken" = Some token
       /\ token <> ""
       /\ sessionTokens s !! token = Some bound
       /\ now < SessionTokenState.expiresAt bound
       /\ SessionTokenState.ip bound = getClientIp config req
       /\ (SessionTokenState.origin bound = ""
           \/ truthy_opt (header_string (IncomingMessage.origin req)) = false
           \/ header_string (IncomingMessage.origin req)
              = Some (SessionTokenState.origin bound)).
Proof.
  intros Hp.
  destruct (isOriginAllowed config (header_string (IncomingMessage.origin req))) eqn:Ho.
  2:{ rewrite checkUpgrade_origin_refused in Hp by exact Ho. discriminate. }
  destruct (Z_le_gt_dec (ServerConfig.maxTotalConnections config) (Map_size (clients s)))
    as [Hfull|Hroom].
  { rewrite checkUpgrade_at_capacity in Hp by assumption. discriminate. }
  destruct (Z_le_gt_dec (ServerConfig.maxConnectionsPerIp config)
              (default 0 (ipConnectionCounts s !! getClientIp config req))) as [Hip|Hip].
  { rewrite checkUpgrade_ip_limit in Hp by (try assumption; lia). discriminate. }
  rewrite checkUpgrade_within_quotas in Hp by (try assumption; lia).
  split; [reflexivity|]. split; [lia|]. split; [lia|].
  unfold afterAdmission in Hp.
  destruct (URL_new_base _ _) as [requestUrl|]; [|discriminate].
  match type of Hp with
  | context [checkSessionToken ?t ?o ?h ?p ?i ?n s] =>
      destruct (checkSessionToken_validate s t o h p i n) as [Hc _]
  end.
  rewrite Hc in Hp. injection Hp as Hp.
  apply validate_spec_accepted_inv in Hp as (token & bound & Htok & Hrest).
  exists requestUrl, token, bound. split; [reflexivity|]. split; [exact Htok | exact Hrest].
Qed.

(** X1. The handshake lets a request through only if its origin is
    allowed, the registry is below both quotas, the request URL parses, and
    its [sessionToken] parameter names a stored entry that has not expired,
    is bound to the address of the request and, when both origins are
    non-empty, to its origin. *)
Theorem checkUpgrade_proceeds_only_with_token (req : IncomingMessage.t) (now : Z)
    (s : ServerState) :
  completion_of (checkUpgrade config req now s) = Normal Proceed ->
  isOriginAllowed config (header_string (IncomingMessage.origin req)) = true
  /\ Map_size (clients s) < ServerConfig.maxTotalConnections config
  /\ default 0 (ipConnectionCounts s !! getClientIp config req)
     < ServerConfig.maxConnectionsPerIp config
  /\ exists requestUrl token bound,
       URL_new_base (default "/" (IncomingMessage.url req))
         ("http://" ++ header_or (IncomingMessage.host req) "localhost") = Some requestUrl
       /\ searchParams_get (URL.searchParams requestUrl) "sessionToken" = Some token
       /\ token <> ""
       /\ sessionTokens s !! token = Some bound
       /\ now < SessionTokenState.expiresAt bound
       /\ SessionTokenState.ip bound = getClientIp config req
       /\ (SessionTokenState.origin bound = ""
           \/ truthy_opt (header_string (IncomingMessage.origin req)) = false
           \/ header_string (IncomingMessage.origin req)
              = Some (SessionTokenState.origin bound)).
Proof. apply checkUpgrade_proceed_inv. Qed.

(** X2. The handshake checks never throw; they answer one of 403, 503, 429,
    400, 401 or let the request through; and the only change they can make
    to the state is to delete the token the request presented: every other
    entry, the registry and the snapshot stay as they are. *)
Theorem checkUpgrade_changes_only_presented_token (req : IncomingMessage.t) (now : Z)
    (s : ServerState) :
  (exists verdict,
     completion_of (checkUpgrade config req now s) = Normal verdict
     /\ (verdict = Proceed
         \/ exists status message,
              verdict = Reject status message
              /\ In status [403; 503; 429; 400; 401]))
  /\ (state_of (checkUpgrade config req now s) = s
      \/ exists requestUrl token,
           URL_new_base (default "/" (IncomingMessage.url req))
             ("http://" ++ header_or (IncomingMessage.host req) "localhost")
           = Some requestUrl
           /\ searchParams_get (URL.searchParams requestUrl) "sessionToken" = Some token
           /\ state_of (checkUpgrade config req now s)
              = with_sessionTokens (delete token) s).
Proof.
  destruct (isOriginAllowed config (header_string (IncomingMessage.origin req))) eqn:Ho.
  2:{ rewrite checkUpgrade_origin_refused by exact Ho. split; [|left; reflexivity].
      eexists. split; [reflexivity|]. right. do 2 eexists. split; [reflexivity|].
      cbn. tauto. }
  destruct (Z_le_gt_dec (ServerConfig.maxTotalConnections config) (Map_size (clients s)))
    as [Hfull|Hroom].
  { rewrite checkUpgrade_at_capacity by assumption. split; [|left; reflexivity].
    eexists. split; [reflexivity|]. right. do 2 eexists. split; [reflexivity|].
    cbn. tauto. }
  destruct (Z_le_gt_dec (ServerConfig.maxConnectionsPerIp config)
              (default 0 (ipConnectionCounts s !! getClientIp config req))) as [Hip|Hip].
  { rewrite checkUpgrade_ip_limit by (try assumption; lia). split; [|left; reflexivity].
    eexists. split; [reflexivity|]. right. do 2 eexists. split; [reflexivity|].
    cbn. tauto. }
  rewrite checkUpgrade_within_quotas by (try assumption; lia).
  unfold afterAdmission.
  destruct (URL_new_base _ _) as [requestUrl|] eqn:Hurl.
  - match goal with
    | |- context [checkSessionToken ?t ?o ?h ?p ?i ?n s] =>
        destruct (checkSessionToken_validate s t o h p i n) as [Hc Hs];
        pose proof (validate_spec_store (sessionTokens s) t i o n) as Hstore;
        pose proof (verdict_of_status (fst (validate_spec (sessionTokens s) t i o n))) as Hv
    end.
    rewrite Hc, Hs. split.
    + eexists. split; [reflexivity|]. destruct Hv as [->|[message ->]]; [left; reflexivity|].
      right. do 2 eexists. split; [reflexivity|]. cbn. tauto.
    + destruct Hstore as [->|(token & Htok & ->)].
      * left. apply with_sessionTokens_same.
      * right. exists requestUrl, token. split; [reflexivity|]. split; [exact Htok|].
        destruct s; reflexivity.
  - split; [|left; reflexivity].
    eexists. split; [reflexivity|]. right. do 2 eexists. split; [reflexivity|].
    cbn. tauto.
Qed.


(** How one event moves the connection count of an address: it stays or
    falls, or the event is a completed handshake from that address and it
    rises by one. *)
Lemma step_connections (s : ServerState) (e : Event) (ip : string) :
  registry_consistent s ->
  enabled s e = true ->
  connections_of ip (clients (step config s e)) <= connections_of ip (clients s)
  \/ (exists env req ws now,
        e = EUpgrade env req (Some ws) now
        /\ completion_of (checkUpgrade config req now s) = Normal Proceed
        /\ getClientIp config req = ip
        /\ connections_of ip (clients (step config s e))
           = connections_of ip (clients s) + 1).
Proof.
  intros [Hnd Hcount] Hen. unfold step.
  destruct e as [req entropy now | env req handshake now | ws ip' | ws now
                 | env file | env now | now]; cbn [handle].
  - left.
    assert (Hst : state_of ((onRequest config req entropy now ;; ret tt)%handler s)
                  = state_of (onRequest config req entropy now s)).
    { unfold bind, state_of.
      destruct (onRequest config req entropy now s) as [[[r|] s1] e1]; reflexivity. }
    rewrite Hst. destruct (onRequest_registry config req entropy now s) as [-> _]. lia.
  - rewrite onUpgrade_state.
    destruct (checkUpgrade_clients config req now s) as [Hcl _].
    destruct (completion_of (checkUpgrade config req now s)) as [[|status message]|] eqn:Hc,
      handshake as [ws|]; try (left; rewrite Hcl; lia).
    cbn [enabled] in Hen. destruct (Map_get ws (clients s)) eqn:Hfresh; [discriminate|].
    destruct (onConnection_registry config env ws req now s) as [-> _].
    rewrite Map_set_fresh by exact Hfresh. rewrite connections_of_app.
    rewrite (connections_of_cons ip _ []). cbn [snd ClientConnection.ip].
    change (connections_of ip []) with 0.
    destruct (String.eqb_spec (getClientIp config req) ip) as [Hip|Hne].
    + right. exists env, req, ws, now.
      split; [reflexivity|]. split; [exact Hc|]. split; [exact Hip | lia].
    + left. lia.
  - left. cbn [enabled] in Hen.
    destruct (Map_get ws (clients s)) as [client|] eqn:Hget; [|discriminate].
    rewrite onClose_run. destruct s as [cl cnt tok ls lt].
    cbv beta iota delta [with_clients with_ipConnectionCounts clients] in *.
    destruct (Map_delete_present ws client cl Hnd Hget) as (_ & _ & Hconn).
    rewrite Hconn. destruct (String.eqb (ClientConnection.ip client) ip); lia.
  - left. rewrite onPong_run. destruct (Map_get ws (clients s)) as [client|] eqn:Hget; [|lia].
    destruct (Map_set_present ws
                (ClientConnection.mk (ClientConnection.ws client)
                   (ClientConnection.ip client) (ClientConnection.connectedAt client) now)
                client (clients s) Hget eq_refl) as (_ & _ & Hconn).
    destruct s as [cl cnt tok ls lt]. cbv beta iota delta [with_clients clients] in *.
    rewrite Hconn. lia.
  - left. destruct (pollStateFile_registry env file s) as [-> _]. lia.
  - left. rewrite pingClients_state. lia.
  - left. unfold cleanExpiredSessionTokens, modify, state_of. destruct s; cbn. lia.
Qed.

Lemma run_within_quotas (trace : list Event) (s : ServerState) :
  registry_consistent s ->
  Map_size (clients s) <= Z.max 0 (ServerConfig.maxTotalConnections config) ->
  (forall ip, connections_of ip (clients s)
              <= Z.max 0 (ServerConfig.maxConnectionsPerIp config)) ->
  valid_trace config s trace = true ->
  Map_size (clients (run config s trace))
    <= Z.max 0 (ServerConfig.maxTotalConnections config)
  /\ forall ip, connections_of ip (clients (run config s trace))
                <= Z.max 0 (ServerConfig.maxConnectionsPerIp config).
Proof.
  revert s. induction trace as [|e rest IH]; intros s Hinv Htotal Hper Hvalid.
  - split; assumption.
  - cbn [valid_trace] in Hvalid. apply andb_true_iff in Hvalid as [Hen Hrest].
    destruct (step_consistent config s e Hinv Hen) as [Hinv' Hsize].
    unfold run in *. cbn [fold_left]. apply IH; [exact Hinv' | | | exact Hrest].
    + rewrite Hsize. destruct (joined config s e) eqn:Hj.
      * apply joined_spec in Hj as (env & req & ws & now & -> & Hp).
        apply checkUpgrade_proceed_inv in Hp as (_ & Hroom & _). cbn [closed]. lia.
      * destruct (closed e); lia.
    + intros ip. destruct (step_connections s e ip Hinv Hen)
        as [Hle | (env & req & ws & now & -> & Hp & Hip & Hplus)].
      * specialize (Hper ip). lia.
      * apply checkUpgrade_proceed_inv in Hp as (_ & _ & Hlimit & _).
        destruct Hinv as [_ Hcount]. rewrite Hip, (Hcount ip) in Hlimit.
        rewrite Hplus.
        pose proof (connections_of_nonneg ip (clients s)).
        destruct (Z.eqb_spec (connections_of ip (clients s)) 0) as [Hz|Hnz];
          cbn [from_option id] in Hlimit; lia.
Qed.

(** X3. The quotas hold in every state the server reaches from start-up:
    the registry never holds more than [maxTotalConnections] connections,
    nor more than [maxConnectionsPerIp] of one address (none at all when a
    limit is zero or negative). *)
Theorem quotas_hold_in_every_state (start : Z) (trace : list Event) :
  valid_trace config (initialState start) trace = true ->
  let s := run config (initialState start) trace in
  Map_size (clients s) <= Z.max 0 (ServerConfig.maxTotalConnections config)
  /\ forall ip, connections_of ip (clients s)
                <= Z.max 0 (ServerConfig.maxConnectionsPerIp config).
Proof.
  intros Hvalid s. subst s.
  apply run_within_quotas;
    [apply initialState_consistent | | | exact Hvalid].
  - change (Map_size (clients (initialState start))) with 0. lia.
  - intros ip. change (connections_of ip (clients (initialState start))) with 0. lia.
Qed.


(** X20. A token is not used up by a handshake: if the checks let a
    request through, they leave the state as it is, an aborted handshake
    changes nothing either, and the same request passes the checks again at
    any time before the [expiresAt] of the token it presents. *)
Theorem handshake_can_be_retried (env : Sockets) (req : IncomingMessage.t) (now : Z)
    (s : ServerState) :
  completion_of (checkUpgrade config req now s) = Normal Proceed ->
  checkUpgrade config req now s = (Normal Proceed, s, [])
  /\ onUpgrade config env req None now s = (Normal tt, s, [AbortHandshake])
  /\ exists bound,
       (exists requestUrl token,
          URL_new_base (default "/" (IncomingMessage.url req))
            ("http://" ++ header_or (IncomingMessage.host req) "localhost")
          = Some requestUrl
          /\ searchParams_get (URL.searchParams requestUrl) "sessionToken" = Some token
          /\ sessionTokens s !! token = Some bound)
       /\ forall later, later < SessionTokenState.expiresAt bound ->
            checkUpgrade config req later s = (Normal Proceed, s, []).
Proof.
  intros Hp.
  destruct (checkUpgrade_proceed_inv req now s Hp)
    as (Ho & Hroom & Hip & url & token & bound & Hurl & Hparam & Hne & Hheld & Hlive
        & Hbound & Horigin).
  assert (Hagain : forall later, later < SessionTokenState.expiresAt bound ->
            checkUpgrade config req later s = (Normal Proceed, s, [])).
  { intros later Hlater. rewrite checkUpgrade_within_quotas by assumption.
    unfold afterAdmission. rewrite Hurl, Hparam.
    apply (checkSessionToken_accepts s token bound); assumption. }
  split; [apply Hagain; exact Hlive|]. split.
  - unfold onUpgrade, bind. rewrite (Hagain now Hlive). reflexivity.
  - exists bound. split; [|exact Hagain].
    exists url, token. split; [exact Hurl|]. split; [exact Hparam | exact Hheld].
Qed.

End HandshakeSafety.

(* ====================================================================== *)
(** ** Further properties: the token sweep and the HTTP endpoint           *)
(* ====================================================================== *)

Section EndpointProperties.
Context `{Platform} (config : ServerConfig.t).

Lemma sweep_lookup (now : Z) (s : ServerState) (k : string) :
  sessionTokens (state_of (cleanExpiredSessionTokens now s)) !! k
  = match sessionTokens s !! k with
    | Some bound => if SessionTokenState.expiresAt bound <=? now then None else Some bound
    | None => None
    end.
Proof.
  unfold cleanExpiredSessionTokens, modify, state_of.
  destruct s as [cl cnt tokens ls lt]. cbn [fst snd with_sessionTokens sessionTokens].
  rewrite map_lookup_filter. destruct (tokens !! k) as [bound|]; [|reflexivity]. cbn.
  destruct (Z.leb_spec (SessionTokenState.expiresAt bound) now).
  - rewrite option_guard_False; [reflexivity | cbn; lia].
  - rewrite option_guard_True; [reflexivity | cbn; lia].
Qed.

Lemma sweep_frame (now : Z) (s : ServerState) :
  cleanExpiredSessionTokens now s
  = (Normal tt,
     with_sessionTokens
       (fun _ => sessionTokens (state_of (cleanExpiredSessionTokens now s))) s,
     []).
Proof. destruct s; reflexivity. Qed.

Lemma state_ext_tokens (s1 s2 : ServerState) :
  clients s1 = clients s2 ->
  ipConnectionCounts s1 = ipConnectionCounts s2 ->
  lastState s1 = lastState s2 ->
  lastTimestamp s1 = lastTimestamp s2 ->
  (forall k, sessionTokens s1 !! k = sessionTokens s2 !! k) ->
  s1 = s2.
Proof.
  destruct s1, s2. cbn. intros -> -> -> -> Hk. f_equal. apply map_eq. exact Hk.
Qed.

(** X4. A sweep at [now] removes exactly the entries with
    [expiresAt <= now] and keeps every other entry as it is; it changes
    nothing else, logs nothing and does not throw.  Sweeping twice at the
    same time is sweeping once, and a later sweep makes an earlier one
    redundant. *)
Theorem sweep_removes_exactly_expired (now : Z) (s : ServerState) :
  let s' := state_of (cleanExpiredSessionTokens now s) in
  completion_of (cleanExpiredSessionTokens now s) = Normal tt
  /\ effects_of (cleanExpiredSessionTokens now s) = []
  /\ clients s' = clients s
  /\ ipConnectionCounts s' = ipConnectionCounts s
  /\ lastState s' = lastState s
  /\ lastTimestamp s' = lastTimestamp s
  /\ (forall k,
        sessionTokens s' !! k
        = match sessionTokens s !! k with
          | Some bound =>
              if SessionTokenState.expiresAt bound <=? now then None else Some bound
          | None => None
          end)
  /\ state_of (cleanExpiredSessionTokens now s') = s'
  /\ (forall later, now <= later ->
        state_of (cleanExpiredSessionTokens later s')
        = state_of (cleanExpiredSessionTokens later s)).
Proof.
  intros s'. subst s'.
  repeat match goal with |- _ /\ _ => split end;
    try (destruct s; reflexivity).
  - intros k. apply sweep_lookup.
  - apply state_ext_tokens; try (destruct s; reflexivity).
    intros k. rewrite !sweep_lookup.
    destruct (sessionTokens s !! k) as [bound|]; [|reflexivity].
    destruct (Z.leb_spec (SessionTokenState.expiresAt bound) now) as [Hle|Hgt];
      [reflexivity|].
    destruct (Z.leb_spec (SessionTokenState.expiresAt bound) now); [lia | reflexivity].
  - intros later Hlater. apply state_ext_tokens; try (destruct s; reflexivity).
    intros k. rewrite !sweep_lookup.
    destruct (sessionTokens s !! k) as [bound|]; [|reflexivity].
    destruct (Z.leb_spec (SessionTokenState.expiresAt bound) now) as [Hle|Hgt];
      [|reflexivity].
    destruct (Z.leb_spec (SessionTokenState.expiresAt bound) later); [reflexivity | lia].
Qed.

Lemma sameHost_In (requestHost : string) (allowed : list string) :
  sameHost requestHost allowed = true
  <-> exists allowedOrigin u,
        In allowedOrigin allowed
        /\ URL_new allowedOrigin = Some u
        /\ String_toLowerCase (URL.hostname u) = requestHost.
Proof.
  induction allowed as [|a rest IH]; cbn [sameHost In].
  - split; [discriminate | intros (? & ? & [] & _)].
  - destruct (URL_new a) as [u|] eqn:Hu.
    + destruct (String.eqb_spec (String_toLowerCase (URL.hostname u)) requestHost) as [Heq|Hne].
      * split; [intros _; exists a, u; auto | reflexivity].
      * rewrite IH. split.
        -- intros (a' & u' & Hin & Hrest). exists a', u'. auto.
        -- intros (a' & u' & [<-|Hin] & Hu' & Heq).
           ++ rewrite Hu in Hu'. injection Hu' as <-. contradiction.
           ++ exists a', u'. auto.
    + rewrite IH. split.
      * intros (a' & u' & Hin & Hrest). exists a', u'. auto.
      * intros (a' & u' & [<-|Hin] & Hu' & Heq); [congruence|]. exists a', u'. auto.
Qed.

(** X5. [isHostAllowed] accepts every host when the allow-list is empty.
    With a non-empty list it accepts a [Host] header exactly when the
    header is non-empty, [http://<header>] parses to a non-empty lower-cased
    host name, and that name is the lower-cased host name of some entry
    that parses; schemes and ports of the entries play no part, and entries
    that do not parse are passed over. *)
Theorem isHostAllowed_rule (hostHeader : option string) :
  isHostAllowed config hostHeader = true
  <-> ServerConfig.allowedOrigins config = []
      \/ exists header parsed allowedOrigin u,
           hostHeader = Some header /\ header <> ""
           /\ URL_new ("http://" ++ header) = Some parsed
           /\ String_toLowerCase (URL.hostname parsed) <> ""
           /\ In allowedOrigin (ServerConfig.allowedOrigins config)
           /\ URL_new allowedOrigin = Some u
           /\ String_toLowerCase (URL.hostname u)
              = String_toLowerCase (URL.hostname parsed).
Proof.
  unfold isHostAllowed, extractHostname.
  destruct (ServerConfig.allowedOrigins config) as [|a rest] eqn:Hall.
  { split; [left; reflexivity | reflexivity]. }
  rewrite <- Hall. split.
  - intros Hyes. right.
    destruct hostHeader as [[|c h]|]; cbn [truthy_opt truthy negb] in Hyes; try discriminate.
    cbn [from_option id] in Hyes.
    destruct (URL_new ("http://" ++ String c h)) as [parsed|] eqn:Hp; [|discriminate].
    destruct (String_toLowerCase (URL.hostname parsed)) as [|lc lh] eqn:Hlow;
      cbn [truthy negb] in Hyes; [discriminate|].
    apply sameHost_In in Hyes as (a' & u & Hin & Hu & Heq).
    exists (String c h), parsed, a', u. rewrite Hlow.
    repeat (split; [first [reflexivity | discriminate | assumption]|]). exact Heq.
  - intros [Hempty | (header & parsed & a' & u & -> & Hne & Hp & Hlow & Hin & Hu & Heq)].
    { rewrite Hall in Hempty. discriminate. }
    destruct header as [|c h]; [congruence|]. cbn [truthy_opt truthy negb from_option id].
    rewrite Hp.
    destruct (String_toLowerCase (URL.hostname parsed)) as [|lc lh] eqn:Hlow';
      [congruence|]. cbn [truthy negb].
    apply sameHost_In. exists a', u. auto.
Qed.

Lemma header_get_set (name value k : string) (hs : list (string * string)) :
  header_get k (header_set name value hs)
  = if String.eqb name k then Some value else header_get k hs.
Proof.
  induction hs as [|[n v] rest IH]; cbn [header_set header_get].
  - destruct (String.eqb name k); reflexivity.
  - destruct (String.eqb_spec n name) as [->|Hne]; cbn [header_get].
    + destruct (String.eqb name k); reflexivity.
    + rewrite IH. destruct (String.eqb_spec n k) as [->|Hnk]; [|reflexivity].
      destruct (String.eqb_spec name k) as [->|]; [congruence | reflexivity].
Qed.

Lemma setCorsHeaders_allow_origin (originHeader : option string) :
  header_get "Access-Control-Allow-Origin"
    (ServerResponse.headers (setCorsHeaders config freshResponse originHeader))
  = if truthy_opt originHeader && isOriginAllowed config originHeader
    then originHeader else None.
Proof.
  unfold setCorsHeaders.
  destruct originHeader as [o|]; cbn [truthy_opt]; [|reflexivity].
  destruct (truthy o); cbn [negb orb andb]; [|reflexivity].
  destruct (isOriginAllowed config (Some o)); cbn [negb]; [|reflexivity].
  unfold setHeader. cbn [ServerResponse.headers]. rewrite !header_get_set. reflexivity.
Qed.

Lemma sendJson_headers (res : ServerResponse.t) (statusCode : Z) (payload : JValue)
    (k : string) :
  ServerResponse.statusCode (sendJson res statusCode payload) = statusCode
  /\ ServerResponse.body (sendJson res statusCode payload) = Some (JSON_stringify payload)
  /\ header_get k (ServerResponse.headers (sendJson res statusCode payload))
     = if String.eqb "Cache-Control" k then Some "no-store"
       else if String.eqb "Content-Type" k then Some "application/json"
       else header_get k (ServerResponse.headers res).
Proof.
  unfold sendJson, res_end, setHeader, setStatus. cbn [ServerResponse.statusCode
    ServerResponse.headers ServerResponse.body].
  repeat split. rewrite !header_get_set. reflexivity.
Qed.

(** The four ways [onRequest] ends, and the throw. *)
Lemma onRequest_cases (req : IncomingMessage.t) (entropy : list Byte.byte) (now : Z)
    (s : ServerState) :
  let originHeader := header_string (IncomingMessage.origin req) in
  let res := setCorsHeaders config freshResponse originHeader in
  let r := onRequest config req entropy now s in
  r = (Normal (ServerResponse.mk 204 (ServerResponse.headers res) (Some "")), s, [])
  \/ r = (Throw, s, [])
  \/ r = (Normal (sendJson res 403 (ErrorPayload "Origin not allowed")), s, [])
  \/ r = (Normal (sendJson res 404 (ErrorPayload "Not Found")), s, [])
  \/ r = (Normal (sendJson res 200
                    (SessionTokenPayload (Buffer_toString_hex entropy)
                       (now + sessionTokenTtlMs config))),
          state_of (issueSessionToken config req originHeader entropy now s), []).
Proof.
  intros originHeader res r. subst r. unfold onRequest. fold originHeader. fold res.
  destruct (String.eqb _ "OPTIONS"); [left; reflexivity|].
  unfold or_throw. destruct (URL_new_base _ _) as [requestUrl|];
    [rewrite bind_ret_l | right; left; reflexivity].
  destruct (_ && _); [|do 3 right; left; reflexivity].
  destruct (negb _); [do 2 right; left; reflexivity|].
  do 4 right. unfold bind. rewrite issueSessionToken_run. reflexivity.
Qed.

(** X6. Whatever the request, the HTTP endpoint logs nothing; it answers
    204, 200, 403 or 404, or throws (exactly when the method is not
    [OPTIONS] and the request URL does not parse); and it leaves the state
    as it is unless it answers 200.  [OPTIONS] is answered 204 before the
    URL is looked at. *)
Theorem onRequest_changes_state_only_on_200 (req : IncomingMessage.t)
    (entropy : list Byte.byte) (now : Z) (s : ServerState) :
  let r := onRequest config req entropy now s in
  effects_of r = []
  /\ (forall res, completion_of r = Normal res ->
        In (ServerResponse.statusCode res) [204; 200; 403; 404]
        /\ (ServerResponse.statusCode res <> 200 -> state_of r = s))
  /\ (completion_of r = Throw
      <-> default "GET" (IncomingMessage.method req) <> "OPTIONS"
          /\ URL_new_base (default "/" (IncomingMessage.url req))
               ("http://" ++ header_or (IncomingMessage.host req) "localhost") = None)
  /\ (completion_of r = Throw -> state_of r = s)
  /\ (default "GET" (IncomingMessage.method req) = "OPTIONS" ->
      exists res, r = (Normal res, s, []) /\ ServerResponse.statusCode res = 204
                  /\ ServerResponse.body res = Some "").
Proof.
  intros r. subst r. split; [|split; [|split; [|split]]].
  - destruct (onRequest_cases req entropy now s) as [-> | [-> | [-> | [-> | ->]]]];
      reflexivity.
  - intros res Hres.
    destruct (onRequest_cases req entropy now s) as [Hr | [Hr | [Hr | [Hr | Hr]]]];
      rewrite Hr in Hres |- *; try discriminate; injection Hres as <-;
      unfold sendJson, res_end, setHeader, setStatus;
      cbn [ServerResponse.statusCode In state_of fst snd]; split; try tauto;
      intros Hne; congruence.
  - unfold onRequest.
    destruct (String.eqb_spec (default "GET" (IncomingMessage.method req)) "OPTIONS")
      as [Hopt|Hopt].
    + split; [discriminate | intros [Hne _]; contradiction].
    + unfold or_throw. destruct (URL_new_base _ _) as [requestUrl|].
      * rewrite bind_ret_l. split; [|intros [_ Hnone]; discriminate].
        destruct (_ && _); [|discriminate]. destruct (negb _); [discriminate|].
        unfold bind. rewrite issueSessionToken_run. discriminate.
      * split; [intros _; split; [exact Hopt | reflexivity] | reflexivity].
  - intros Hthrow.
    destruct (onRequest_cases req entropy now s) as [Hr | [Hr | [Hr | [Hr | Hr]]]];
      rewrite Hr in Hthrow |- *; try discriminate. reflexivity.
  - intros Hopt. unfold onRequest. rewrite Hopt. cbn [String.eqb Ascii.eqb Bool.eqb].
    eexists. split; [reflexivity|]. split; reflexivity.
Qed.

(** X7. Every response of the HTTP endpoint carries
    [Access-Control-Allow-Origin] exactly when the request has a non-empty
    [Origin] that [isOriginAllowed] accepts, and then the header echoes
    that origin; no other value is ever sent. *)
Theorem cors_echoes_only_allowed_origins (req : IncomingMessage.t)
    (entropy : list Byte.byte) (now : Z) (s : ServerState) (res : ServerResponse.t) :
  completion_of (onRequest config req entropy now s) = Normal res ->
  header_get "Access-Control-Allow-Origin" (ServerResponse.headers res)
  = if truthy_opt (header_string (IncomingMessage.origin req))
       && isOriginAllowed config (header_string (IncomingMessage.origin req))
    then header_string (IncomingMessage.origin req)
    else None.
Proof.
  intros Hres.
  destruct (onRequest_cases req entropy now s) as [Hr | [Hr | [Hr | [Hr | Hr]]]];
    rewrite Hr in Hres; try discriminate; injection Hres as <-.
  - cbn [ServerResponse.headers]. apply setCorsHeaders_allow_origin.
  - destruct (sendJson_headers
                (setCorsHeaders config freshResponse
                   (header_string (IncomingMessage.origin req)))
                403 (ErrorPayload "Origin not allowed") "Access-Control-Allow-Origin")
      as (_ & _ & ->).
    cbn [String.eqb Ascii.eqb Bool.eqb]. apply setCorsHeaders_allow_origin.
  - destruct (sendJson_headers
                (setCorsHeaders config freshResponse
                   (header_string (IncomingMessage.origin req)))
                404 (ErrorPayload "Not Found") "Access-Control-Allow-Origin")
      as (_ & _ & ->).
    cbn [String.eqb Ascii.eqb Bool.eqb]. apply setCorsHeaders_allow_origin.
  - match goal with
    | |- context [sendJson ?r ?c ?p] =>
        destruct (sendJson_headers r c p "Access-Control-Allow-Origin") as (_ & _ & ->)
    end.
    cbn [String.eqb Ascii.eqb Bool.eqb]. apply setCorsHeaders_allow_origin.
Qed.

(** X8. A [GET /session-token] with a non-empty [Origin] that is not
    allowed is answered 403 with the error body, without CORS headers and
    without touching the state, whatever its [Host] header: the [Host]
    fallback cannot rescue a foreign origin. *)
Theorem foreign_origin_gets_no_token (req : IncomingMessage.t) (entropy : list Byte.byte)
    (now : Z) (s : ServerState) (origin : string) (requestUrl : URL.t) :
  default "GET" (IncomingMessage.method req) = "GET" ->
  URL_new_base (default "/" (IncomingMessage.url req))
    ("http://" ++ header_or (IncomingMessage.host req) "localhost") = Some requestUrl ->
  URL.pathname requestUrl = "/session-token" ->
  IncomingMessage.origin req = HString origin ->
  origin <> "" ->
  isOriginAllowed config (Some origin) = false ->
  onRequest config req entropy now s
  = (Normal (ServerResponse.mk 403
               [("Content-Type", "application/json"); ("Cache-Control", "no-store")]
               (Some (JSON_stringify (ErrorPayload "Origin not allowed")))),
     s, []).
Proof.
  intros Hmethod Hurl Hpath Horigin Hne Hno. unfold onRequest.
  rewrite Hmethod, Hurl, Horigin. cbn [String.eqb Ascii.eqb Bool.eqb or_throw header_string].
  rewrite bind_ret_l, Hpath. cbn [String.eqb Ascii.eqb Bool.eqb andb].
  unfold isSessionRequestAllowed, setCorsHeaders. rewrite Hno.
  destruct origin as [|c o]; [congruence|]. cbn [truthy_opt truthy negb orb]. reflexivity.
Qed.

End EndpointProperties.

(* ====================================================================== *)
(** ** Further properties: heartbeat, broadcast, poller                    *)
(* ====================================================================== *)

Section LivenessProperties.
Context `{Platform} (config : ServerConfig.t).

Lemma try_ping_run (env : Sockets) (ws : WebSocket) (s : ServerState) :
  try_catch (ws_ping env ws) (ret tt) s
  = (Normal tt, s, if ping_throws env ws then [] else [WsPing ws]).
Proof. unfold try_catch, ws_ping. destruct (ping_throws env ws); reflexivity. Qed.

Lemma emit_twice (a b : Effect) (s : ServerState) :
  (emit a ;; emit b)%handler s = (Normal tt, s, [a; b]).
Proof. reflexivity. Qed.

Lemma for_of_ping (env : Sockets) (now : Z) (registry : ClientMap) (s : ServerState) :
  for_of registry
    (fun entry : WebSocket * ClientConnection.t =>
       let '(ws, client) := entry in
       if now - ClientConnection.lastPongAt client >? ServerConfig.idleTimeoutMs config
       then (emit (Console LLog "Disconnecting idle client"
                     [IStr (ClientConnection.ip client)]) ;;
             emit (WsTerminate ws))%handler
       else if ReadyState_eqb (readyState env ws) OPEN
            then try_catch (ws_ping env ws) (ret tt)
            else ret tt) s
  = (Normal tt, s, ping_effects config env now registry).
Proof.
  induction registry as [|[ws client] rest IH]; [reflexivity|].
  cbn [for_of]. unfold bind at 1. cbv beta iota.
  unfold ping_effects. cbn [flat_map fst snd]. fold (ping_effects config env now rest).
  destruct (now - ClientConnection.lastPongAt client >? ServerConfig.idleTimeoutMs config).
  - rewrite emit_twice, IH. reflexivity.
  - destruct (ReadyState_eqb (readyState env ws) OPEN).
    + rewrite try_ping_run, IH. reflexivity.
    + unfold ret at 1. rewrite IH. reflexivity.
Qed.

Lemma pingClients_run (env : Sockets) (now : Z) (s : ServerState) :
  pingClients config env now s = (Normal tt, s, ping_effects config env now (clients s)).
Proof. unfold pingClients, bind, get. rewrite for_of_ping. reflexivity. Qed.

Lemma ping_effects_terminate (env : Sockets) (now : Z) (registry : ClientMap)
    (ws : WebSocket) :
  In (WsTerminate ws) (ping_effects config env now registry)
  <-> exists client,
        In (ws, client) registry
        /\ ServerConfig.idleTimeoutMs config < now - ClientConnection.lastPongAt client.
Proof.
  unfold ping_effects. rewrite in_flat_map. split.
  - intros ([ws' client] & Hin & Heff). cbn [fst snd] in Heff.
    destruct (Z.gtb_spec (now - ClientConnection.lastPongAt client)
                (ServerConfig.idleTimeoutMs config)) as [Hidle|Hok].
    + destruct Heff as [Heq|[Heq|[]]]; [discriminate|]. injection Heq as ->.
      exists client. split; [exact Hin | lia].
    + destruct (ReadyState_eqb _ _); [|destruct Heff].
      destruct (ping_throws env ws'); [destruct Heff|].
      destruct Heff as [Heq|[]]. discriminate.
  - intros (client & Hin & Hidle). exists (ws, client). split; [exact Hin|]. cbn [fst snd].
    destruct (Z.gtb_spec (now - ClientConnection.lastPongAt client)
                (ServerConfig.idleTimeoutMs config)); [|lia].
    right. left. reflexivity.
Qed.

Lemma ping_effects_ping (env : Sockets) (now : Z) (registry : ClientMap) (ws : WebSocket) :
  In (WsPing ws) (ping_effects config env now registry)
  <-> exists client,
        In (ws, client) registry
        /\ now - ClientConnection.lastPongAt client <= ServerConfig.idleTimeoutMs config
        /\ readyState env ws = OPEN
        /\ ping_throws env ws = false.
Proof.
  unfold ping_effects. rewrite in_flat_map. split.
  - intros ([ws' client] & Hin & Heff). cbn [fst snd] in Heff.
    destruct (Z.gtb_spec (now - ClientConnection.lastPongAt client)
                (ServerConfig.idleTimeoutMs config)) as [Hidle|Hok].
    + destruct Heff as [Heq|[Heq|[]]]; discriminate.
    + destruct (readyState env ws') eqn:Hready; cbn [ReadyState_eqb] in Heff;
        try (destruct Heff).
      destruct (ping_throws env ws') eqn:Hthrows; [destruct Heff|].
      destruct Heff as [Heq|[]]. injection Heq as ->.
      exists client. repeat split; assumption.
  - intros (client & Hin & Hok & Hready & Hthrows). exists (ws, client).
    split; [exact Hin|]. cbn [fst snd].
    destruct (Z.gtb_spec (now - ClientConnection.lastPongAt client)
                (ServerConfig.idleTimeoutMs config)); [lia|].
    rewrite Hready, Hthrows. left. reflexivity.
Qed.

(** X9. The heartbeat never throws, not even when a ping does, and never
    changes the state.  It terminates a socket exactly when the socket is
    registered with [now - lastPongAt > idleTimeoutMs], and pings a socket
    exactly when it is registered, not idle, open, and the ping does not
    throw. *)
Theorem pingClients_terminates_exactly_idle (env : Sockets) (now : Z) (s : ServerState) :
  let r := pingClients config env now s in
  completion_of r = Normal tt
  /\ state_of r = s
  /\ (forall ws,
        In (WsTerminate ws) (effects_of r)
        <-> exists client,
              In (ws, client) (clients s)
              /\ ServerConfig.idleTimeoutMs config
                 < now - ClientConnection.lastPongAt client)
  /\ (forall ws,
        In (WsPing ws) (effects_of r)
        <-> exists client,
              In (ws, client) (clients s)
              /\ now - ClientConnection.lastPongAt client
                 <= ServerConfig.idleTimeoutMs config
              /\ readyState env ws = OPEN
              /\ ping_throws env ws = false).
Proof.
  intros r. subst r. rewrite pingClients_run. unfold completion_of, state_of, effects_of.
  cbn [fst snd]. repeat split.
  - apply ping_effects_terminate.
  - apply ping_effects_terminate.
  - apply ping_effects_ping.
  - apply ping_effects_ping.
Qed.

Lemma Map_set_unique (k : WebSocket) (v c x : ClientConnection.t) (m : ClientMap) :
  NoDup (List.map fst m) ->
  Map_get k m = Some c ->
  In (k, x) (Map_set k v m) ->
  x = v.
Proof.
  intros Hnd Hget. induction m as [|[k' v'] rest IH]; [discriminate|].
  cbn [Map_get Map_set List.map fst] in *.
  apply NoDup_cons in Hnd as [Hnotin Hnd']. rewrite list_elem_of_In in Hnotin.
  destruct (Nat.eqb_spec k' k) as [->|Hne].
  - intros [Heq|Hin]; [congruence|].
    exfalso. apply Hnotin. apply in_map_iff. exists (k, x). split; [reflexivity | exact Hin].
  - intros [Heq|Hin]; [congruence|]. apply IH; assumption.
Qed.

(** X10. A pong keeps a socket alive: after the pong of a registered socket
    at [t], a heartbeat at any time up to [t + idleTimeoutMs] does not
    terminate it.  A pong for a socket that is not registered changes
    nothing. *)
Theorem pong_defers_termination (env : Sockets) (ws : WebSocket) (t now : Z)
    (s : ServerState) (client : ClientConnection.t) :
  NoDup (List.map fst (clients s)) ->
  Map_get ws (clients s) = Some client ->
  now - t <= ServerConfig.idleTimeoutMs config ->
  ~ In (WsTerminate ws)
      (effects_of (pingClients config env now (state_of (onPong ws t s))))
  /\ forall other, Map_get other (clients s) = None -> onPong other t s = (Normal tt, s, []).
Proof.
  intros Hnd Hget Hfresh. split.
  - rewrite pingClients_run. unfold effects_of. cbn [snd].
    rewrite ping_effects_terminate. intros (x & Hin & Hidle).
    rewrite onPong_run, Hget in Hin. destruct s as [cl cnt tok ls lt].
    cbv beta iota delta [with_clients clients] in *.
    apply (Map_set_unique ws _ client x cl Hnd Hget) in Hin. subst x.
    cbn [ClientConnection.lastPongAt] in Hidle. lia.
  - intros other Hnone. unfold onPong, bind, get. rewrite Hnone. reflexivity.
Qed.

Lemma in_broadcast_effects (env : Sockets) (json : string) (registry : ClientMap)
    (ws : WebSocket) (data : string) :
  In (WsSend ws data) (broadcast_effects env json registry)
  <-> data = json
      /\ exists client,
           In (ws, client) registry
           /\ readyState env ws = OPEN
           /\ send_throws env ws json = false.
Proof.
  unfold broadcast_effects. rewrite in_flat_map. split.
  - intros ([ws' client] & Hin & Heff). cbn [fst snd] in Heff.
    destruct (readyState env ws') eqn:Hready; cbn [ReadyState_eqb] in Heff;
      try (destruct Heff).
    destruct (send_throws env ws' json) eqn:Hthrows.
    + destruct Heff as [Heq|[]]. discriminate.
    + destruct Heff as [Heq|[]]. injection Heq as -> ->.
      split; [reflexivity|]. exists client. repeat split; assumption.
  - intros (-> & client & Hin & Hready & Hthrows). exists (ws, client).
    split; [exact Hin|]. cbn [fst snd]. rewrite Hready, Hthrows. left. reflexivity.
Qed.

(** X11. A broadcast never throws and never changes the state.  A frame
    goes out on a socket exactly when the socket is registered, open, and
    its [send] does not throw, and the frame is the text given: a socket
    whose [send] throws costs the others nothing. *)
Theorem broadcast_reaches_every_healthy_socket (env : Sockets) (json : string)
    (s : ServerState) :
  let r := broadcastToClients env json s in
  completion_of r = Normal tt
  /\ state_of r = s
  /\ forall ws data,
       In (WsSend ws data) (effects_of r)
       <-> data = json
           /\ exists client,
                In (ws, client) (clients s)
                /\ readyState env ws = OPEN
                /\ send_throws env ws json = false.
Proof.
  intros r. subst r. rewrite broadcastToClients_run.
  unfold completion_of, state_of, effects_of. cbn [fst snd].
  split; [reflexivity|]. split; [reflexivity|].
  intros ws data. apply in_broadcast_effects.
Qed.

Lemma pollStateFile_total (env : Sockets) (file : StateFile) (s : ServerState) :
  completion_of (pollStateFile env file s) = Normal tt
  /\ sessionTokens (state_of (pollStateFile env file s)) = sessionTokens s.
Proof.
  unfold pollStateFile, try_catch, bind, or_throw, get, modify.
  destruct (existsSync file); cbn [negb]; [|split; reflexivity].
  destruct (readFileSync file) as [content|]; [|split; reflexivity].
  cbn [ret]. destruct (JSON_parse content) as [parsed|]; [|split; reflexivity].
  cbn [ret]. destruct (isValidBroadcastPayload parsed); cbn [negb]; [|split; reflexivity].
  destruct (number_strict_eq _ _); cbn [negb]; [split; reflexivity|].
  rewrite broadcastToClients_run. destruct s; split; reflexivity.
Qed.

Lemma pollStateFile_no_document (env : Sockets) (file : StateFile) (s : ServerState) :
  existsSync file = false \/ readFileSync file = None
  \/ (exists content, readFileSync file = Some content /\ JSON_parse content = None) ->
  pollStateFile env file s = (Normal tt, s, []).
Proof.
  intros Hfail. unfold pollStateFile, try_catch, bind, or_throw.
  destruct (existsSync file); cbn [negb]; [|reflexivity].
  destruct Hfail as [Hf | [-> | (content & -> & Hparse)]];
    [discriminate | reflexivity |].
  cbn [ret]. rewrite Hparse. reflexivity.
Qed.

Lemma pollStateFile_wrong_shape (env : Sockets) (file : StateFile) (s : ServerState)
    (content : string) (parsed : JValue) :
  existsSync file = true -> readFileSync file = Some content ->
  JSON_parse content = Some parsed -> isValidBroadcastPayload parsed = false ->
  pollStateFile env file s
  = (Normal tt, s,
     [Console LWarn "Ignoring invalid broadcast payload shape from state file" []]).
Proof.
  intros Hex Hread Hparse Hshape. unfold pollStateFile, try_catch, bind, or_throw.
  rewrite Hex, Hread. cbn [negb ret]. rewrite Hparse. cbn [ret]. rewrite Hshape.
  reflexivity.
Qed.

(** X12. The poller never throws and can change nothing but the held
    snapshot and its timestamp.  A missing file, a read that throws and a
    text that is not JSON leave the state as it is and log nothing; a
    document of the wrong shape leaves the state as it is and logs one
    warning. *)
Theorem pollStateFile_failures_are_silent (env : Sockets) (file : StateFile)
    (s : ServerState) :
  let r := pollStateFile env file s in
  completion_of r = Normal tt
  /\ clients (state_of r) = clients s
  /\ ipConnectionCounts (state_of r) = ipConnectionCounts s
  /\ sessionTokens (state_of r) = sessionTokens s
  /\ (existsSync file = false \/ readFileSync file = None
      \/ (exists content, readFileSync file = Some content /\ JSON_parse content = None) ->
      r = (Normal tt, s, []))
  /\ (forall content parsed,
        existsSync file = true -> readFileSync file = Some content ->
        JSON_parse content = Some parsed -> isValidBroadcastPayload parsed = false ->
        r = (Normal tt, s,
             [Console LWarn "Ignoring invalid broadcast payload shape from state file" []])).
Proof.
  intros r. subst r.
  destruct (pollStateFile_total env file s) as [Hc Htok].
  destruct (pollStateFile_registry env file s) as [Hcl Hcnt].
  split; [exact Hc|]. split; [exact Hcl|]. split; [exact Hcnt|]. split; [exact Htok|].
  split; [apply pollStateFile_no_document | apply pollStateFile_wrong_shape].
Qed.

End LivenessProperties.

(* ====================================================================== *)
(** ** Further properties: proxy headers, token encoding, join and close   *)
(* ====================================================================== *)

Section MoreServerProperties.
Context `{Platform} (config : ServerConfig.t).

Lemma before_comma_first (first rest : string) :
  has_comma first = false ->
  before_comma (first ++ String ","%char rest) = first.
Proof.
  induction first as [|c first IH]; simpl.
  - reflexivity.
  - destruct (Ascii.eqb c ","%char); simpl; [discriminate|].
    intros Hno. rewrite IH by exact Hno. reflexivity.
Qed.

Lemma before_comma_whole (s : string) : has_comma s = false -> before_comma s = s.
Proof.
  induction s as [|c s IH]; cbn [has_comma before_comma]; [reflexivity|].
  destruct (Ascii.eqb c ","%char); cbn [orb]; [discriminate|].
  intros Hno. rewrite IH by exact Hno. reflexivity.
Qed.

(** X13. Behind a trusted proxy the client address is taken, in this
    order, from [cf-connecting-ip], [x-real-ip] (each used when it is a
    string that is not blank, trimmed), then from [x-forwarded-for] when it
    is a string (trimmed text before the first comma, blank or not), and
    only then from the peer address of the transport.  For a forwarding
    chain [first,rest] the address is [first], trimmed. *)
Theorem getClientIp_proxy_precedence (req : IncomingMessage.t) :
  ServerConfig.trustProxy config = true ->
  (forall cf, header_string (IncomingMessage.cf_connecting_ip req) = Some cf ->
     String_trim cf <> "" -> getClientIp config req = String_trim cf)
  /\ (blank_header (IncomingMessage.cf_connecting_ip req) = true ->
      forall xr, header_string (IncomingMessage.x_real_ip req) = Some xr ->
      String_trim xr <> "" -> getClientIp config req = String_trim xr)
  /\ (blank_header (IncomingMessage.cf_connecting_ip req) = true ->
      blank_header (IncomingMessage.x_real_ip req) = true ->
      (forall forwarded,
         header_string (IncomingMessage.x_forwarded_for req) = Some forwarded ->
         getClientIp config req = String_trim (before_comma forwarded))
      /\ (forall first rest,
            IncomingMessage.x_forwarded_for req = HString (first ++ String ","%char rest) ->
            has_comma first = false ->
            getClientIp config req = String_trim first)
      /\ (header_string (IncomingMessage.x_forwarded_for req) = None ->
          getClientIp config req
          = default "unknown" (IncomingMessage.remoteAddress req))).
Proof.
  intros Hproxy. unfold getClientIp, blank_header. rewrite Hproxy.
  split; [|split].
  - intros cf -> Hne. apply String.eqb_neq in Hne. rewrite Hne. reflexivity.
  - intros Hcf xr -> Hne. apply String.eqb_neq in Hne. rewrite Hne. cbn [negb].
    destruct (header_string (IncomingMessage.cf_connecting_ip req)) as [cf|];
      [rewrite Hcf|]; reflexivity.
  - intros Hcf Hxr.
    assert (Hfall : forall v,
      match header_string (IncomingMessage.cf_connecting_ip req) with
      | Some cf => if negb (String.eqb (String_trim cf) "") then String_trim cf
                   else match header_string (IncomingMessage.x_real_ip req) with
                        | Some xr => if negb (String.eqb (String_trim xr) "")
                                     then String_trim xr else v
                        | None => v
                        end
      | None => match header_string (IncomingMessage.x_real_ip req) with
                | Some xr => if negb (String.eqb (String_trim xr) "")
                             then String_trim xr else v
                | None => v
                end
      end = v).
    { intros v.
      destruct (header_string (IncomingMessage.cf_connecting_ip req)) as [cf|];
        [rewrite Hcf; cbn [negb]|];
        (destruct (header_string (IncomingMessage.x_real_ip req)) as [xr|];
         [rewrite Hxr|]; reflexivity). }
    split; [|split].
    + intros forwarded Hf. rewrite Hfall, Hf. reflexivity.
    + intros first rest Hf Hno. rewrite Hfall, Hf. cbn [header_string].
      rewrite before_comma_first by exact Hno. reflexivity.
    + intros Hf. rewrite Hfall, Hf. reflexivity.
Qed.

Lemma hex_byte (b : Byte.byte) :
  hex_value (hexDigit (Nat.div (Byte.to_nat b) 16)) = Some (Nat.div (Byte.to_nat b) 16)
  /\ hex_value (hexDigit (Nat.modulo (Byte.to_nat b) 16))
     = Some (Nat.modulo (Byte.to_nat b) 16)
  /\ Byte.of_nat (16 * Nat.div (Byte.to_nat b) 16 + Nat.modulo (Byte.to_nat b) 16)
     = Some b.
Proof. destruct b; vm_compute; repeat split. Qed.

Lemma hex_decode_encode (bytes : list Byte.byte) :
  hex_decode (Buffer_toString_hex bytes) = Some bytes.
Proof.
  induction bytes as [|b rest IH]; [reflexivity|].
  cbn [Buffer_toString_hex hex_decode].
  destruct (hex_byte b) as (-> & -> & ->). rewrite IH. reflexivity.
Qed.

(** X14. The hexadecimal encoding of the token bytes loses nothing: it has
    two characters per byte, all of them in [0-9a-f], decodes back to the
    bytes, and so maps different byte strings to different tokens; the 24
    random bytes of a token give 48 characters. *)
Theorem Buffer_toString_hex_faithful (bytes : list Byte.byte) :
  String.length (Buffer_toString_hex bytes) = (2 * length bytes)%nat
  /\ all_hex (Buffer_toString_hex bytes) = true
  /\ hex_decode (Buffer_toString_hex bytes) = Some bytes
  /\ (forall other, Buffer_toString_hex other = Buffer_toString_hex bytes -> other = bytes)
  /\ (length bytes = 24%nat -> String.length (Buffer_toString_hex bytes) = 48%nat).
Proof.
  assert (Hlen : String.length (Buffer_toString_hex bytes) = (2 * length bytes)%nat).
  { induction bytes as [|b rest IH]; [reflexivity|].
    cbn [Buffer_toString_hex String.length length]. rewrite IH. lia. }
  split; [exact Hlen|]. split; [|split; [|split]].
  - clear Hlen. induction bytes as [|b rest IH]; [reflexivity|].
    cbn [Buffer_toString_hex all_hex]. destruct (hex_byte b) as (-> & -> & _). exact IH.
  - apply hex_decode_encode.
  - intros other Heq. pose proof (hex_decode_encode other) as Ho.
    rewrite Heq, hex_decode_encode in Ho. congruence.
  - intros H24. rewrite Hlen, H24. reflexivity.
Qed.

Lemma Map_delete_set_fresh (k : WebSocket) (v : ClientConnection.t) (m : ClientMap) :
  Map_get k m = None -> Map_delete k (Map_set k v m) = m.
Proof.
  induction m as [|[k' v'] rest IH]; cbn [Map_get Map_set Map_delete].
  - rewrite Nat.eqb_refl. reflexivity.
  - destruct (Nat.eqb k' k) eqn:Hk; [discriminate|]. intros Hrest.
    cbn [Map_delete]. rewrite Hk, IH by exact Hrest. reflexivity.
Qed.

Lemma onConnection_state (env : Sockets) (ws : WebSocket) (req : IncomingMessage.t)
    (now : Z) (s : ServerState) :
  state_of (onConnection config env ws req now s)
  = with_ipConnectionCounts
      (fun counts =>
         <[getClientIp config req := default 0 (counts !! getClientIp config req) + 1]>
           counts)
      (with_clients
         (Map_set ws (ClientConnection.mk ws (getClientIp config req) now now)) s).
Proof.
  cbv beta zeta delta [onConnection bind modify get ws_send state_of].
  destruct s as [cl cnt tok ls lt].
  destruct (send_throws env ws (JSON_stringify _));
    cbv beta iota delta [throw emit fst snd with_clients with_ipConnectionCounts clients
      ipConnectionCounts sessionTokens lastState lastTimestamp];
    [reflexivity|].
  destruct (send_throws env ws ls);
    cbv beta iota delta [throw emit fst snd with_clients with_ipConnectionCounts clients
      ipConnectionCounts sessionTokens lastState lastTimestamp];
    reflexivity.
Qed.

(** X15. Join and close undo each other: in a consistent registry, the
    [connection] listener for a new socket followed by the [close] listener
    of that socket leaves the state exactly as it was, whether or not the
    sends of the join threw. *)
Theorem join_then_close_restores_state (env : Sockets) (ws : WebSocket)
    (req : IncomingMessage.t) (now : Z) (s : ServerState) :
  registry_consistent s ->
  Map_get ws (clients s) = None ->
  state_of (onClose ws (getClientIp config req)
              (state_of (onConnection config env ws req now s)))
  = s.
Proof.
  intros [_ Hcount] Hfresh. rewrite onClose_run, onConnection_state.
  specialize (Hcount (getClientIp config req)).
  pose proof (connections_of_nonneg (getClientIp config req) (clients s)) as Hn.
  destruct s as [cl cnt tok ls lt].
  cbv beta iota delta [with_clients with_ipConnectionCounts clients ipConnectionCounts
    sessionTokens lastState lastTimestamp] in *.
  rewrite Map_delete_set_fresh by exact Hfresh. f_equal.
  rewrite lookup_insert_eq. cbn [from_option id].
  destruct (Z.eqb_spec (connections_of (getClientIp config req) cl) 0) as [Hz|Hnz].
  - rewrite Hcount. cbn [from_option id].
    change (0 + 1 - 1 <=? 0) with true. cbv iota.
    rewrite delete_insert_eq. apply delete_id. exact Hcount.
  - rewrite Hcount. cbn [from_option id].
    destruct (Z.leb_spec (connections_of (getClientIp config req) cl + 1 - 1) 0); [lia|].
    rewrite insert_insert_eq. apply insert_id. rewrite Hcount. f_equal. lia.
Qed.

Lemma step_snapshot (s : ServerState) (e : Event) :
  (lastState (step config s e) = lastState s
   /\ lastTimestamp (step config s e) = lastTimestamp s)
  \/ exists env file content parsed,
       e = EPoll env file
       /\ readFileSync file = Some content
       /\ JSON_parse content = Some parsed
       /\ isValidBroadcastPayload parsed = true
       /\ payload_timestamp parsed <> lastTimestamp s
       /\ lastState (step config s e) = content
       /\ lastTimestamp (step config s e) = payload_timestamp parsed.
Proof.
  unfold step.
  destruct e as [req entropy now | env req handshake now | ws ip | ws now
                 | env file | env now | now]; cbn [handle].
  - left.
    assert (Hst : state_of ((onRequest config req entropy now ;; ret tt)%handler s)
                  = state_of (onRequest config req entropy now s)).
    { unfold bind, state_of.
      destruct (onRequest config req entropy now s) as [[[r|] s1] e1]; reflexivity. }
    rewrite Hst.
    destruct (onRequest_cases config req entropy now s) as [Hr | [Hr | [Hr | [Hr | Hr]]]];
      rewrite Hr; try (split; reflexivity);
      unfold state_of at 1 3; cbn [fst snd]; rewrite issueSessionToken_run;
      destruct s; split; reflexivity.
  - left. rewrite onUpgrade_state.
    destruct (checkUpgrade_frame config req now s) as (tokens' & Hst & _).
    destruct (completion_of (checkUpgrade config req now s)) as [[|status message]|],
      handshake as [ws|]; try (rewrite Hst; destruct s; split; reflexivity).
    rewrite onConnection_state. destruct s; split; reflexivity.
  - left. rewrite onClose_run. destruct s; split; reflexivity.
  - left. rewrite onPong_run. destruct (Map_get ws (clients s)); destruct s; split; reflexivity.
  - unfold pollStateFile, try_catch, bind, or_throw, get, modify.
    destruct (existsSync file); cbn [negb]; [|left; split; reflexivity].
    destruct (readFileSync file) as [content|] eqn:Hread; [|left; split; reflexivity].
    cbn [ret]. destruct (JSON_parse content) as [parsed|] eqn:Hparse;
      [|left; split; reflexivity].
    cbn [ret]. destruct (isValidBroadcastPayload parsed) eqn:Hvalid; cbn [negb];
      [|left; split; reflexivity].
    destruct (number_strict_eq (payload_timestamp parsed) (lastTimestamp s)) eqn:Heq;
      cbn [negb]; [left; split; reflexivity|].
    right. exists env, file, content, parsed.
    rewrite broadcastToClients_run.
    repeat (split; [first [reflexivity | assumption]|]).
    split.
    + intros Hsame.
      apply (number_strict_eq_finite _ (lastTimestamp s)
               (valid_payload_timestamp_finite _ Hvalid)) in Hsame. congruence.
    + destruct s; split; reflexivity.
  - left. rewrite pingClients_state. split; reflexivity.
  - left. unfold cleanExpiredSessionTokens, modify, state_of. destruct s; split; reflexivity.
Qed.

(** X16. Whatever events the server handles after start-up, the snapshot
    it holds (and sends to every new connection) is either the start-up
    default, with [lastTimestamp] still 0, or the text of a state file that
    [JSON.parse] reads as a valid payload whose timestamp is
    [lastTimestamp]; [lastTimestamp] is always finite; and only a poll can
    change either of them. *)
Theorem held_snapshot_is_wellformed (start : Z) (trace : list Event) :
  snapshot_wellformed start (run config (initialState start) trace)
  /\ Number_isFinite (lastTimestamp (run config (initialState start) trace)) = true
  /\ forall s e,
       (forall env file, e <> EPoll env file) ->
       lastState (step config s e) = lastState s
       /\ lastTimestamp (step config s e) = lastTimestamp s.
Proof.
  assert (Hrun : forall s,
            snapshot_wellformed start s /\ Number_isFinite (lastTimestamp s) = true ->
            snapshot_wellformed start (run config s trace)
            /\ Number_isFinite (lastTimestamp (run config s trace)) = true).
  { induction trace as [|e rest IH]; intros s Hs; [exact Hs|].
    unfold run in *. cbn [fold_left]. apply IH.
    destruct Hs as [Hwf Hfin].
    destruct (step_snapshot s e)
      as [[Hls Hlt] | (env & file & content & parsed & _ & _ & Hparse & Hvalid & _ & Hls & Hlt)].
    - split; [|rewrite Hlt; exact Hfin].
      unfold snapshot_wellformed. rewrite Hls, Hlt. exact Hwf.
    - split.
      + right. exists parsed. rewrite Hls, Hlt. repeat split; assumption.
      + rewrite Hlt. apply valid_payload_timestamp_finite. exact Hvalid. }
  split; [|split].
  - apply Hrun. split; [left; split; reflexivity | reflexivity].
  - apply Hrun. split; [left; split; reflexivity | reflexivity].
  - intros s e Hnot.
    destruct (step_snapshot s e)
      as [Hsame | (env & file & content & parsed & He & _)]; [exact Hsame|].
    exfalso. exact (Hnot env file He).
Qed.

End MoreServerProperties.

(* ====================================================================== *)
(** ** Further properties: the viewer and the server agree on messages     *)
(* ====================================================================== *)

Section ClientProperties.
Context `{Platform}.

Lemma number_strict_eq_refl (n : number) : n <> NaN -> number_strict_eq n n = true.
Proof. destruct n; cbn; [intros _; apply Z.eqb_refl | reflexivity | reflexivity | congruence]. Qed.

Lemma held_number_is_self (value : JValue) (key : string) :
  Client.has_number value key = true ->
  get_prop value key <> Some (JNumber NaN) ->
  Client.held_number_is (Some value) key (Client.number_of value key) = true.
Proof.
  unfold Client.has_number, Client.held_number_is, Client.number_of.
  destruct (get_prop value key) as [[| |n| | |]|]; try discriminate.
  intros _ Hn. apply number_strict_eq_refl. congruence.
Qed.

Lemma valid_payload_is_not_welcome (parsed : JValue) :
  isValidBroadcastPayload parsed = true -> Client.isWelcomePayload parsed = false.
Proof.
  unfold isValidBroadcastPayload, Client.isWelcomePayload, Client.has_type.
  destruct (isObject parsed); cbn [negb]; [|discriminate].
  destruct (get_prop parsed "type") as [[| | |t| |]|]; cbn [negb]; try discriminate.
  destruct (String.eqb_spec t "state") as [->|]; cbn [negb]; [|discriminate].
  reflexivity.
Qed.

Lemma valid_payload_client_shape (parsed : JValue) :
  isValidBroadcastPayload parsed = true ->
  Client.isBroadcastPayload parsed
  = match get_prop parsed "bracket" with
    | None => true
    | Some JNull => true
    | Some bracket => isObject bracket
    end.
Proof.
  unfold isValidBroadcastPayload, Client.isBroadcastPayload, Client.has_type,
    Client.has_number.
  destruct (isObject parsed); cbn [negb]; [|discriminate].
  destruct (get_prop parsed "type") as [[| | |t| |]|]; cbn [negb]; try discriminate.
  destruct (String.eqb t "state"); cbn [negb]; [|discriminate].
  destruct (get_prop parsed "timestamp") as [[| |n| | |]|]; cbn [negb]; try discriminate.
  destruct (Number_isFinite n); cbn [negb]; [|discriminate].
  destruct (get_prop parsed "instances") as [[| | | |items|]|]; cbn [negb]; try discriminate.
  reflexivity.
Qed.

(** X17. What the server builds, the viewer accepts: a welcome frame, read
    back by [JSON.parse], passes [isWelcomePayload] and not
    [isBroadcastPayload]; handling it logs nothing, touches neither the
    held snapshot nor the connection flags, and leaves the viewer holding a
    welcome with the server's [updateIntervalMs].  A 200 body of the token
    endpoint passes [isSessionTokenPayload]; an error body does not. *)
Theorem server_messages_pass_client_checks (updateIntervalMs : Z)
    (prev : Client.WebSocketState) :
  JSON_parse (JSON_stringify (WelcomePayload updateIntervalMs))
  = Some (WelcomePayload updateIntervalMs) ->
  let r := Client.onmessage (JSON_stringify (WelcomePayload updateIntervalMs)) prev in
  Client.isWelcomePayload (WelcomePayload updateIntervalMs) = true
  /\ Client.isBroadcastPayload (WelcomePayload updateIntervalMs) = false
  /\ snd r = []
  /\ Client.lastState (fst r) = Client.lastState prev
  /\ Client.isConnected (fst r) = Client.isConnected prev
  /\ Client.error (fst r) = Client.error prev
  /\ Client.held_number_is (Client.welcome (fst r)) "updateIntervalMs"
       (Finite updateIntervalMs) = true
  /\ (Client.welcome prev = None ->
      Client.welcome (fst r) = Some (WelcomePayload updateIntervalMs))
  /\ (forall token expiresAt,
        Client.isSessionTokenPayload (SessionTokenPayload token expiresAt) = true)
  /\ (forall error, Client.isSessionTokenPayload (ErrorPayload error) = false).
Proof.
  intros Hread r. subst r. unfold Client.onmessage. rewrite Hread.
  change (Client.isWelcomePayload (WelcomePayload updateIntervalMs)) with true. cbv iota.
  change (Client.number_of (WelcomePayload updateIntervalMs) "updateIntervalMs")
    with (Finite updateIntervalMs).
  split; [reflexivity|]. split; [reflexivity|].
  destruct (Client.held_number_is (Client.welcome prev) "updateIntervalMs"
              (Finite updateIntervalMs)) eqn:Hheld; cbn [fst snd].
  - repeat (split; [reflexivity|]). split; [exact Hheld|].
    split; [|split; reflexivity].
    intros Hnone. rewrite Hnone in Hheld. discriminate.
  - cbn [Client.lastState Client.isConnected Client.error Client.welcome].
    repeat (split; [reflexivity|]). split.
    + cbn. apply Z.eqb_refl.
    + split; [reflexivity|]. split; reflexivity.
Qed.

(** X18. A state file the server accepts is not always one the viewer
    accepts: for a text that the server's [isValidBroadcastPayload] passes,
    the viewer never takes it for a welcome, and takes it for a state
    message exactly when [bracket] is absent, [null] or an object.  Then a
    new timestamp replaces the held snapshot and an equal one changes
    nothing; otherwise the frame is dropped with a warning. *)
Theorem broadcast_frame_at_the_client (content : string) (parsed : JValue)
    (prev : Client.WebSocketState) :
  JSON_parse content = Some parsed ->
  isValidBroadcastPayload parsed = true ->
  let bracket_ok :=
    match get_prop parsed "bracket" with
    | None => true
    | Some JNull => true
    | Some bracket => isObject bracket
    end in
  Client.isWelcomePayload parsed = false
  /\ Client.isBroadcastPayload parsed = bracket_ok
  /\ (bracket_ok = true ->
      Client.onmessage content prev
      = (if Client.held_number_is (Client.lastState prev) "timestamp"
              (payload_timestamp parsed)
         then prev
         else Client.mkState (Client.isConnected prev) (Some parsed) (Client.welcome prev)
                (Client.error prev),
         []))
  /\ (bracket_ok = false ->
      Client.onmessage content prev
      = (prev, [Console LWarn "Ignoring invalid WebSocket payload shape" []])).
Proof.
  intros Hparse Hvalid bracket_ok.
  pose proof (valid_payload_is_not_welcome parsed Hvalid) as Hw.
  pose proof (valid_payload_client_shape parsed Hvalid) as Hb. fold bracket_ok in Hb.
  split; [exact Hw|]. split; [exact Hb|].
  unfold Client.onmessage. rewrite Hparse, Hw, Hb. split.
  - intros ->.
    change (Client.number_of parsed "timestamp") with (payload_timestamp parsed).
    destruct (Client.held_number_is _ _ _); reflexivity.
  - intros ->. reflexivity.
Qed.

Lemma onmessage_flags (data : string) (prev : Client.WebSocketState) :
  Client.isConnected (fst (Client.onmessage data prev)) = Client.isConnected prev
  /\ Client.error (fst (Client.onmessage data prev)) = Client.error prev.
Proof.
  unfold Client.onmessage. destruct (JSON_parse data) as [parsed|]; [|split; reflexivity].
  destruct (Client.isWelcomePayload parsed).
  - destruct (Client.held_number_is _ _ _); split; reflexivity.
  - destruct (Client.isBroadcastPayload parsed); [|split; reflexivity].
    destruct (Client.held_number_is _ _ _); split; reflexivity.
Qed.

Lemma isWelcomePayload_has_interval (parsed : JValue) :
  Client.isWelcomePayload parsed = true ->
  Client.has_number parsed "updateIntervalMs" = true.
Proof.
  unfold Client.isWelcomePayload.
  destruct (negb (isObject parsed)); [discriminate|].
  destruct (negb (Client.has_type parsed "welcome")); [discriminate|].
  destruct (negb (Client.has_string parsed "message")); [discriminate|].
  destruct (Client.has_number parsed "updateIntervalMs"); [reflexivity | discriminate].
Qed.

Lemma isBroadcastPayload_has_timestamp (parsed : JValue) :
  Client.isBroadcastPayload parsed = true ->
  Client.has_number parsed "timestamp" = true.
Proof.
  unfold Client.isBroadcastPayload.
  destruct (negb (isObject parsed)); [discriminate|].
  destruct (negb (Client.has_type parsed "state")); [discriminate|].
  destruct (Client.has_number parsed "timestamp"); [reflexivity | discriminate].
Qed.

Lemma onmessage_twice (data : string) (prev : Client.WebSocketState) :
  (forall parsed key, JSON_parse data = Some parsed ->
                      get_prop parsed key <> Some (JNumber NaN)) ->
  fst (Client.onmessage data (fst (Client.onmessage data prev)))
  = fst (Client.onmessage data prev).
Proof.
  intros Hnan. unfold Client.onmessage.
  destruct (JSON_parse data) as [parsed|] eqn:Hparse; [|reflexivity].
  destruct (Client.isWelcomePayload parsed) eqn:Hw.
  - destruct (Client.held_number_is (Client.welcome prev) _ _) eqn:Hheld; cbn [fst].
    + rewrite Hheld. reflexivity.
    + cbn [Client.welcome].
      rewrite held_number_is_self;
        [reflexivity | apply isWelcomePayload_has_interval; exact Hw | apply Hnan; reflexivity].
  - destruct (Client.isBroadcastPayload parsed) eqn:Hb; [|reflexivity].
    destruct (Client.held_number_is (Client.lastState prev) _ _) eqn:Hheld; cbn [fst].
    + rewrite Hheld. reflexivity.
    + cbn [Client.lastState].
      rewrite held_number_is_self;
        [reflexivity | apply isBroadcastPayload_has_timestamp; exact Hb
         | apply Hnan; reflexivity].
Qed.

(** X19. The viewer's message handler never changes the connection flag or
    the error text.  A frame that is not JSON is logged as an error and a
    frame of neither shape as a warning, both leaving the state as it is.
    Handling the same frame twice is handling it once, and after a state
    frame has been taken, a later state frame with the same timestamp
    changes nothing, whatever its content (numbers read by [JSON.parse]
    are never [NaN]). *)
Theorem client_dedups_by_timestamp (data : string) (prev : Client.WebSocketState) :
  (forall parsed key, JSON_parse data = Some parsed ->
                      get_prop parsed key <> Some (JNumber NaN)) ->
  let r := Client.onmessage data prev in
  Client.isConnected (fst r) = Client.isConnected prev
  /\ Client.error (fst r) = Client.error prev
  /\ (JSON_parse data = None ->
      r = (prev, [Console LError "Failed to parse WebSocket message:" []]))
  /\ (forall parsed, JSON_parse data = Some parsed ->
        Client.isWelcomePayload parsed = false ->
        Client.isBroadcastPayload parsed = false ->
        r = (prev, [Console LWarn "Ignoring invalid WebSocket payload shape" []]))
  /\ fst (Client.onmessage data (fst r)) = fst r
  /\ (forall parsed other parsed',
        JSON_parse data = Some parsed ->
        Client.isWelcomePayload parsed = false ->
        Client.isBroadcastPayload parsed = true ->
        JSON_parse other = Some parsed' ->
        Client.isWelcomePayload parsed' = false ->
        Client.isBroadcastPayload parsed' = true ->
        Client.number_of parsed' "timestamp" = Client.number_of parsed "timestamp" ->
        Client.onmessage other (fst r) = (fst r, [])).
Proof.
  intros Hnan r. subst r.
  destruct (onmessage_flags data prev) as [Hconn Herr].
  split; [exact Hconn|]. split; [exact Herr|]. split; [|split; [|split]].
  - intros Hnone. unfold Client.onmessage. rewrite Hnone. reflexivity.
  - intros parsed Hparse Hw Hb. unfold Client.onmessage. rewrite Hparse, Hw, Hb. reflexivity.
  - apply onmessage_twice. exact Hnan.
  - intros parsed other parsed' Hparse Hw Hb Hparse' Hw' Hb' Hsame.
    pose proof (onmessage_twice data prev Hnan) as Htwice.
    unfold Client.onmessage in *. rewrite Hparse, Hw, Hb in *. rewrite Hparse', Hw', Hb', Hsame.
    destruct (Client.held_number_is (Client.lastState prev) "timestamp"
                (Client.number_of parsed "timestamp")) eqn:Hheld; cbn [fst] in *.
    + rewrite Hheld. reflexivity.
    + cbn [Client.lastState] in *.
      rewrite held_number_is_self;
        [reflexivity | apply isBroadcastPayload_has_timestamp; exact Hb
         | apply Hnan; reflexivity].
Qed.

End ClientProperties.

(* ====================================================================== *)
(** ** The further properties at work on the scenarios                     *)
(* ====================================================================== *)

(** X1: [alice]'s upgrade at 1000 goes through, so her token is in the
    store, live, and bound to her address. *)
Lemma checkUpgrade_proceeds_only_with_token_witness :
  completion_of
    (checkUpgrade (H := Scenario.P) Scenario.strict
       (Scenario.upgradeRequest (HString Scenario.viewer) Scenario.alice) 1000 Scenario.issued)
  = Normal Proceed
  /\ exists bound,
       sessionTokens Scenario.issued !! Scenario.token = Some bound
       /\ 1000 < SessionTokenState.expiresAt bound
       /\ SessionTokenState.ip bound = Scenario.alice.
Proof.
  split; [vm_compute; reflexivity|].
  destruct (checkUpgrade_proceeds_only_with_token (H := Scenario.P) Scenario.strict
              (Scenario.upgradeRequest (HString Scenario.viewer) Scenario.alice) 1000
              Scenario.issued ltac:(vm_compute; reflexivity))
    as (_ & _ & _ & url & token & bound & Hurl & Hparam & _ & Hheld & Hlive & Hip & _).
  assert (Htoken : token = Scenario.token).
  { vm_compute in Hurl. injection Hurl as <-. vm_compute in Hparam.
    injection Hparam as <-. reflexivity. }
  subst token. exists bound. split; [exact Hheld|]. split; [exact Hlive | exact Hip].
Defined.

(** X3: the session of the scenarios stays within both quotas. *)
Lemma quotas_hold_in_every_state_witness :
  valid_trace (H := Scenario.P) Scenario.strict (initialState (H := Scenario.P) 0)
    (firstn 5 Scenario.session) = true
  /\ Map_size
       (clients (run (H := Scenario.P) Scenario.strict (initialState (H := Scenario.P) 0)
                   (firstn 5 Scenario.session))) <= 10
  /\ connections_of Scenario.alice
       (clients (run (H := Scenario.P) Scenario.strict (initialState (H := Scenario.P) 0)
                   (firstn 5 Scenario.session))) <= 1.
Proof.
  split; [vm_compute; reflexivity|].
  destruct (quotas_hold_in_every_state (H := Scenario.P) Scenario.strict 0
              (firstn 5 Scenario.session) ltac:(vm_compute; reflexivity)) as [Htotal Hper].
  split; [exact Htotal | exact (Hper Scenario.alice)].
Defined.

(** X4: a later sweep of the stale store does all that an earlier one did. *)
Lemma sweep_removes_exactly_expired_witness :
  sessionTokens (state_of (cleanExpiredSessionTokens 10 Scenario.stale)) !! "0ld" = None
  /\ state_of (cleanExpiredSessionTokens 20
                 (state_of (cleanExpiredSessionTokens 10 Scenario.stale)))
     = state_of (cleanExpiredSessionTokens 20 Scenario.stale).
Proof.
  destruct (sweep_removes_exactly_expired 10 Scenario.stale)
    as (_ & _ & _ & _ & _ & _ & Hlookup & _ & Hlater).
  split; [rewrite Hlookup; vm_compute; reflexivity | apply Hlater; lia].
Defined.

(** X5: the allowed host passes, with or without a port, in any case. *)
Lemma isHostAllowed_rule_witness :
  isHostAllowed (H := Scenario.P) Scenario.strict (Some "Viewer.Example.com:8443") = true.
Proof.
  apply (isHostAllowed_rule (H := Scenario.P) Scenario.strict). right.
  exists "Viewer.Example.com:8443",
    (URL.mk "http:" "Viewer.Example.com" "/" []), Scenario.viewer,
    (URL.mk "https:" "viewer.example.com" "/" []).
  repeat split; try discriminate; try (vm_compute; reflexivity).
  left. reflexivity.
Defined.

(** X6: a request for another path is answered 404 and changes nothing. *)
Lemma onRequest_changes_state_only_on_200_witness :
  state_of (onRequest (H := Scenario.P) Scenario.strict
              (Ref.request "/metrics" (HString Scenario.viewer)
                 (HString Scenario.viewerHost) Scenario.alice)
              Ref.bytes24 0 Scenario.issued)
  = Scenario.issued.
Proof.
  destruct (onRequest_changes_state_only_on_200 (H := Scenario.P) Scenario.strict
              (Ref.request "/metrics" (HString Scenario.viewer)
                 (HString Scenario.viewerHost) Scenario.alice)
              Ref.bytes24 0 Scenario.issued) as (_ & Hstatus & _).
  destruct (Hstatus _ ltac:(vm_compute; reflexivity)) as [_ Hkeep].
  apply Hkeep. vm_compute. discriminate.
Defined.

(** X7: the allowed origin is echoed, the foreign one is not. *)
Lemma cors_echoes_only_allowed_origins_witness :
  (forall res,
     completion_of (onRequest (H := Scenario.P) Scenario.strict Scenario.tokenRequest
                      Ref.bytes24 0 Scenario.start) = Normal res ->
     header_get "Access-Control-Allow-Origin" (ServerResponse.headers res)
     = Some Scenario.viewer)
  /\ (forall res,
        completion_of (onRequest (H := Scenario.P) Scenario.strict Cases.foreign
                         Ref.bytes24 0 Scenario.start) = Normal res ->
        header_get "Access-Control-Allow-Origin" (ServerResponse.headers res) = None).
Proof.
  split; intros res Hres.
  - rewrite (cors_echoes_only_allowed_origins (H := Scenario.P) Scenario.strict
               Scenario.tokenRequest Ref.bytes24 0 Scenario.start res Hres).
    vm_compute. reflexivity.
  - rewrite (cors_echoes_only_allowed_origins (H := Scenario.P) Scenario.strict
               Cases.foreign Ref.bytes24 0 Scenario.start res Hres).
    vm_compute. reflexivity.
Defined.

(** X8: the foreign origin names the allowed host and still gets 403. *)
Lemma foreign_origin_gets_no_token_witness :
  isHostAllowed (H := Scenario.P) Scenario.strict
    (header_string (IncomingMessage.host Cases.foreign)) = true
  /\ onRequest (H := Scenario.P) Scenario.strict Cases.foreign Ref.bytes24 0 Scenario.start
     = (Normal (ServerResponse.mk 403
                  [("Content-Type", "application/json"); ("Cache-Control", "no-store")]
                  (Some (Ref.stringify (ErrorPayload "Origin not allowed")))),
        Scenario.start, []).
Proof.
  split; [vm_compute; reflexivity|].
  apply (foreign_origin_gets_no_token (H := Scenario.P) Scenario.strict Cases.foreign
           Ref.bytes24 0 Scenario.start Scenario.evil
           (URL.mk "http:" "viewer.example.com" "/session-token" []));
    try discriminate; vm_compute; reflexivity.
Defined.

(** X9: at 61001 [mallory], silent since 1000, is terminated; [alice],
    heard at 50000, is not, and her ping throws without harm. *)
Lemma pingClients_terminates_exactly_idle_witness :
  In (WsTerminate 2%nat)
    (effects_of (pingClients Scenario.strict Cases.flaky 61001 Cases.pair))
  /\ ~ In (WsPing 1%nat)
       (effects_of (pingClients Scenario.strict Cases.flaky 61001 Cases.pair))
  /\ completion_of (pingClients Scenario.strict Cases.flaky 61001 Cases.pair) = Normal tt.
Proof.
  destruct (pingClients_terminates_exactly_idle Scenario.strict Cases.flaky 61001 Cases.pair)
    as (Hdone & _ & Hterm & Hping).
  split; [|split; [|exact Hdone]].
  - apply Hterm. exists (ClientConnection.mk 2%nat Scenario.mallory 1000 1000).
    split; [right; left; reflexivity | vm_compute; reflexivity].
  - intros Hin. apply Hping in Hin as (client & _ & _ & _ & Hthrows).
    vm_compute in Hthrows. discriminate.
Defined.

(** X10: [mallory] answers a ping at 60000 and survives the heartbeat at
    61001. *)
Lemma pong_defers_termination_witness :
  ~ In (WsTerminate 2%nat)
      (effects_of (pingClients Scenario.strict Cases.flaky 61001
                     (state_of (onPong 2%nat 60000 Cases.pair)))).
Proof.
  apply (pong_defers_termination Scenario.strict Cases.flaky 2%nat 60000 61001 Cases.pair
           (ClientConnection.mk 2%nat Scenario.mallory 1000 1000)).
  - apply NoDup_cons. split; [|apply NoDup_singleton].
    intros Hin. apply list_elem_of_In in Hin. destruct Hin as [Heq|[]]. discriminate.
  - reflexivity.
  - vm_compute. discriminate.
Defined.

(** X11: socket 1 throws, socket 2 still gets the frame. *)
Lemma broadcast_reaches_every_healthy_socket_witness :
  In (WsSend 2%nat "tick") (effects_of (broadcastToClients Cases.flaky "tick" Cases.pair))
  /\ ~ In (WsSend 1%nat "tick")
       (effects_of (broadcastToClients Cases.flaky "tick" Cases.pair)).
Proof.
  destruct (broadcast_reaches_every_healthy_socket Cases.flaky "tick" Cases.pair)
    as (_ & _ & Hsent).
  split.
  - apply Hsent. split; [reflexivity|].
    exists (ClientConnection.mk 2%nat Scenario.mallory 1000 1000).
    split; [right; left; reflexivity | split; reflexivity].
  - intros Hin. apply Hsent in Hin as (_ & client & _ & _ & Hthrows).
    vm_compute in Hthrows. discriminate.
Defined.

(** X12: a state file caught mid-write is skipped without a trace. *)
Lemma pollStateFile_failures_are_silent_witness :
  pollStateFile (H := Scenario.P) Ref.healthy (mkStateFile true (Some "{")) Scenario.connected
  = (Normal tt, Scenario.connected, []).
Proof.
  destruct (pollStateFile_failures_are_silent (H := Scenario.P) Ref.healthy
              (mkStateFile true (Some "{")) Scenario.connected)
    as (_ & _ & _ & _ & Hskip & _).
  apply Hskip. right. right. exists "{". split; [reflexivity | vm_compute; reflexivity].
Defined.

(** X13: the relayed request is attributed to the first address of its
    forwarding chain. *)
Lemma getClientIp_proxy_precedence_witness :
  ServerConfig.trustProxy Cases.proxied = true
  /\ getClientIp (H := Scenario.P) Cases.proxied Cases.relayed = "203.0.113.7".
Proof.
  split; [reflexivity|].
  destruct (getClientIp_proxy_precedence (H := Scenario.P) Cases.proxied Cases.relayed
              eq_refl) as (_ & _ & Hchain).
  destruct (Hchain ltac:(reflexivity) ltac:(vm_compute; reflexivity)) as (_ & Hfirst & _).
  rewrite (Hfirst " 203.0.113.7 " " 10.0.0.1" eq_refl ltac:(vm_compute; reflexivity)).
  vm_compute. reflexivity.
Defined.

(** X14: the token of the scenarios has 48 characters and decodes to its
    24 bytes. *)
Lemma Buffer_toString_hex_faithful_witness :
  String.length Scenario.token = 48%nat
  /\ hex_decode Scenario.token = Some Ref.bytes24.
Proof.
  destruct (Buffer_toString_hex_faithful Ref.bytes24) as (_ & _ & Hback & _ & Hlen).
  split; [apply Hlen; reflexivity | exact Hback].
Defined.

(** X15: [alice] joins the issued state on socket 1 and leaves again. *)
Lemma join_then_close_restores_state_witness :
  state_of (onClose 1%nat Scenario.alice Scenario.connected) = Scenario.issued.
Proof.
  assert (Hinv : registry_consistent Scenario.issued).
  { apply (registry_consistent_frame Scenario.start);
      [reflexivity | reflexivity | apply (initialState_consistent (H := Scenario.P))]. }
  pose proof (join_then_close_restores_state (H := Scenario.P) Scenario.strict Ref.healthy
                1%nat (Scenario.upgradeRequest (HString Scenario.viewer) Scenario.alice)
                1000 Scenario.issued Hinv eq_refl) as Hback.
  etransitivity; [|exact Hback]. vm_compute. reflexivity.
Defined.

(** X16: after the session the held snapshot is the state file that was
    polled, and the close and the sweep left it alone. *)
Lemma held_snapshot_is_wellformed_witness :
  Number_isFinite
    (lastTimestamp (run (H := Scenario.P) Scenario.strict (initialState (H := Scenario.P) 0)
                      Scenario.session)) = true
  /\ lastState (step (H := Scenario.P) Scenario.strict Scenario.connected
                  (EClose 1%nat Scenario.alice))
     = lastState Scenario.connected.
Proof.
  destruct (held_snapshot_is_wellformed (H := Scenario.P) Scenario.strict 0 Scenario.session)
    as (_ & Hfinite & Honly).
  split; [exact Hfinite|].
  apply Honly. intros env file. discriminate.
Defined.

(** X17: the viewer takes the welcome frame of the scenarios. *)
Lemma server_messages_pass_client_checks_witness :
  JSON_parse (Platform := Cases.P) (Ref.stringify (WelcomePayload 500))
  = Some (WelcomePayload 500)
  /\ Client.welcome
       (fst (Client.onmessage (H := Cases.P) (Ref.stringify (WelcomePayload 500))
               Client.initial))
     = Some (WelcomePayload 500).
Proof.
  split; [vm_compute; reflexivity|].
  destruct (server_messages_pass_client_checks (H := Cases.P) 500 Client.initial
              ltac:(vm_compute; reflexivity)) as (_ & _ & _ & _ & _ & _ & _ & Hnew & _).
  exact (Hnew eq_refl).
Defined.

(** X18: the server accepts and broadcasts the file with the odd bracket;
    the viewer drops it. *)
Lemma broadcast_frame_at_the_client_witness :
  isValidBroadcastPayload Cases.oddBracket = true
  /\ Client.onmessage (H := Cases.P) (Ref.stringify Cases.oddBracket) Client.initial
     = (Client.initial, [Console LWarn "Ignoring invalid WebSocket payload shape" []]).
Proof.
  split; [reflexivity|].
  destruct (broadcast_frame_at_the_client (H := Cases.P) (Ref.stringify Cases.oddBracket)
              Cases.oddBracket Client.initial ltac:(vm_compute; reflexivity) eq_refl)
    as (_ & _ & _ & Hdrop).
  apply Hdrop. reflexivity.
Defined.

(** X19: the viewer holds the quiet file and ignores the busy one, which
    has the same timestamp. *)
Lemma client_dedups_by_timestamp_witness :
  Client.onmessage (H := Cases.P) (Ref.stringify Scenario.busy)
    (fst (Client.onmessage (H := Cases.P) (Ref.stringify Scenario.quiet) Client.initial))
  = (fst (Client.onmessage (H := Cases.P) (Ref.stringify Scenario.quiet) Client.initial), []).
Proof.
  assert (Hnan : forall parsed key,
            JSON_parse (Platform := Cases.P) (Ref.stringify Scenario.quiet) = Some parsed ->
            get_prop parsed key <> Some (JNumber NaN)).
  { intros parsed key Hparsed. vm_compute in Hparsed. injection Hparsed as <-.
    cbn [get_prop assoc_last].
    repeat match goal with
           | |- context [String.eqb ?a ?b] => destruct (String.eqb a b)
           end; discriminate. }
  destruct (client_dedups_by_timestamp (H := Cases.P) (Ref.stringify Scenario.quiet)
              Client.initial Hnan) as (_ & _ & _ & _ & _ & Hdedup).
  apply (Hdedup Scenario.quiet (Ref.stringify Scenario.busy) Scenario.busy);
    vm_compute; reflexivity.
Defined.

(** X20: [alice]'s handshake is aborted at 1000 and passes again at 4999. *)
Lemma handshake_can_be_retried_witness :
  onUpgrade (H := Scenario.P) Scenario.strict Ref.healthy
    (Scenario.upgradeRequest (HString Scenario.viewer) Scenario.alice) None 1000
    Scenario.issued
  = (Normal tt, Scenario.issued, [AbortHandshake])
  /\ checkUpgrade (H := Scenario.P) Scenario.strict
       (Scenario.upgradeRequest (HString Scenario.viewer) Scenario.alice) 4999
       Scenario.issued
     = (Normal Proceed, Scenario.issued, []).
Proof.
  destruct (handshake_can_be_retried (H := Scenario.P) Scenario.strict Ref.healthy
              (Scenario.upgradeRequest (HString Scenario.viewer) Scenario.alice) 1000
              Scenario.issued ltac:(vm_compute; reflexivity))
    as (_ & Habort & bound & (url & token & Hurl & Hparam & Hheld) & Hagain).
  split; [exact Habort|]. apply Hagain.
  vm_compute in Hurl. injection Hurl as <-. vm_compute in Hparam. injection Hparam as <-.
  vm_compute in Hheld. injection Hheld as <-. vm_compute. reflexivity.
Defined.
